(** * Mongo document-store adapter: a shallow embedding

    The adapter (classes [MongoAdapterBase] and [MongoAdapter] and the
    free functions next to them) maps a class hierarchy with mixins onto
    document collections.  This development embeds the query translator,
    the forward-lookup fill, the date sort planner, the transaction bulk
    compiler, the bulk [update] with its retry, and the hash iterator, and
    states their properties.

    JavaScript objects are association lists: the code depends on key
    order ([Object.keys(value)[0]], [for ... in], [Map] iteration order
    feeding [bulkWrite]), so the order of insertion is kept.  Keys that
    are array indices, which JavaScript enumerates first, are not told
    apart: attribute names, operators and class identifiers are none. *)

From Stdlib Require Import String Ascii List Bool Arith ZArith NArith Lia Permutation.
From Equations Require Import Equations.
Import ListNotations.
Set Warnings "-register-all".
Local Open Scope list_scope.
Local Open Scope string_scope.

(** ** JavaScript values *)

Module Js.

Inductive Value : Type :=
| VUndefined
| VNull
| VBool (b : bool)
| VNum (n : Z)
| VStr (s : string)
| VArr (xs : list Value)
| VObj (fields : list (string * Value)).

Definition Obj := list (string * Value).

(** [o[k]] as an own property, in insertion order. *)
Fixpoint lookupProp (o : Obj) (k : string) : option Value :=
  match o with
  | [] => None
  | (k', v) :: o' => if String.eqb k' k then Some v else lookupProp o' k
  end.

Definition getProp (o : Obj) (k : string) : Value :=
  match lookupProp o k with
  | Some v => v
  | None => VUndefined
  end.

(** [k in o]. *)
Definition hasProp (o : Obj) (k : string) : bool :=
  match lookupProp o k with
  | Some _ => true
  | None => false
  end.

(** [o[k] = v]: an existing key keeps its position, a new key goes last. *)
Fixpoint setProp (o : Obj) (k : string) (v : Value) : Obj :=
  match o with
  | [] => [(k, v)]
  | (k', v') :: o' =>
      if String.eqb k' k then (k, v) :: o' else (k', v') :: setProp o' k v
  end.

(** [delete o[k]]. *)
Fixpoint deleteProp (o : Obj) (k : string) : Obj :=
  match o with
  | [] => []
  | (k', v') :: o' =>
      if String.eqb k' k then deleteProp o' k else (k', v') :: deleteProp o' k
  end.

(** [{ ...a, ...b }]. *)
Definition spread (a b : Obj) : Obj :=
  fold_left (fun acc kv => setProp acc (fst kv) (snd kv)) b a.

(** [v.k] on a value that is neither [null] nor [undefined]. *)
Definition member (v : Value) (k : string) : Value :=
  match v with
  | VObj o => getProp o k
  | _ => VUndefined
  end.

(** [Array.isArray(v)], with the elements. *)
Definition asArray (v : Value) : option (list Value) :=
  match v with
  | VArr xs => Some xs
  | _ => None
  end.

(** [s.split(sep)] for a one-character separator. *)
Fixpoint split (sep : ascii) (s : string) : list string :=
  match s with
  | EmptyString => [EmptyString]
  | String c s' =>
      if Ascii.eqb c sep then EmptyString :: split sep s'
      else match split sep s' with
           | seg :: segs => String c seg :: segs
           | [] => [String c EmptyString]
           end
  end.

(** [l.join(sep)]. *)
Fixpoint join (sep : string) (l : list string) : string :=
  match l with
  | [] => EmptyString
  | [x] => x
  | x :: rest => x ++ sep ++ join sep rest
  end.

(** [s.includes(c)] for a one-character needle. *)
Fixpoint includesChar (c : ascii) (s : string) : bool :=
  match s with
  | EmptyString => false
  | String c' s' => Ascii.eqb c' c || includesChar c s'
  end.

(** [s.endsWith(c)] for a one-character suffix. *)
Fixpoint endsWithChar (c : ascii) (s : string) : bool :=
  match s with
  | EmptyString => false
  | String c' EmptyString => Ascii.eqb c' c
  | String _ s' => endsWithChar c s'
  end.

Definition nonEmpty (s : string) : bool :=
  match s with
  | EmptyString => false
  | _ => true
  end.

Definition inStrings (s : string) (l : list string) : bool :=
  existsb (String.eqb s) l.

End Js.
Import Js.

(** ** The model descriptor consulted by the adapter *)

Definition Ref := string.
Definition Domain := string.

Definition core_class_Doc : Ref := "core:class:Doc".
Definition DOMAIN_MODEL : Domain := "model".

Inductive AttrType : Type :=
| TypeDate
| EnumOf (enum : Ref)
| TypeOther.

Record Attribute : Type := {
  attributeOf : Ref;
  attrType : AttrType
}.

(** [Hierarchy] is imported from the core package; the adapter only calls
    these methods.  [findAttribute] answers [None] for [undefined] (and
    for the exception that [checkMixinKey] swallows). *)
Record Hierarchy : Type := {
  getBaseClass : Ref -> Ref;
  getDescendants : Ref -> list Ref;
  isMixin : Ref -> bool;
  findAttribute : Ref -> string -> option Attribute;
  getDomain : Ref -> Domain;
  findDomain : Ref -> option Domain
}.

(** ** Transactions, documents and backend operations *)

Record TxCUD : Type := {
  objectId : Ref;
  objectClass : Ref;
  objectSpace : Ref;
  modifiedBy : Value;
  modifiedOn : Value
}.

Inductive Tx : Type :=
| TxCreateDoc (cud : TxCUD) (attributes : Obj)
| TxCollectionCUD (cud : TxCUD) (collection : string) (tx : Tx)
| TxUpdateDoc (cud : TxCUD) (operations : Obj) (retrieve : bool)
| TxRemoveDoc (cud : TxCUD)
| TxMixin (cud : TxCUD) (mixin : Ref) (attributes : Obj)
| TxApplyIf
| TxOther (_class : Ref).

Inductive BulkOp : Type :=
| UpdateOne (filter : Obj) (upd : Obj)
| DeleteOne (filter : Obj).

(** A closure pushed on [bulk.raw]: the [findOneAndUpdate] it will run. *)
Inductive RawOp : Type :=
| FindOneAndUpdate (domain : Domain) (filter : Obj) (upd : Obj).

Record OperationBulk : Type := {
  add : list Obj;
  update : list (Ref * Obj);
  bulkOperations : list BulkOp;
  findUpdate : list Ref;
  raw : list RawOp
}.

(** The calls made on the collection of one domain.  [ordered] is the
    option of that name which the call passes, [None] when it passes no
    options. *)
Inductive Call : Type :=
| InsertMany (docs : list Obj) (ordered : option bool)
| BulkWrite (ops : list BulkOp) (ordered : option bool)
| FindByIds (ids : list Ref)
| RunRaw (op : RawOp).

Definition translateDoc (doc : Obj) : Obj := setProp doc "%hash%" VNull.

Definition startsWithDollar (k : string) : bool :=
  match k with
  | String c _ => Ascii.eqb c "$"
  | EmptyString => false
  end.

(** [Object.entries(v)]: [None] when it throws ([null], [undefined]);
    strings and arrays are not deltas of the declared shape and are
    [None] as well. *)
Definition entriesOf (v : Value) : option Obj :=
  match v with
  | VObj o => Some o
  | VBool _ | VNum _ => Some []
  | _ => None
  end.

(** [Object.fromEntries(entries.map(([k, v]) => [prefix + k, v]))]. *)
Definition prefixEntries (prefix : string) (entries : Obj) : Obj :=
  spread [] (map (fun kv => (prefix ++ fst kv, snd kv)) entries).

(** [map.set(id, v)] on an insertion-ordered [Map]. *)
Fixpoint mapSet {V : Type} (m : list (Ref * V)) (id : Ref) (v : V) : list (Ref * V) :=
  match m with
  | [] => [(id, v)]
  | (id', v') :: m' =>
      if String.eqb id' id then (id, v) :: m' else (id', v') :: mapSet m' id v
  end.

Fixpoint mapGet {V : Type} (m : list (Ref * V)) (id : Ref) : option V :=
  match m with
  | [] => None
  | (id', v') :: m' => if String.eqb id' id then Some v' else mapGet m' id
  end.

(** [set.add(id)] on an insertion-ordered [Set]. *)
Definition setAdd (s : list Ref) (id : Ref) : list Ref :=
  if inStrings id s then s else (s ++ [id])%list.

(** A stored document: its identifier, the [%hash%] metadata field
    (missing, [null] or a string) and its other fields. *)
Inductive HashField : Type :=
| HMissing
| HNull
| HStr (s : string).

Record Doc : Type := {
  _id : Ref;
  hash : HashField;
  fields : Obj
}.

(** A JavaScript number that is an integer, or [NaN]. *)
Inductive JsNumber : Type :=
| Num (z : Z)
| NaN.

(** *** Strings of the hash metadata *)

Definition hexDigit (d : N) : ascii :=
  match d with
  | 0%N => "0" | 1%N => "1" | 2%N => "2" | 3%N => "3"
  | 4%N => "4" | 5%N => "5" | 6%N => "6" | 7%N => "7"
  | 8%N => "8" | 9%N => "9" | 10%N => "a" | 11%N => "b"
  | 12%N => "c" | 13%N => "d" | 14%N => "e" | _ => "f"
  end%char.

Fixpoint toHexDigits (fuel : nat) (n : N) (acc : string) : string :=
  match fuel with
  | O => acc
  | S fuel' =>
      let acc' := String (hexDigit (n mod 16)) acc in
      if (n / 16 =? 0)%N then acc' else toHexDigits fuel' (n / 16) acc'
  end.

(** [n.toString(16)] for a non-negative integer. *)
Definition toString16 (n : N) : string :=
  toHexDigits (S (N.to_nat (N.log2 n))) n EmptyString.

Definition hexValue (c : ascii) : option N :=
  let n := N_of_ascii c in
  if (48 <=? n)%N && (n <=? 57)%N then Some (n - 48)%N
  else if (97 <=? n)%N && (n <=? 102)%N then Some (n - 87)%N
  else if (65 <=? n)%N && (n <=? 70)%N then Some (n - 55)%N
  else None.

(** The longest prefix of hexadecimal digits, [None] when it is empty. *)
Fixpoint parseDigits (s : string) (acc : option N) : option N :=
  match s with
  | EmptyString => acc
  | String c s' =>
      match hexValue c with
      | Some d =>
          parseDigits s' (Some (16 * match acc with
                                     | Some a => a
                                     | None => 0
                                     end + d)%N)
      | None => acc
      end
  end.

Definition isBlank (c : ascii) : bool :=
  let n := N_of_ascii c in
  ((n =? 32) || ((9 <=? n) && (n <=? 13)))%N.

Fixpoint trimStart (s : string) : string :=
  match s with
  | String c s' => if isBlank c then trimStart s' else s
  | EmptyString => s
  end.

Definition stripPrefix0x (s : string) : string :=
  match s with
  | String c1 (String c2 s') =>
      if Ascii.eqb c1 "0" && (Ascii.eqb c2 "x" || Ascii.eqb c2 "X") then s' else s
  | _ => s
  end.

(** [parseInt(s, 16)]: leading blanks, a sign, an optional [0x], then
    digits up to the first character that is not one. *)
Definition parseInt16 (s : string) : JsNumber :=
  let s := trimStart s in
  let '(negative, s) :=
    match s with
    | String c s' =>
        if Ascii.eqb c "-" then (true, s')
        else if Ascii.eqb c "+" then (false, s')
        else (false, s)
    | EmptyString => (false, s)
    end in
  match parseDigits (stripPrefix0x s) None with
  | Some n => Num (if negative then - Z.of_N n else Z.of_N n)
  | None => NaN
  end.

(** [s.indexOf(c)], [None] for [-1]. *)
Fixpoint indexOf (c : ascii) (s : string) : option nat :=
  match s with
  | EmptyString => None
  | String c' s' =>
      if Ascii.eqb c' c then Some O
      else match indexOf c s' with
           | Some i => Some (S i)
           | None => None
           end
  end.

Fixpoint takeChars (n : nat) (s : string) : string :=
  match n, s with
  | S n', String c s' => String c (takeChars n' s')
  | _, _ => EmptyString
  end.

Fixpoint dropChars (n : nat) (s : string) : string :=
  match n, s with
  | S n', String _ s' => dropChars n' s'
  | _, _ => s
  end.

(** [digest.slice(0, pos)] and [digest.slice(pos + 1)] for
    [pos = digest.indexOf('|')]; with [pos = -1] these are the digest
    without its last character and the whole digest. *)
Definition hashPart (digest : string) : string :=
  match indexOf "|" digest with
  | Some pos => takeChars pos digest
  | None => takeChars (String.length digest - 1) digest
  end.

Definition sizePart (digest : string) : string :=
  match indexOf "|" digest with
  | Some pos => dropChars (S pos) digest
  | None => digest
  end.

(** ** Query translation *)

Section LikeQuery.

(** [escapeLikeForRegexp] is imported from the core package. *)
Variable escapeLikeForRegexp : string -> string.

Definition likeRegex (pattern : string) : string :=
  "^" ++ join ".*" (map escapeLikeForRegexp (split "%" pattern)) ++ "$".

Definition translateLikeQuery (pattern : string) : Value :=
  VObj [("$regex", VStr (likeRegex pattern)); ("$options", VStr "i")].

End LikeQuery.

Module MongoAdapterBase.

Section Translate.

Variable hierarchy : Hierarchy.
Variable escapeLikeForRegexp : string -> string.

Definition checkMixinKey (key : string) (clazz : Ref) : string :=
  if includesChar "." key then key
  else match findAttribute hierarchy clazz key with
       | Some attr =>
           if isMixin hierarchy (attributeOf attr)
           then attributeOf attr ++ "." ++ key
           else key
       | None => key
       end.

(** The loop of [translateKey] over [arr]; [first] is [i = 0], and the
    element after a [$lookup] marker is consumed with it ([arr[++i]],
    which reads [undefined] past the end). *)
Fixpoint translateKeyLoop (clazz : Ref) (first : bool) (arr : list string)
    (tKey : string) : string :=
  match arr with
  | [] => tKey
  | element :: rest =>
      if String.eqb element "$lookup" then
        match rest with
        | [] => checkMixinKey (tKey ++ "undefined" ++ "_lookup") clazz
        | next :: rest' =>
            translateKeyLoop clazz false rest'
              (checkMixinKey (tKey ++ next ++ "_lookup") clazz)
        end
      else
        let t1 := if negb (endsWithChar "." tKey) && negb first
                  then tKey ++ "." else tKey in
        let t2 := t1 ++ element in
        let t3 := match rest with
                  | [] => t2
                  | _ => t2 ++ "."
                  end in
        translateKeyLoop clazz false rest (checkMixinKey t3 clazz)
  end.

Definition translateKey (key : string) (clazz : Ref) : string :=
  translateKeyLoop clazz true (filter nonEmpty (split "." key)) "".

(** The value stored for one query entry: a [$like] object (first key) is
    replaced by its pattern match; a [$like] that is not a string makes
    [String.prototype.split] fail, which is [None]. *)
Definition translateValue (value : Value) : option Value :=
  match value with
  | VObj ((k, p) :: _) =>
      if String.eqb k "$like" then
        match p with
        | VStr pattern => Some (translateLikeQuery escapeLikeForRegexp pattern)
        | _ => None
        end
      else Some value
  | _ => Some value
  end.

(** The [for (const key in query)] loop of [translateQuery]. *)
Fixpoint translateFields (clazz : Ref) (query : Obj) (translated : Obj)
    : option Obj :=
  match query with
  | [] => Some translated
  | (key, value) :: rest =>
      match translateValue value with
      | Some v => translateFields clazz rest
                    (setProp translated (translateKey key clazz) v)
      | None => None
      end
  end.

Definition classesValue (classes : list Ref) : Value :=
  VObj [("$in", VArr (map VStr classes))].

Definition notMixin (c : Ref) : bool := negb (isMixin hierarchy c).

(** [xs.filter((c) => classesIds.has(c))]: only strings can be members. *)
Fixpoint keepClasses (classes : list Ref) (xs : list Value) : list Ref :=
  match xs with
  | [] => []
  | VStr c :: xs' =>
      if inStrings c classes then c :: keepClasses classes xs'
      else keepClasses classes xs'
  | _ :: xs' => keepClasses classes xs'
  end.

(** [excludedClassesIds.has(c)] for a class identifier [c]. *)
Fixpoint excluded (xs : list Value) (c : Ref) : bool :=
  match xs with
  | [] => false
  | VStr s :: xs' => String.eqb s c || excluded xs' c
  | _ :: xs' => excluded xs' c
  end.

(** The class constraint put on [translated] when the base class is not
    the root. *)
Definition constrainClass (classes : list Ref) (translated : Obj) : Obj :=
  match getProp translated "_class" with
  | VUndefined => setProp translated "_class" (classesValue classes)
  | VStr c =>
      if inStrings c classes then translated
      else setProp translated "_class" (classesValue (filter notMixin classes))
  | (VObj _ | VArr _) as cv =>
      let descendants :=
        match asArray (member cv "$in") with
        | Some xs => keepClasses classes xs
        | None => classes
        end in
      let descendants :=
        match asArray (member cv "$nin") with
        | Some xs => filter (fun c => negb (excluded xs c)) descendants
        | None => descendants
        end in
      setProp translated "_class" (classesValue (filter notMixin descendants))
  | _ => translated
  end.

(** [translated._class?.$in?.length === 1 && translated._class?.$nin === undefined]
    and the replacement by [$in[0]]. *)
Definition collapseClass (translated : Obj) : Obj :=
  let cv := getProp translated "_class" in
  let single :=
    match member cv "$in" with
    | VArr [x] => Some x
    | VStr (String c EmptyString) => Some (VStr (String c EmptyString))
    | _ => None
    end in
  match single, member cv "$nin" with
  | Some x, VUndefined => setProp translated "_class" x
  | _, _ => translated
  end.

Definition restrictClass (clazz : Ref) (translated : Obj) : Obj :=
  let baseClass := getBaseClass hierarchy clazz in
  let translated :=
    if negb (String.eqb baseClass core_class_Doc) then
      let classes := getDescendants hierarchy baseClass in
      let translated := constrainClass classes translated in
      if negb (String.eqb baseClass clazz)
      then setProp translated clazz (VObj [("$exists", VBool true)])
      else translated
    else
      if hasProp translated "_class" then deleteProp translated "_class"
      else translated in
  collapseClass translated.

Definition translateQuery (clazz : Ref) (query : Obj) : option Obj :=
  match translateFields clazz query [] with
  | Some translated => Some (restrictClass clazz translated)
  | None => None
  end.

End Translate.

(** *** Forward lookups: the fill phase *)

Section Lookup.

Variable hierarchy : Hierarchy.

(** [modelDb.findAll(_class, { _id: id })], from the in-memory model. *)
Variable modelFindAll : Ref -> Value -> list Value.

(** [targetObject.$lookup[key] = v].  [fillLookup] has just made
    [$lookup] an object when it was [undefined]; a [$lookup] of another
    kind ([null], a primitive) is a [TypeError], which is [None]. *)
Definition assignLookup (targetObject : Obj) (key : string) (v : Value)
    : option Obj :=
  match getProp targetObject "$lookup" with
  | VObj ns => Some (setProp targetObject "$lookup" (VObj (setProp ns key v)))
  | _ => None
  end.

Definition fillLookup (_class : Ref) (object : Obj) (key fullKey : string)
    (targetObject : Obj) : option Obj :=
  let targetObject :=
    match getProp targetObject "$lookup" with
    | VUndefined => setProp targetObject "$lookup" (VObj [])
    | _ => targetObject
    end in
  let domain := getDomain hierarchy _class in
  if negb (String.eqb domain DOMAIN_MODEL) then
    match getProp object fullKey with
    | VArr [x] => assignLookup targetObject key x
    | VArr (x :: y :: rest) => assignLookup targetObject key (VArr (x :: y :: rest))
    | _ => Some targetObject
    end
  else
    assignLookup targetObject key
      (hd VUndefined (modelFindAll _class (getProp targetObject key))).

End Lookup.

(** *** The hash iterator ([find]) *)

Section HashIterator.

(** [this.options?.calculateHash]; without it the digest is the base64
    SHA-256 of [updateHashForDoc], taken here as [sha256Base64].
    [estimateDocSize] is imported from the server core. *)
Variable calculateHash : option (Doc -> string).
Variable sha256Base64 : Doc -> string.
Variable estimateDocSize : Doc -> N.

Inductive Mode : Type :=
| Hashed
| NonHashed.

(** The collection, and the variables the closures of [find] share.
    [digests] counts the digest computations made so far. *)
Record Iter : Type := {
  coll : list Doc;
  mode : Mode;
  iterator : option (list Doc);
  bulkUpdate : list (Ref * string);
  digests : nat
}.

Record HashInfo : Type := {
  id : Ref;
  hashOf : string;
  size : JsNumber
}.

(** [{ '%hash%': { $nin: ['', null] } }]; its complement is
    [{ '%hash%': { $in: ['', null] } }], which also matches a missing field. *)
Definition hasHash (d : Doc) : bool :=
  match hash d with
  | HStr s => nonEmpty s
  | _ => false
  end.

(** [updateOne({ _id: id }, { $set: { '%hash%': v } })]. *)
Fixpoint setHash (docs : list Doc) (i : Ref) (v : HashField) : list Doc :=
  match docs with
  | [] => []
  | d :: docs' =>
      if String.eqb (_id d) i
      then {| _id := _id d; hash := v; fields := fields d |} :: docs'
      else d :: setHash docs' i v
  end.

(** [updateMany({ '%hash%': { $ne: null } }, { $set: { '%hash%': null } })]. *)
Definition resetHashes (docs : list Doc) : list Doc :=
  map (fun d => match hash d with
                | HStr _ => {| _id := _id d; hash := HNull; fields := fields d |}
                | _ => d
                end) docs.

(** The projection [{ '%hash%': 1, _id: 1 }]. *)
Definition hashOnly (d : Doc) : Doc :=
  {| _id := _id d; hash := hash d; fields := [] |}.

Definition writeHashes (docs : list Doc) (updates : list (Ref * string)) : list Doc :=
  fold_left (fun ds it => setHash ds (fst it) (HStr (snd it))) updates docs.

Definition flush (force : bool) (st : Iter) : Iter :=
  if Nat.ltb 1000 (List.length (bulkUpdate st)) || force then
    {| coll := writeHashes (coll st) (bulkUpdate st);
       mode := mode st; iterator := iterator st;
       bulkUpdate := []; digests := digests st |}
  else st.

Definition digestOf (d : Doc) : string :=
  match calculateHash with
  | Some f => f d
  | None => sha256Base64 d
  end.

(** The value returned for a fetched document, and the iterator after it. *)
Definition visit (st : Iter) (d : Doc) : Iter * HashInfo :=
  let digest := hash d in
  let d := {| _id := _id d; hash := HMissing; fields := fields d |} in
  match digest with
  | HStr (String c s) =>
      (st, {| id := _id d;
              hashOf := hashPart (String c s);
              size := parseInt16 (sizePart (String c s)) |})
  | _ =>
      let sz := estimateDocSize d in
      let dg := digestOf d in
      let st' := {| coll := coll st; mode := mode st; iterator := iterator st;
                    bulkUpdate := mapSet (bulkUpdate st) (_id d)
                                    (dg ++ "|" ++ toString16 sz);
                    digests := S (digests st) |} in
      (flush false st', {| id := _id d; hashOf := dg; size := Num (Z.of_N sz) |})
  end.

Definition withCursor (st : Iter) (m : Mode) (cursor : list Doc) : Iter :=
  {| coll := coll st; mode := m; iterator := Some cursor;
     bulkUpdate := bulkUpdate st; digests := digests st |}.

(** [next()].  A cursor is the list of the documents that matched when it
    was opened. *)
Definition next (recheck : bool) (st : Iter) : Iter * option HashInfo :=
  let st :=
    match iterator st with
    | Some _ => st
    | None =>
        let docs := if recheck then resetHashes (coll st) else coll st in
        {| coll := docs; mode := mode st;
           iterator := Some (map hashOnly (filter hasHash docs));
           bulkUpdate := bulkUpdate st; digests := digests st |}
    end in
  let cursor := match iterator st with
                | Some c => c
                | None => []
                end in
  match cursor, mode st with
  | d :: cursor', m =>
      let '(st', info) := visit (withCursor st m cursor') d in (st', Some info)
  | [], Hashed =>
      match filter (fun d => negb (hasHash d)) (coll st) with
      | d :: cursor' =>
          let '(st', info) := visit (withCursor st NonHashed cursor') d in
          (st', Some info)
      | [] => (withCursor st NonHashed [], None)
      end
  | [], NonHashed => (st, None)
  end.

(** [close()]: flush, then close the cursor. *)
Definition close (st : Iter) : Iter :=
  let st := flush true st in
  {| coll := coll st; mode := mode st; iterator := iterator st;
     bulkUpdate := bulkUpdate st; digests := digests st |}.

Definition find (docs : list Doc) : Iter :=
  {| coll := docs; mode := Hashed; iterator := None; bulkUpdate := []; digests := 0 |}.

(** A consumer: [next()] until it answers [undefined], at most [fuel]
    times, then [close()]. *)
Fixpoint drain (recheck : bool) (fuel : nat) (st : Iter)
    : option (list HashInfo * Iter) :=
  match fuel with
  | O => None
  | S fuel' =>
      match next recheck st with
      | (st', None) => Some ([], st')
      | (st', Some info) =>
          match drain recheck fuel' st' with
          | Some (infos, st'') => Some (info :: infos, st'')
          | None => None
          end
      end
  end.

(** One run over a collection: what was yielded, the collection after
    [close()], and the number of digests computed. *)
Definition iterateHashes (recheck : bool) (fuel : nat) (docs : list Doc)
    : option (list HashInfo * list Doc * nat) :=
  match drain recheck fuel (find docs) with
  | Some (infos, st) =>
      let st' := close st in Some (infos, coll st', digests st')
  | None => None
  end.

End HashIterator.

(** *** The bulk [update] and its retry *)

Section Update.

(** The collection as the backend keeps it, the errors it throws, and
    [coll.bulkWrite(ops, { ordered: false })]. *)
Variable Store : Type.
Variable Err : Type.
Variable bulkWrite : Store -> list BulkOp -> Store * option Err.

(** The [TypeError] of reading a property of a [null] [$unset]. *)
Variable typeError : Err.

(** One call of [bulkWrite] as the loop made it: the entries of the
    batch, the batch size in force, and the error caught if any. *)
Record Attempt : Type := {
  part : list (Ref * Obj);
  skip : positive;
  caught : option Err
}.

(** [for (const k of Object.keys(set)) if ($unset[k] === '') delete $unset[k]]. *)
Definition pruneUnset (unset : Obj) (set : Obj) : Obj :=
  fold_left
    (fun u kv => match getProp u (fst kv) with
                 | VStr EmptyString => deleteProp u (fst kv)
                 | _ => u
                 end)
    set unset.

(** The [updateOne] built for one entry of [operations]; [None] is the
    [TypeError] thrown inside the [try]. *)
Definition updateOneOf (it : Ref * Obj) : option BulkOp :=
  let unset := getProp (snd it) "$unset" in
  let set := deleteProp (snd it) "$unset" in
  let byId := [("_id", VStr (fst it))] in
  let setPart := ("$set", VObj (setProp set "%hash%" VNull)) in
  match unset with
  | VUndefined => Some (UpdateOne byId [setPart])
  | VNull =>
      match set with
      | [] => Some (UpdateOne byId [setPart; ("$unset", VNull)])
      | _ => None
      end
  | VObj u => Some (UpdateOne byId [setPart; ("$unset", VObj (pruneUnset u set))])
  | other => Some (UpdateOne byId [setPart; ("$unset", other)])
  end.

Fixpoint updateOnes (batch : list (Ref * Obj)) : option (list BulkOp) :=
  match batch with
  | [] => Some []
  | it :: rest =>
      match updateOneOf it, updateOnes rest with
      | Some op, Some ops => Some (op :: ops)
      | _, _ => None
      end
  end.

(** The body of the [try]. *)
Definition tryBulkWrite (st : Store) (batch : list (Ref * Obj)) : Store * option Err :=
  match updateOnes batch with
  | Some ops => bulkWrite st ops
  | None => (st, Some typeError)
  end.

Definition inspect {A : Type} (a : A) : { b : A | a = b } := exist _ a eq_refl.

Definition loopMeasure (sk : positive) (ops : list (Ref * Obj)) : nat :=
  2 * length ops + (if Pos.eqb sk 1 then 0 else 1).

(** [while (ops.length > 0)] with [part = ops.splice(0, skip)]. *)
Equations? updateLoop (sk : positive) (ops : list (Ref * Obj)) (st : Store)
    (trace : list Attempt) : Store * list Attempt
    by wf (loopMeasure sk ops) lt :=
updateLoop sk [] st trace := (st, trace);
updateLoop sk (op :: ops') st trace
    with inspect (tryBulkWrite st (firstn (Pos.to_nat sk) (op :: ops'))) := {
  | exist _ (st', None) _ :=
      updateLoop sk (skipn (Pos.to_nat sk) (op :: ops')) st'
        (trace ++ [{| part := firstn (Pos.to_nat sk) (op :: ops');
                      skip := sk; caught := None |}])%list;
  | exist _ (st', Some err) _ with inspect (Pos.eqb sk 1) := {
    | exist _ true _ :=
        updateLoop sk (skipn (Pos.to_nat sk) (op :: ops')) st'
          (trace ++ [{| part := firstn (Pos.to_nat sk) (op :: ops');
                        skip := sk; caught := Some err |}])%list;
    | exist _ false _ :=
        updateLoop 1 (skipn (Pos.to_nat sk) (op :: ops')
                        ++ firstn (Pos.to_nat sk) (op :: ops'))%list st'
          (trace ++ [{| part := firstn (Pos.to_nat sk) (op :: ops');
                        skip := sk; caught := Some err |}])%list } }.
Proof.
  all: unfold loopMeasure;
    rewrite ?length_app, ?length_skipn, ?length_firstn; cbn [List.length];
    pose proof (Pos2Nat.is_pos sk);
    destruct sk; try discriminate; cbn [Pos.eqb]; lia.
Qed.

(** [update(ctx, domain, operations)]: the collection afterwards and the
    calls made. *)
Definition update (operations : list (Ref * Obj)) (st : Store) : Store * list Attempt :=
  updateLoop 500 operations st [].

(** What [ctx.error('failed on bulk write', { error: err, skip })] was
    given, call by call. *)
Definition errorLog (trace : list Attempt) : list (Err * positive) :=
  flat_map (fun a => match caught a with
                     | Some e => [(e, skip a)]
                     | None => []
                     end) trace.

End Update.

End MongoAdapterBase.

(** ** Sort planning for date attributes *)

Inductive SortingOrder : Type :=
| Ascending
| Descending.

(** Aggregation expressions, as far as the date planner builds them:
    [EIsNull key] is [{ $eq: ['$key', null] }], [EIsMissing key] is
    [{ $eq: [{ $type: '$key' }, 'missing'] }], [EOr] is [{ $or: [...] }]. *)
Inductive Expr : Type :=
| EIsNull (path : string)
| EIsMissing (path : string)
| EOr (es : list Expr).

Inductive Stage : Type :=
| AddFields (field : string) (e : Expr)
| SortBy (spec : Obj).

Definition SortingQuery := list (string * SortingOrder).

Fixpoint sortOrder (sort : SortingQuery) (_key : string) : option SortingOrder :=
  match sort with
  | [] => None
  | (k, o) :: rest => if String.eqb k _key then Some o else sortOrder rest _key
  end.

(** [options.sort[_key] === SortingOrder.Ascending ? 1 : -1]. *)
Definition direction (sort : SortingQuery) (_key : string) : Value :=
  match sortOrder sort _key with
  | Some Ascending => VNum 1
  | _ => VNum (-1)
  end.

(** [fillDateSort(key, pipeline, sort, options, _key)]: the pipeline, the
    sort object and [options.sort] after the call. *)
Definition fillDateSort (key : string) (pipeline : list Stage) (sort : Obj)
    (optionsSort : option SortingQuery) (_key : string)
    : list Stage * Obj * option SortingQuery :=
  let optionsSort' := match optionsSort with
                      | Some s => s
                      | None => []
                      end in
  let pipeline' :=
    (pipeline ++
    [AddFields ("sort_isNull_" ++ key)
       (EOr [EIsNull key; EIsMissing key])])%list in
  let sort1 := setProp sort ("sort_isNull_" ++ key) (direction optionsSort' _key) in
  let sort2 := setProp sort1 key (direction optionsSort' _key) in
  (pipeline', sort2, Some optionsSort').

(** *** The backend's reading of the planned stages

    A field path is read as one key of the document.  [$sort] compares
    documents key by key in the order of the sort object; within one key
    a missing or null value comes first, booleans order as false < true. *)

Fixpoint evalExpr (doc : Obj) (e : Expr) : bool :=
  match e with
  | EIsNull p => match lookupProp doc p with
                 | Some VNull => true
                 | _ => false
                 end
  | EIsMissing p => match lookupProp doc p with
                    | None => true
                    | Some _ => false
                    end
  | EOr es =>
      (fix any (l : list Expr) : bool :=
         match l with
         | [] => false
         | e' :: l' => evalExpr doc e' || any l'
         end) es
  end.

Definition runAddFields (pipeline : list Stage) (doc : Obj) : Obj :=
  fold_left
    (fun d st => match st with
                 | AddFields f e => setProp d f (VBool (evalExpr d e))
                 | SortBy _ => d
                 end)
    pipeline doc.

Definition bsonRank (v : option Value) : nat :=
  match v with
  | None | Some VUndefined | Some VNull => 0
  | Some (VNum _) => 1
  | Some (VStr _) => 2
  | Some (VObj _) => 3
  | Some (VArr _) => 4
  | Some (VBool _) => 5
  end.

Definition compareValues (a b : option Value) : comparison :=
  match Nat.compare (bsonRank a) (bsonRank b) with
  | Eq =>
      match a, b with
      | Some (VBool x), Some (VBool y) => Bool.compare x y
      | Some (VNum x), Some (VNum y) => Z.compare x y
      | Some (VStr x), Some (VStr y) => String.compare x y
      | _, _ => Eq
      end
  | c => c
  end.

(** [Lt]: the first document is placed before the second. *)
Fixpoint sortCompare (spec : Obj) (a b : Obj) : comparison :=
  match spec with
  | [] => Eq
  | (k, dir) :: rest =>
      match compareValues (lookupProp a k) (lookupProp b k) with
      | Eq => sortCompare rest a b
      | c => match dir with
             | VNum 1 => c
             | _ => CompOpp c
             end
      end
  end.

(** ** The transaction bulk compiler *)

Module MongoAdapter.

Section Compiler.

Variable hierarchy : Hierarchy.

(** Imported from the core package: [isOperator], [TxProcessor.createDoc2Doc],
    [TxProcessor.isExtendsCUD] (read on the transaction) and [groupByArray]. *)
Variable isOperator : Obj -> bool.
Variable createDoc2Doc : TxCUD -> Obj -> Obj.
Variable isExtendsCUD : Tx -> bool.
Variable groupByArray :
  list Tx -> (Tx -> option Domain) -> list (option Domain * list Tx).

Definition pushBulk (bulk : OperationBulk) (ops : list BulkOp) : OperationBulk :=
  {| add := add bulk; update := update bulk;
     bulkOperations := (bulkOperations bulk ++ ops)%list;
     findUpdate := findUpdate bulk; raw := raw bulk |}.

(** The merge into [bulk.update] shared by flat updates and flat mixins:
    [upd = bulk.update.get(id) ?? {}] and [upd[k] = v] for each entry. *)
Definition mergeUpdate (bulk : OperationBulk) (id : Ref) (entries : Obj)
    : OperationBulk :=
  let upd := match mapGet (update bulk) id with
             | Some u => u
             | None => []
             end in
  {| add := add bulk; update := mapSet (update bulk) id (spread upd entries);
     bulkOperations := bulkOperations bulk;
     findUpdate := findUpdate bulk; raw := raw bulk |}.

Definition txCreateDoc (bulk : OperationBulk) (cud : TxCUD) (attributes : Obj)
    : OperationBulk :=
  let doc := createDoc2Doc cud attributes in
  {| add := (add bulk ++ [translateDoc doc])%list; update := update bulk;
     bulkOperations := bulkOperations bulk;
     findUpdate := findUpdate bulk; raw := raw bulk |}.

Definition txRemoveDoc (bulk : OperationBulk) (cud : TxCUD) : OperationBulk :=
  pushBulk bulk [DeleteOne [("_id", VStr (objectId cud))]].

(** [None] stands for the [TypeError] of [Object.entries] on [null] or
    [undefined]; a number or a boolean has no entries; a string or an
    array is no delta of the declared type and is [None] as well. *)
Fixpoint translateMixinAttrs (mixin : Ref) (attributes : Value) {struct attributes}
    : option Obj :=
  match attributes with
  | VObj fields =>
      let fix entries (fs : list (string * Value)) (attrs : Obj) : option Obj :=
        match fs with
        | [] => Some attrs
        | (k, v) :: fs' =>
            if startsWithDollar k then
              match translateMixinAttrs mixin v with
              | Some nested => entries fs' (setProp attrs k (VObj nested))
              | None => None
              end
            else entries fs' (setProp attrs (mixin ++ "." ++ k) v)
        end in
      match entries fields [] with
      | Some attrs =>
          Some match fields with
               | [] => setProp attrs (mixin ++ "." ++ "__mixin") (VStr "true")
               | _ => attrs
               end
      | None => None
      end
  | VBool _ | VNum _ => Some [(mixin ++ "." ++ "__mixin", VStr "true")]
  | _ => None
  end.

(** [None] stands for a [TypeError]: reading [$value] of a [desc] that is
    [undefined] or [null] (which is what [keyval[arr]] gives unless the
    key of [keyval] is already qualified by the mixin), or
    [Object.keys] of a [$move] that is no object. *)
Definition txMixin (bulk : OperationBulk) (cud : TxCUD) (mixin : Ref)
    (attributes : Obj) : option OperationBulk :=
  let filter := [("_id", VStr (objectId cud))] in
  let modifyOp := [("modifiedBy", modifiedBy cud); ("modifiedOn", modifiedOn cud)] in
  if isOperator attributes then
    let moved :=
      match attributes with
      | (operator, keyval) :: _ =>
          if String.eqb operator "$move" then Some keyval else None
      | [] => None
      end in
    match moved with
    | Some keyval =>
        match keyval with
        | VObj ((k0, _) :: _ as kv) =>
            let arr := mixin ++ "." ++ k0 in
            match getProp kv arr with
            | VUndefined | VNull => None
            | desc =>
                Some (pushBulk bulk
                  [UpdateOne filter
                     [("$pull", VObj [(arr, member desc "$value")])];
                   UpdateOne filter
                     [("$set", VObj modifyOp);
                      ("$push", VObj [(arr,
                          VObj [("$each", VArr [member desc "$value"]);
                                ("$position", member desc "$position")])])]])
            end
        | _ => None
        end
    | None =>
        match translateMixinAttrs mixin (VObj attributes) with
        | Some attrs =>
            Some (pushBulk bulk
                    [UpdateOne filter (setProp attrs "$set" (VObj modifyOp))])
        | None => None
        end
    end
  else
    match translateMixinAttrs mixin (VObj attributes) with
    | Some attrs => Some (mergeUpdate bulk (objectId cud) (spread attrs modifyOp))
    | None => None
    end.

(** [None] stands for a [TypeError] ([$move] or [$update] without a
    first key, a [desc] that is [undefined] or [null], [Object.entries]
    of a missing [$query] or [$update]); an operator value that is a
    string or an array is no delta of the declared type and is [None] as
    well. *)
Definition txUpdateDoc (bulk : OperationBulk) (cud : TxCUD) (operations : Obj)
    (retrieve : bool) : option OperationBulk :=
  let byId := [("_id", VStr (objectId cud))] in
  let touched := [("modifiedBy", modifiedBy cud); ("modifiedOn", modifiedOn cud);
                  ("%hash%", VNull)] in
  if isOperator operations then
    let operator := match operations with
                    | (k, _) :: _ => k
                    | [] => EmptyString
                    end in
    if String.eqb operator "$move" then
      match getProp operations "$move" with
      | VObj ((arr, desc) :: _) =>
          match desc with
          | VUndefined | VNull => None
          | _ =>
              Some (pushBulk bulk
                [UpdateOne byId
                   [("$set", VObj [("%hash%", VNull)]);
                    ("$pull", VObj [(arr, member desc "$value")])];
                 UpdateOne byId
                   [("$set", VObj touched);
                    ("$push", VObj [(arr,
                        VObj [("$each", VArr [member desc "$value"]);
                              ("$position", member desc "$position")])])]])
          end
      | _ => None
      end
    else if String.eqb operator "$update" then
      match getProp operations "$update" with
      | VObj ((arr, desc) :: _) =>
          match desc with
          | VUndefined | VNull => None
          | _ =>
              match entriesOf (member desc "$query"), entriesOf (member desc "$update") with
              | Some q, Some u =>
                  Some (pushBulk bulk
                    [UpdateOne
                       (spread byId (prefixEntries (arr ++ ".") q))
                       [("$set", VObj (setProp (prefixEntries (arr ++ ".$.") u)
                                         "%hash%" VNull))];
                     UpdateOne byId [("$set", VObj touched)]])
              | _, _ => None
              end
          end
      | _ => None
      end
    else
      let domain := getDomain hierarchy (objectClass cud) in
      let upd := setProp operations "$set" (VObj touched) in
      if retrieve then
        Some {| add := add bulk; update := update bulk;
                bulkOperations := bulkOperations bulk;
                findUpdate := findUpdate bulk;
                raw := (raw bulk ++ [FindOneAndUpdate domain byId upd])%list |}
      else Some (pushBulk bulk [UpdateOne byId upd])
  else
    let merged := mergeUpdate bulk (objectId cud) (spread operations touched) in
    Some (if retrieve
          then {| add := add merged; update := update merged;
                  bulkOperations := bulkOperations merged;
                  findUpdate := setAdd (findUpdate merged) (objectId cud);
                  raw := raw merged |}
          else merged).

Fixpoint updateBulk (bulk : OperationBulk) (tx : Tx) : option OperationBulk :=
  match tx with
  | TxCreateDoc cud attributes => Some (txCreateDoc bulk cud attributes)
  | TxCollectionCUD cud collection inner =>
      match inner with
      | TxCreateDoc createCud attributes =>
          Some (txCreateDoc bulk createCud
                  (spread attributes
                     [("attachedTo", VStr (objectId cud));
                      ("attachedToClass", VStr (objectClass cud));
                      ("collection", VStr collection)]))
      | _ => updateBulk bulk inner
      end
  | TxUpdateDoc cud operations retrieve => txUpdateDoc bulk cud operations retrieve
  | TxRemoveDoc cud => Some (txRemoveDoc bulk cud)
  | TxMixin cud mixin attributes => txMixin bulk cud mixin attributes
  | TxApplyIf => Some bulk
  | TxOther _ => Some bulk
  end.

Definition emptyBulk : OperationBulk :=
  {| add := []; update := []; bulkOperations := []; findUpdate := []; raw := [] |}.

(** [for (const t of txs) this.updateBulk(domainBulk, t)]. *)
Fixpoint updateBulkAll (bulk : OperationBulk) (txs : list Tx) : option OperationBulk :=
  match txs with
  | [] => Some bulk
  | t :: rest =>
      match updateBulk bulk t with
      | Some bulk' => updateBulkAll bulk' rest
      | None => None
      end
  end.

Definition isEmptyBulk (b : OperationBulk) : bool :=
  match add b, update b, bulkOperations b, findUpdate b, raw b with
  | [], [], [], [], [] => true
  | _, _, _, _, _ => false
  end.

Definition whenNonEmpty {A : Type} (l : list A) (c : Call) : list Call :=
  match l with
  | [] => []
  | _ => [c]
  end.

(** The body of the closure passed to [collectOps] for one domain. *)
Definition applyBulk (domainBulk : OperationBulk) : list Call :=
  (whenNonEmpty (add domainBulk) (InsertMany (add domainBulk) (Some false))
   ++ whenNonEmpty (update domainBulk)
        (BulkWrite (map (fun it => UpdateOne [("_id", VStr (fst it))]
                                      [("$set", VObj (snd it))])
                        (update domainBulk))
           (Some false))
   ++ whenNonEmpty (bulkOperations domainBulk)
        (BulkWrite (bulkOperations domainBulk) (Some false))
   ++ whenNonEmpty (findUpdate domainBulk) (FindByIds (findUpdate domainBulk))
   ++ map RunRaw (raw domainBulk))%list.

Definition txDomain (it : Tx) : option Domain :=
  if isExtendsCUD it then
    match it with
    | TxCreateDoc cud _ | TxCollectionCUD cud _ _ | TxUpdateDoc cud _ _
    | TxRemoveDoc cud | TxMixin cud _ _ => findDomain hierarchy (objectClass cud)
    | _ => None
    end
  else None.

Fixpoint txDomains (groups : list (option Domain * list Tx))
    : option (list (Domain * list Call)) :=
  match groups with
  | [] => Some []
  | (None, _) :: rest => txDomains rest
  | (Some domain, txs) :: rest =>
      match updateBulkAll emptyBulk txs with
      | None => None
      | Some domainBulk =>
          match txDomains rest with
          | None => None
          | Some calls =>
              if isEmptyBulk domainBulk then Some calls
              else Some ((domain, applyBulk domainBulk) :: calls)
          end
      end
  end.

(** [tx(ctx, ...txes)]: per domain, the calls made on its collection, in
    the order in which the closure of that domain awaits them.  [None]:
    compiling some group threw, and [tx] rejects. *)
Definition tx (txes : list Tx) : option (list (Domain * list Call)) :=
  txDomains (groupByArray txes txDomain).

End Compiler.

End MongoAdapter.

(** ** Reading documents back, and storing them whole *)

(** [stripHash(docs)]: [delete it['%hash%']] on every document that has
    the key. *)
Definition stripHash (docs : list Obj) : list Obj :=
  map (fun it => if hasProp it "%hash%" then deleteProp it "%hash%" else it) docs.

Section Load.

(** [find({ _id: { $in: docs } }, { limit })] on the collection of the
    domain, read with [toArray]. *)
Variable findIn : list Ref -> nat -> list Obj.

(** [load(ctx, domain, docs)]. *)
Definition load (docs : list Ref) : list Obj :=
  match docs with
  | [] => []
  | _ => stripHash (findIn docs (List.length docs))
  end.

End Load.

(** [{ replaceOne: { filter: { _id }, replacement, upsert } }]. *)
Record ReplaceOne : Type := {
  filterId : Ref;
  replacement : Doc;
  upsert : bool
}.

Section Upload.

(** [calculateObjectSize] of the bson package, and
    [coll.bulkWrite(ops)] on the collection, which may throw. *)
Variable calculateObjectSize : Doc -> N.
Variable Store : Type.
Variable Err : Type.
Variable bulkReplace : Store -> list ReplaceOne -> Store * option Err.

(** The operation built for one document: the digest is read, the key is
    deleted, the size is taken of what is left. *)
Definition replaceOneOf (it : Doc) : ReplaceOne :=
  let digest := hash it in
  let it := {| _id := _id it; hash := HMissing; fields := fields it |} in
  let size := calculateObjectSize it in
  {| filterId := _id it;
     replacement :=
       {| _id := _id it;
          hash := match digest with
                  | HStr s => HStr (s ++ "|" ++ toString16 size)
                  | _ => HNull
                  end;
          fields := fields it |};
     upsert := true |}.

(** [while (ops.length > 0)] with [part = ops.splice(0, size)]: the
    collection afterwards, the calls of [bulkWrite] made, and the error
    thrown if one was. *)
Equations? uploadLoop (size : positive) (ops : list Doc) (st : Store)
    (calls : list (list ReplaceOne))
    : Store * list (list ReplaceOne) * option Err
    by wf (List.length ops) lt :=
uploadLoop size [] st calls := (st, calls, None);
uploadLoop size (op :: ops') st calls
    with MongoAdapterBase.inspect
           (bulkReplace st (map replaceOneOf (firstn (Pos.to_nat size) (op :: ops')))) := {
  | exist _ (st', None) _ :=
      uploadLoop size (skipn (Pos.to_nat size) (op :: ops')) st'
        (calls ++ [map replaceOneOf (firstn (Pos.to_nat size) (op :: ops'))])%list;
  | exist _ (st', Some err) _ :=
      (st', (calls ++ [map replaceOneOf (firstn (Pos.to_nat size) (op :: ops'))])%list,
       Some err) }.
Proof.
  rewrite length_skipn. cbn [List.length].
  pose proof (Pos2Nat.is_pos size). lia.
Qed.

(** [uploadDocuments(ctx, docs, coll)]. *)
Definition uploadDocuments (docs : list Doc) (st : Store)
    : Store * list (list ReplaceOne) * option Err :=
  uploadLoop 500 docs st [].

End Upload.

(** ** The transaction adapter *)

Module MongoTxAdapter.

(** [tx(ctx, ...tx)]: the calls made on the transaction collection. *)
Definition tx (txs : list Obj) : list Call :=
  match txs with
  | [] => []
  | _ => [InsertMany (map translateDoc txs) None]
  end.

Section GetModel.

(** Identifiers of the core package. *)
Variable core_class_TxCreateDoc : Ref.
Variable core_class_TxUpdateDoc : Ref.
Variable core_class_TxRemoveDoc : Ref.
Variable core_account_System : Ref.

(** [v === s] for a string [s]. *)
Definition isString (v : Value) (s : string) : bool :=
  match v with
  | VStr x => String.eqb x s
  | _ => false
  end.

Definition isPersonAccount (tx : Obj) : bool :=
  (isString (getProp tx "_class") core_class_TxCreateDoc
   || isString (getProp tx "_class") core_class_TxUpdateDoc
   || isString (getProp tx "_class") core_class_TxRemoveDoc)
  && (isString (getProp tx "objectClass") "contact:class:PersonAccount"
      || isString (getProp tx "objectClass") "contact:class:EmployeeAccount").

(** [getModel(ctx)] on the transactions [model] that the cursor gives:
    each goes to [systemTx] or to [userTx], and the two are joined. *)
Definition getModel (model : list Obj) : list Obj :=
  let split :=
    fold_left
      (fun acc tx =>
         if isString (getProp tx "modifiedBy") core_account_System
            && negb (isPersonAccount tx)
         then ((fst acc ++ [tx])%list, snd acc)
         else (fst acc, (snd acc ++ [tx])%list))
      model ([], []) in
  (fst split ++ snd split)%list.

End GetModel.

End MongoTxAdapter.

(** ** Lookups: the joins planned, and the fill of the reverse lookups *)

(** [s.endsWith(suffix)]. *)
Fixpoint endsWith (suffix s : string) : bool :=
  if String.eqb s suffix then true
  else match s with
       | EmptyString => false
       | String _ s' => endsWith suffix s'
       end.

(** [s.split('.').join('')]. *)
Definition stripDots (s : string) : string := join "" (split "." s).

(** A lookup as the core package types it.  Under an attribute key: a
    class, or a class with a nested lookup.  Under the key [_id]: the
    reverse lookups, each a class or a class with the attribute that
    refers back.  The items are the keys of the lookup in their order; the
    key [_id] is the [Reverse] item and no other. *)
Inductive ReverseTarget : Type :=
| ReverseTo (_class : Ref)
| ReverseBy (_class : Ref) (attr : string).

Inductive LookupItem : Type :=
| Forward (key : string) (_class : Ref)
| Nested (key : string) (_class : Ref) (nested : list LookupItem)
| Reverse (lid : list (string * ReverseTarget)).

Definition Lookup := list LookupItem.

(** The stages of the [pipeline] of a lookup step:
    [{ $match: { _class: { $in: desc } } }] and [{ $project: { '%hash%': 0 } }]. *)
Inductive StepStage : Type :=
| MatchClasses (desc : list Ref)
| ProjectOutHash.

Record LookupStep : Type := {
  from : Domain;
  localField : string;
  foreignField : string;
  as_ : string;
  pipeline : list StepStage
}.

Definition reverseClass (value : ReverseTarget) : Ref :=
  match value with
  | ReverseTo c | ReverseBy c _ => c
  end.

Definition reverseAttr (value : ReverseTarget) : string :=
  match value with
  | ReverseTo _ => "attachedTo"
  | ReverseBy _ attr => attr
  end.

Section Lookups.

Variable hierarchy : Hierarchy.

(** [parent !== undefined ? parent + sep + key : key]. *)
Definition under (parent : option string) (sep key : string) : string :=
  match parent with
  | Some p => p ++ sep ++ key
  | None => key
  end.

(** [getReverseLookupValue(lookup, result, parent)]: the steps pushed. *)
Definition getReverseLookupValue (lid : list (string * ReverseTarget))
    (parent : option string) : list LookupStep :=
  let fullKey := under parent "." "_id" in
  flat_map
    (fun kv =>
       let as' := under parent "" (fst kv) in
       let domain := getDomain hierarchy (reverseClass (snd kv)) in
       let desc := getDescendants hierarchy (reverseClass (snd kv)) in
       if negb (String.eqb domain DOMAIN_MODEL) then
         [{| from := domain;
             localField := fullKey;
             foreignField := reverseAttr (snd kv);
             as_ := stripDots as' ++ "_lookup";
             pipeline := [MatchClasses desc; ProjectOutHash] |}]
       else [])
    lid.

(** The step pushed for a forward lookup of [_class] under [fullKey]. *)
Definition forwardStep (_class : Ref) (fullKey : string) : list LookupStep :=
  let domain := getDomain hierarchy _class in
  if negb (String.eqb domain DOMAIN_MODEL) then
    [{| from := domain;
        localField := fullKey;
        foreignField := "_id";
        as_ := stripDots fullKey ++ "_lookup";
        pipeline := [ProjectOutHash] |}]
  else [].

(** The steps pushed by [getLookupValue] for one key of the lookup. *)
Fixpoint getLookupItem (clazz : Ref) (item : LookupItem) (parent : option string)
    : list LookupStep :=
  match item with
  | Reverse lid => getReverseLookupValue lid parent
  | Nested key _class nested =>
      let tkey := MongoAdapterBase.checkMixinKey hierarchy key clazz in
      let fullKey := under parent "." tkey in
      (forwardStep _class fullKey
       ++ flat_map (fun it => getLookupItem _class it (Some (fullKey ++ "_lookup")%string))
            nested)%list
  | Forward key _class =>
      let tkey := MongoAdapterBase.checkMixinKey hierarchy key clazz in
      let fullKey := under parent "." tkey in
      forwardStep _class fullKey
  end.

(** [getLookupValue(clazz, lookup, result, parent)]: the steps pushed. *)
Definition getLookupValue (clazz : Ref) (lookup : Lookup) (parent : option string)
    : list LookupStep :=
  flat_map (fun it => getLookupItem clazz it parent) lookup.

(** [getLookups(_class, lookup, parent)]. *)
Definition getLookups (_class : Ref) (lookup : option Lookup) (parent : option string)
    : list LookupStep :=
  match lookup with
  | None => []
  | Some l => getLookupValue _class l parent
  end.

(** [clearExtraLookups(row)]. *)
Definition clearExtraLookups (row : Obj) : Obj :=
  filter (fun kv => negb (endsWith "_lookup" (fst kv))) row.

(** [modelDb.findAll(_class, { [attr]: id })], from the in-memory model. *)
Variable modelFindAllBy : Ref -> string -> Value -> list Value.

(** [fillReverseLookup(clazz, lookup, object, parent, parentObject)] on
    the reverse lookups [lookup._id], for a [parentObject] that is an
    object or [undefined]: the target object afterwards, which is
    [parentObject ?? object].  [None] is the [TypeError] of assigning into
    a [$lookup] that is [null] or a primitive; a [$lookup] that is an
    array is not followed. *)
Definition fillReverseLookup (clazz : Ref) (lid : list (string * ReverseTarget))
    (object : Obj) (parent : option string) (parentObject : option Obj)
    : option Obj :=
  let targetObject := match parentObject with
                      | Some p => p
                      | None => object
                      end in
  let targetObject :=
    match getProp targetObject "$lookup" with
    | VUndefined => setProp targetObject "$lookup" (VObj [])
    | _ => targetObject
    end in
  fold_left
    (fun acc kv =>
       match acc with
       | None => None
       | Some targetObject =>
           let domain := getDomain hierarchy (reverseClass (snd kv)) in
           let tkey :=
             stripDots (MongoAdapterBase.checkMixinKey hierarchy (fst kv) clazz) in
           let fullKey := under parent "" (tkey ++ "_lookup") in
           if negb (String.eqb domain DOMAIN_MODEL) then
             MongoAdapterBase.assignLookup targetObject (fst kv)
               (getProp (match parentObject with
                         | Some _ => object
                         | None => targetObject
                         end) fullKey)
           else
             MongoAdapterBase.assignLookup targetObject (fst kv)
               (VArr (modelFindAllBy (reverseClass (snd kv)) (reverseAttr (snd kv))
                        (getProp targetObject "_id")))
       end)
    lid (Some targetObject).

End Lookups.

(** ** Sorting, and the plan of [findAll] *)

Module Planner.

(** [rules.cases[i]]: [{ query, index }]. *)
Record SortSelector : Type := {
  query : Value;
  index : Value
}.

(** [SortingRules]: [{ order, default?, cases }]. *)
Record SortingRules : Type := {
  order : SortingOrder;
  default : Value;
  cases : list SortSelector
}.

(** A value of [options.sort]: a sorting order, or the rules of a custom
    sort, which is the value whose [typeof] is ['object']. *)
Inductive SortValue : Type :=
| ByOrder (o : SortingOrder)
| ByRules (rules : SortingRules).

Definition FindSort := list (string * SortValue).

(** [FindOptions], with the [domain] of [ServerFindOptions]. *)
Record FindOptions : Type := {
  sort : option FindSort;
  lookup : option Lookup;
  limit : option Z;
  projection : option Obj;
  total : bool;
  domain : option Domain
}.

(** [Enum], as far as the adapter reads it. *)
Record Enum : Type := {
  enumValues : list string
}.

(** The cases of a [$switch] as the planners build them:
    [{ $eq: ['$key', v] }], [{ $in: { [key]: v } }], [{ $nin: { [key]: v } }]
    and [{ $ne: ['$key', v] }]. *)
Inductive SwitchCase : Type :=
| CaseEq (path : string) (value : Value)
| CaseIn (key : string) (values : Value)
| CaseNin (key : string) (values : Value)
| CaseNe (path : string) (value : Value).

Record Branch : Type := {
  case : SwitchCase;
  then_ : Value
}.

(** The stages of an aggregation, as far as [findWithPipeline] builds
    them; [AddSwitch f bs d] is
    [{ $addFields: { f: { $switch: { branches: bs, default: d } } } }], and
    [Planned] carries a stage of the date planner. *)
Inductive PipelineStage : Type :=
| LookupStage (step : LookupStep)
| Match (filter : Obj)
| AddSwitch (field : string) (branches : list Branch) (default : Value)
| Planned (s : Stage)
| Sort (sort : Obj)
| Limit (n : Z)
| Project (projection : Obj)
| Count (field : string).

(** [options.sort[key]]. *)
Fixpoint sortValue (sort : FindSort) (key : string) : option SortValue :=
  match sort with
  | [] => None
  | (k, v) :: rest => if String.eqb k key then Some v else sortValue rest key
  end.

(** [options.sort[key] === SortingOrder.Ascending ? 1 : -1]. *)
Definition orderOf (sort : FindSort) (key : string) : Value :=
  match sortValue sort key with
  | Some (ByOrder Ascending) => VNum 1
  | _ => VNum (-1)
  end.

(** The entries of [options.sort] that are sorting orders, which is what
    the date planner reads of it. *)
Definition ordersOf (sort : FindSort) : SortingQuery :=
  flat_map (fun kv => match snd kv with
                      | ByOrder o => [(fst kv, o)]
                      | ByRules _ => []
                      end) sort.

(** [s.startsWith(prefix)] and [s.includes(needle)]. *)
Fixpoint startsWith (prefix s : string) : bool :=
  match prefix, s with
  | EmptyString, _ => true
  | String a p, String b s' => Ascii.eqb a b && startsWith p s'
  | String _ _, EmptyString => false
  end.

Fixpoint includes (needle s : string) : bool :=
  startsWith needle s
  || match s with
     | EmptyString => false
     | String _ s' => includes needle s'
     end.

(** [isLookupQuery(query)] and [isLookupSort(sort)]. *)
Definition isLookupQuery (q : Obj) : bool :=
  existsb (fun kv => includes "$lookup." (fst kv)) q.

Definition isLookupSort (s : option FindSort) : bool :=
  match s with
  | None => false
  | Some s => existsb (fun kv => includes "$lookup." (fst kv)) s
  end.

(** [fillEnumSort(enumOf, key, pipeline, sort, options, _key)]: the
    pipeline, the sort object and [options.sort] afterwards. *)
Definition fillEnumSort (enumOf : Enum) (key : string) (pipeline : list PipelineStage)
    (sortObj : Obj) (optionsSort : option FindSort) (_key : string)
    : list PipelineStage * Obj * option FindSort :=
  let branches :=
    map (fun vi => {| case := CaseEq key (VStr (fst vi));
                      then_ := VNum (Z.of_nat (snd vi)) |})
      (combine (enumValues enumOf) (seq 0 (List.length (enumValues enumOf)))) in
  let optionsSort' := match optionsSort with
                      | Some s => s
                      | None => []
                      end in
  ((pipeline
    ++ [AddSwitch ("sort_" ++ key) branches
          (VNum (Z.of_nat (List.length (enumValues enumOf))))])%list,
   setProp sortObj ("sort_" ++ key) (orderOf optionsSort' _key),
   Some optionsSort').

(** The branch of [fillCustomSort] for one selector; [None] is the
    [TypeError] of reading [$in] of a [null] query. *)
Definition customBranch (key : string) (selector : SortSelector) : option Branch :=
  match query selector with
  | VNull => None
  | (VObj _ | VArr _) as q =>
      Some match member q "$in", member q "$nin", member q "$ne" with
           | VUndefined, VUndefined, VUndefined =>
               {| case := CaseEq key q; then_ := index selector |}
           | VUndefined, VUndefined, ne =>
               {| case := CaseNe key ne; then_ := index selector |}
           | VUndefined, _, _ =>
               {| case := CaseNin key (member q "$in"); then_ := index selector |}
           | values, _, _ =>
               {| case := CaseIn key values; then_ := index selector |}
           end
  | q => Some {| case := CaseEq key q; then_ := index selector |}
  end.

Fixpoint customBranches (key : string) (selectors : list SortSelector)
    : option (list Branch) :=
  match selectors with
  | [] => Some []
  | selector :: rest =>
      match customBranch key selector, customBranches key rest with
      | Some b, Some bs => Some (b :: bs)
      | _, _ => None
      end
  end.

(** [fillCustomSort(rules, key, pipeline, sort, options, _key)]: the
    pipeline, the sort object and [options.sort] afterwards. *)
Definition fillCustomSort (rules : SortingRules) (key : string)
    (pipeline : list PipelineStage) (sortObj : Obj) (optionsSort : option FindSort)
    : option (list PipelineStage * Obj * option FindSort) :=
  match customBranches key (cases rules) with
  | None => None
  | Some branches =>
      Some ((pipeline
             ++ [AddSwitch ("sort_" ++ key) branches
                   match default rules with
                   | VUndefined | VNull => VNum (Z.of_nat (List.length branches))
                   | d => d
                   end])%list,
            setProp sortObj ("sort_" ++ key)
              match order rules with
              | Ascending => VNum 1
              | Descending => VNum (-1)
              end,
            Some match optionsSort with
                 | Some s => s
                 | None => []
                 end)
  end.

Section Plans.

Variable hierarchy : Hierarchy.
Variable escapeLikeForRegexp : string -> string.

(** [modelDb.getObject<Enum>(ref)]. *)
Variable getEnum : Ref -> Enum.

Definition getEnumById (_class : Ref) (key : string) : option Enum :=
  match findAttribute hierarchy _class key with
  | Some attr =>
      match attrType attr with
      | EnumOf ref => Some (getEnum ref)
      | _ => None
      end
  | None => None
  end.

Definition isEnumSort (_class : Ref) (options : option FindOptions) : bool :=
  match options with
  | Some o =>
      match sort o with
      | Some s =>
          existsb (fun kv => match findAttribute hierarchy _class (fst kv) with
                             | Some attr => match attrType attr with
                                            | EnumOf _ => true
                                            | _ => false
                                            end
                             | None => false
                             end) s
      | None => false
      end
  | None => false
  end.

Definition isDate (_class : Ref) (key : string) : bool :=
  match findAttribute hierarchy _class key with
  | Some attr => match attrType attr with
                 | TypeDate => true
                 | _ => false
                 end
  | None => false
  end.

Definition isRulesSort (options : option FindOptions) : bool :=
  match options with
  | Some o =>
      match sort o with
      | Some s => existsb (fun kv => match snd kv with
                                     | ByRules _ => true
                                     | ByOrder _ => false
                                     end) s
      | None => false
      end
  | None => false
  end.

(** One turn of the loop of [fillSortPipeline]. *)
Definition fillSortKey (clazz : Ref) (optionsSort : FindSort)
    (acc : option (list PipelineStage * Obj)) (_key : string)
    : option (list PipelineStage * Obj) :=
  match acc with
  | None => None
  | Some (pipeline, sortObj) =>
      let key := MongoAdapterBase.translateKey hierarchy _key clazz in
      match sortValue optionsSort _key with
      | Some (ByRules rules) =>
          match fillCustomSort rules key pipeline sortObj (Some optionsSort) with
          | Some (pipeline', sortObj', _) => Some (pipeline', sortObj')
          | None => None
          end
      | _ =>
          if isDate clazz _key then
            let '(stages, sortObj', _) :=
              fillDateSort key [] sortObj (Some (ordersOf optionsSort)) _key in
            Some ((pipeline ++ map Planned stages)%list, sortObj')
          else
            match getEnumById clazz _key with
            | Some enumOf =>
                let '(pipeline', sortObj', _) :=
                  fillEnumSort enumOf key pipeline sortObj (Some optionsSort) _key in
                Some (pipeline', sortObj')
            | None => Some (pipeline, setProp sortObj key (orderOf optionsSort _key))
            end
      end
  end.

(** [fillSortPipeline(clazz, options, pipeline)]: the pipeline afterwards. *)
Definition fillSortPipeline (clazz : Ref) (options : option FindOptions)
    (pipeline : list PipelineStage) : option (list PipelineStage) :=
  match options with
  | Some o =>
      match sort o with
      | Some s =>
          match fold_left (fillSortKey clazz s) (map fst s) (Some (pipeline, [])) with
          | Some (pipeline', sortObj) => Some (pipeline' ++ [Sort sortObj])%list
          | None => None
          end
      | None => Some pipeline
      end
  | None => Some pipeline
  end.

(** [collectSort(options, _class)]. *)
Definition collectSort (options : option FindOptions) (_class : Ref) : option Obj :=
  match options with
  | Some o =>
      match sort o with
      | Some s =>
          match s with
          | [] => None
          | _ =>
              Some (fold_left
                      (fun acc key =>
                         setProp acc (MongoAdapterBase.checkMixinKey hierarchy key _class)
                           (orderOf s key))
                      (map fst s) [])
          end
      | None => None
      end
  | None => None
  end.

(** [calcProjection(options, _class)]. *)
Definition calcProjection (options : option FindOptions) (_class : Ref) : option Obj :=
  match options with
  | Some o =>
      match projection o with
      | Some p =>
          match p with
          | [] => None
          | _ =>
              Some (fold_left
                      (fun acc key =>
                         setProp acc (MongoAdapterBase.checkMixinKey hierarchy key _class)
                           (getProp p key))
                      (map fst p) [])
          end
      | None => None
      end
  | None => None
  end.

(** [typeof query._id === 'string']. *)
Definition idIsString (q : Obj) : bool :=
  match getProp q "_id" with
  | VStr _ => true
  | _ => false
  end.

(** The two aggregations of [findWithPipeline]: [pipeline], on the
    domain, and [totalPipeline] when [options.total === true].  [None]: a
    [TypeError] thrown while the query or the sort is translated. *)
Definition findWithPipeline (clazz : Ref) (q : Obj) (options : option FindOptions)
    : option (Domain * list PipelineStage * option (list PipelineStage)) :=
  match MongoAdapterBase.translateQuery hierarchy escapeLikeForRegexp clazz q with
  | None => None
  | Some filter =>
      let optionsSort := match options with
                         | Some o => sort o
                         | None => None
                         end in
      let optionsLookup := match options with
                           | Some o => lookup o
                           | None => None
                           end in
      let optionsLimit := match options with
                          | Some o => limit o
                          | None => None
                          end in
      let slowPipeline := isLookupQuery q || isLookupSort optionsSort in
      let steps := map LookupStage (getLookups hierarchy clazz optionsLookup None) in
      let pipeline := ((if slowPipeline then steps else []) ++ [Match filter])%list in
      let totalPipeline := pipeline in
      match fillSortPipeline clazz options pipeline with
      | None => None
      | Some pipeline =>
          let pipeline :=
            match optionsLimit with
            | Some n => (pipeline ++ [Limit n])%list
            | None => if idIsString q then (pipeline ++ [Limit 1])%list else pipeline
            end in
          let pipeline := (pipeline ++ (if slowPipeline then [] else steps))%list in
          let pipeline :=
            match match options with
                  | Some o => projection o
                  | None => None
                  end with
            | Some p =>
                (pipeline
                 ++ [Project
                       (fold_left
                          (fun acc key =>
                             setProp acc
                               (MongoAdapterBase.checkMixinKey hierarchy key clazz)
                               (getProp p key))
                          (map fst p) [])])%list
            | None => (pipeline ++ [Project [("%hash%", VNum 0)]])%list
            end in
          let domain := match match options with
                              | Some o => domain o
                              | None => None
                              end with
                        | Some d => d
                        | None => getDomain hierarchy clazz
                        end in
          Some (domain, pipeline,
                match options with
                | Some o => if total o
                            then Some (totalPipeline ++ [Count "total"])%list
                            else None
                | None => None
                end)
      end
  end.

(** What [findAll] asks of the backend. *)
Inductive FindPlan : Type :=
| Aggregate (domain : Domain) (pipeline : list PipelineStage)
    (totalPipeline : option (list PipelineStage))
| FindOne (domain : Domain) (mongoQuery : Obj) (sortObj : option Obj)
    (projection : option Obj) (countDocuments : bool)
| Find (domain : Domain) (mongoQuery : Obj) (projection : option Obj)
    (sortObj : option Obj) (limit : option Z) (countDocuments : bool).

(** [findAll(ctx, _class, query, options)]: the request made. *)
Definition findAll (_class : Ref) (q : Obj) (options : option FindOptions)
    : option FindPlan :=
  let viaPipeline :=
    match options with
    | Some o =>
        match lookup o with
        | Some _ => true
        | None => isEnumSort _class options || isRulesSort options
        end
    | None => false
    end in
  if viaPipeline then
    match findWithPipeline _class q options with
    | Some (domain, pipeline, totalPipeline) =>
        Some (Aggregate domain pipeline totalPipeline)
    | None => None
    end
  else
    match MongoAdapterBase.translateQuery hierarchy escapeLikeForRegexp _class q with
    | None => None
    | Some mongoQuery =>
        let domain := match match options with
                            | Some o => domain o
                            | None => None
                            end with
                      | Some d => d
                      | None => getDomain hierarchy _class
                      end in
        match options with
        | Some o =>
            let projected :=
              match projection o with
              | Some _ => calcProjection options _class
              | None => Some [("%hash%", VNum 0)]
              end in
            match limit o with
            | Some 1%Z =>
                Some (FindOne domain mongoQuery (collectSort options _class)
                        projected (total o))
            | Some n =>
                Some (Find domain mongoQuery projected (collectSort options _class)
                        (Some n) (total o))
            | None =>
                if idIsString q
                then Some (Find domain mongoQuery projected (collectSort options _class)
                             (Some 1%Z) (total o))
                else Some (Find domain mongoQuery projected (collectSort options _class)
                             None false)
            end
        | None =>
            Some (Find domain mongoQuery (Some [("%hash%", VNum 0)]) None None false)
        end
    end.

End Plans.

End Planner.

(** ** The escape of the segments of a [$like] pattern *)

(** The characters that a regular expression reads as syntax. *)
Definition regexpSyntax : string := "-/\^$*+?.()|[]{}".

(** Modelled from the spec: [escapeLikeForRegexp] of the core package is
    imported by the adapter and is not among the sources.  The literal
    regex metacharacters of a segment are escaped: each gets a backslash
    before it, and the other characters are kept. *)
Fixpoint escapeLikeForRegexp (value : string) : string :=
  match value with
  | EmptyString => EmptyString
  | String c rest =>
      if includesChar c regexpSyntax
      then String "\" (String c (escapeLikeForRegexp rest))
      else String c (escapeLikeForRegexp rest)
  end.

(** * The chat triggers

    The triggers of the chat plugin answer a transaction with the
    transactions to apply next.  [TriggerControl] is imported: what a
    trigger reads through it ([findAll], [queryFind], the hierarchy) is
    taken as given, and what it asks of [control.txFactory] is recorded as
    a [TxRequest]. *)

Module Chunter.

(** [7 * 24 * 60 * 60 * 1000], seven days. *)
Definition hideChannelDelay : Z := 7 * 24 * 60 * 60 * 1000.

(** [txFactory.createTxUpdateDoc(_class, space, objectId, operations)],
    [createTxMixin(objectId, objectClass, objectSpace, mixin, attributes)],
    [createTxCreateDoc(_class, space, attributes)] and
    [createTxRemoveDoc(_class, space, objectId)]. *)
Inductive TxRequest : Type :=
| CreateTxUpdateDoc (_class space objectId : Ref) (operations : Obj)
| CreateTxMixin (objectId objectClass objectSpace mixin : Ref) (attributes : Obj)
| CreateTxCreateDoc (_class space : Ref) (attributes : Obj)
| CreateTxRemoveDoc (_class space objectId : Ref).

(** The comparison of [Set] and of [Array.prototype.includes]: primitive
    values by value; two objects or arrays are the same only when they
    are one object, which two values read from a transaction never are. *)
Definition sameValueZero (a b : Value) : bool :=
  match a, b with
  | VUndefined, VUndefined => true
  | VNull, VNull => true
  | VBool x, VBool y => Bool.eqb x y
  | VNum x, VNum y => Z.eqb x y
  | VStr x, VStr y => String.eqb x y
  | _, _ => false
  end.

(** [Array.from(new Set(l))]. *)
Definition setOf (l : list Value) : list Value :=
  fold_left (fun acc v => if existsb (sameValueZero v) acc then acc else (acc ++ [v])%list)
    l [].

(** [v != null]. *)
Definition notNullish (v : Value) : bool :=
  match v with
  | VUndefined | VNull => false
  | _ => true
  end.

(** What the callback of [flatMap] adds for one element of [attributes];
    [None] is the [TypeError] of reading [attr[operator]] of [null] or
    [undefined].  The keys are names of operators and of attributes: none
    is [length] or an index, which a string or an array would answer. *)
Definition combined (attr : Value) (key operator arrayKey : string)
    : option (list Value) :=
  match attr with
  | VUndefined | VNull => None
  | _ =>
      let at_key := member (member attr operator) key in
      Some match member at_key arrayKey with
           | VArr xs => xs
           | _ => match at_key with
                  | VArr ys => ys
                  | v => [v]
                  end
           end
  end.

Fixpoint flatCombined (attributes : list Value) (key operator arrayKey : string)
    : option (list Value) :=
  match attributes with
  | [] => Some []
  | attr :: rest =>
      match combined attr key operator arrayKey, flatCombined rest key operator arrayKey with
      | Some xs, Some ys => Some (xs ++ ys)%list
      | _, _ => None
      end
  end.

(** [combineAttributes(attributes, key, operator, arrayKey)]. *)
Definition combineAttributes (attributes : list Value) (key operator arrayKey : string)
    : option (list Value) :=
  match flatCombined attributes key operator arrayKey with
  | Some flat => Some (filter notNullish (setOf flat))
  | None => None
  end.

(** A channel, as far as the triggers read it. *)
Record Channel : Type := {
  channelId : Ref;
  channelClass : Ref;
  channelSpace : Ref;
  members : list Value;
  private : bool
}.

(** [joinChannel(control, channel, user)]. *)
Definition joinChannel (channel : Channel) (user : Value) : list TxRequest :=
  if existsb (sameValueZero user) (members channel) then []
  else [CreateTxUpdateDoc (channelClass channel) (channelSpace channel)
          (channelId channel) [("$push", VObj [("members", user)])]].

(** A notification context, as far as the triggers read it. *)
Record DocNotifyContext : Type := {
  contextId : Ref;
  contextClass : Ref;
  contextSpace : Ref;
  lastUpdateTimestamp : option Z;
  lastViewedTimestamp : option Z
}.

(** The chat information of a user. *)
Record ChatInfo : Type := {
  infoId : Ref;
  infoClass : Ref;
  infoSpace : Ref;
  hidden : list Ref
}.

Section Triggers.

(** Identifiers of the plugins, and [hierarchy.isDerived]. *)
Variable notification_mixin_Collaborators : Ref.
Variable chunter_class_Channel : Ref.
Variable chunter_mixin_ChannelInfo : Ref.
Variable isDerived : Ref -> Ref -> bool.

(** [control.findAll(_class, { _id })] for a channel class. *)
Variable findChannel : Ref -> Ref -> list Channel.

(** [OnCollaboratorsChanged(tx, control)]; [None] is a [TypeError]. *)
Definition OnCollaboratorsChanged (tx : Tx) : option (list TxRequest) :=
  match tx with
  | TxMixin cud mixin attributes =>
      if negb (String.eqb mixin notification_mixin_Collaborators) then Some []
      else if negb (isDerived (objectClass cud) chunter_class_Channel) then Some []
      else
        match findChannel (objectClass cud) (objectId cud) with
        | [] => Some []
        | doc :: _ =>
            if private doc then Some []
            else
              match combineAttributes [VObj attributes] "collaborators" "$push" "$each" with
              | Some added => Some (flat_map (joinChannel doc) added)
              | None => None
              end
        end
  | _ => Some []
  end.

(** [hierarchy.hasMixin(context, chunter.mixin.ChannelInfo)], and whether
    [hierarchy.as(context, chunter.mixin.ChannelInfo).hidden] is truthy. *)
Variable hasChannelInfo : DocNotifyContext -> bool.
Variable infoHidden : DocNotifyContext -> bool.

(** [lastUpdateTimestamp > lastViewedTimestamp] or
    [date - lastUpdateTimestamp < hideChannelDelay], with [0] for a
    timestamp that is [undefined]: the context is kept. *)
Definition fresh (date : Z) (context : DocNotifyContext) : bool :=
  let lastUpdate := match lastUpdateTimestamp context with
                    | Some t => t
                    | None => 0%Z
                    end in
  let lastViewed := match lastViewedTimestamp context with
                    | Some t => t
                    | None => 0%Z
                    end in
  Z.gtb lastUpdate lastViewed || Z.ltb (date - lastUpdate) hideChannelDelay.

(** [hideOldChannels(contexts, control)]. *)
Definition hideOldChannels (contexts : list DocNotifyContext) : list TxRequest :=
  map (fun context =>
         CreateTxMixin (contextId context) (contextClass context) (contextSpace context)
           chunter_mixin_ChannelInfo [("hidden", VBool true)])
    contexts.

(** [hideOldDirects(directs, control, date)]. *)
Definition hideOldDirects (directs : list DocNotifyContext) (date : Z) : list TxRequest :=
  let visibleDirects :=
    filter (fun context => if negb (hasChannelInfo context) then true
                           else negb (infoHidden context)) directs in
  let minVisibleDirects := 10 in
  if Nat.leb (List.length visibleDirects) minVisibleDirects then []
  else
    let canHide := List.length visibleDirects - minVisibleDirects in
    let toHide := filter (fun context => negb (fresh date context)) directs in
    let toHide := if Nat.ltb canHide (List.length toHide)
                  then firstn (List.length toHide - canHide) toHide
                  else toHide in
    hideOldChannels toHide.

(** [hideOldActivityChannels(contexts, control, date)]. *)
Definition hideOldActivityChannels (contexts : list DocNotifyContext) (date : Z)
    : list TxRequest :=
  match contexts with
  | [] => []
  | _ =>
      hideOldChannels
        (filter (fun context => negb (fresh date context) && negb (infoHidden context))
           contexts)
  end.

(** [control.queryFind(chunter.class.ChatInfo, {})]. *)
Variable chatUpdates : list ChatInfo.

(** [OnContextUpdate(tx, control)] for the update [tx]. *)
Definition OnContextUpdate (cud : TxCUD) (operations : Obj) : list TxRequest :=
  let hasUpdate :=
    hasProp operations "lastUpdateTimestamp"
    && match getProp operations "lastUpdateTimestamp" with
       | VUndefined => false
       | _ => true
       end in
  if negb hasUpdate then []
  else
    match find (fun update => inStrings (objectId cud) (hidden update)) chatUpdates with
    | Some update =>
        [CreateTxMixin (objectId cud) (objectClass cud) (objectSpace cud)
           chunter_mixin_ChannelInfo [("hidden", VBool false)];
         CreateTxUpdateDoc (infoClass update) (infoSpace update) (infoId update)
           [("hidden",
             VArr (map VStr
                     (filter (fun id => negb (String.eqb id (objectId cud)))
                        (hidden update))))]]
    | None => []
    end.

End Triggers.

End Chunter.

(** * Vocabulary of the properties *)

(** ** Queries *)

(** The backend's reading of the class constraint of a translated filter:
    no [_class] key admits every class, a string admits that class, and
    [{ $in: [...] }] admits the listed classes. *)
Definition admitsClass (translated : Obj) (c : Ref) : bool :=
  match lookupProp translated "_class" with
  | None => true
  | Some (VStr s) => String.eqb s c
  | Some (VObj o) =>
      match getProp o "$in" with
      | VArr xs => existsb (fun v => match v with
                                     | VStr s => String.eqb s c
                                     | _ => false
                                     end) xs
      | _ => false
      end
  | Some _ => false
  end.

(** The constraint written for a list of candidate classes once
    [translateQuery] has simplified it. *)
Definition collapsed (candidates : list Ref) : Value :=
  match candidates with
  | [x] => VStr x
  | _ => VObj [("$in", VArr (map VStr candidates))]
  end.

(** The candidates kept from the descendants [classes] for an explicit
    constraint [cv]: those in [cv.$in] when it is an array, without those
    in [cv.$nin] when it is an array, without mixins. *)
Definition explicitCandidates (h : Hierarchy) (classes : list Ref) (cv : Value)
    : list Ref :=
  let kept := match asArray (member cv "$in") with
              | Some xs => MongoAdapterBase.keepClasses classes xs
              | None => classes
              end in
  let kept := match asArray (member cv "$nin") with
              | Some xs => filter (fun c => negb (MongoAdapterBase.excluded xs c)) kept
              | None => kept
              end in
  filter (MongoAdapterBase.notMixin h) kept.

(** Every [$like] of the predicate holds a string. *)
Definition likeIsString (value : Value) : bool :=
  match value with
  | VObj ((k, p) :: _) =>
      if String.eqb k "$like"
      then match p with
           | VStr _ => true
           | _ => false
           end
      else true
  | _ => true
  end.

Definition wellTypedQuery (query : Obj) : bool :=
  forallb (fun kv => likeIsString (snd kv)) query.

Fixpoint countChar (c : ascii) (s : string) : nat :=
  match s with
  | EmptyString => 0
  | String c' s' => (if Ascii.eqb c' c then 1 else 0) + countChar c s'
  end.

(** ** Lookups *)

(** [targetObject.$lookup[key]] as an own property. *)
Definition lookupEntry (targetObject : Obj) (key : string) : option Value :=
  match getProp targetObject "$lookup" with
  | VObj ns => lookupProp ns key
  | _ => None
  end.

(** ** Compiled transactions *)

(** The single-document writes of the calls made for a domain, in the
    order in which they are made. *)
Inductive Write : Type :=
| WInsert (doc : Obj)
| WBulk (op : BulkOp)
| WRaw (op : RawOp).

Definition writesOf (c : Call) : list Write :=
  match c with
  | InsertMany docs _ => map WInsert docs
  | BulkWrite ops _ => map WBulk ops
  | FindByIds _ => []
  | RunRaw op => [WRaw op]
  end.

Definition writes (calls : list Call) : list Write := flat_map writesOf calls.

(** The [updateOne] operations made of the merged field sets. *)
Definition fieldSetOps (merged : list (Ref * Obj)) : list BulkOp :=
  map (fun it => UpdateOne [("_id", VStr (fst it))] [("$set", VObj (snd it))]) merged.



(** An update document sets [%hash%] to [null]. *)
Definition setsHashNull (upd : Obj) : bool :=
  match getProp upd "$set" with
  | VObj s => match lookupProp s "%hash%" with
              | Some VNull => true
              | _ => false
              end
  | _ => false
  end.

(** The write leaves the document with a [null] [%hash%]. *)
Definition nullsHash (w : Write) : bool :=
  match w with
  | WInsert doc => match lookupProp doc "%hash%" with
                   | Some VNull => true
                   | _ => false
                   end
  | WBulk (UpdateOne _ upd) => setsHashNull upd
  | WBulk (DeleteOne _) => false
  | WRaw (FindOneAndUpdate _ _ upd) => setsHashNull upd
  end.


Section CompiledGroup.

Variable h : Hierarchy.
Variable isOperator : Obj -> bool.
Variable createDoc2Doc : TxCUD -> Obj -> Obj.


(** The writes made for a group of transactions of one domain. *)
Definition groupWrites (txs : list Tx) : option (list Write) :=
  match MongoAdapter.updateBulkAll h isOperator createDoc2Doc MongoAdapter.emptyBulk txs with
  | Some bulk => Some (writes (MongoAdapter.applyBulk bulk))
  | None => None
  end.

End CompiledGroup.

(** Every own key of the object occurs once, as in any JavaScript object. *)
Definition distinctKeys (o : Obj) : Prop := NoDup (map fst o).

(** A create or an update of a document, alone or carried by a collection
    transaction, with a delta whose keys are distinct. *)
Fixpoint createsOrUpdates (t : Tx) : Prop :=
  match t with
  | TxCreateDoc _ _ => True
  | TxUpdateDoc _ operations _ => distinctKeys operations
  | TxCollectionCUD _ _ inner => createsOrUpdates inner
  | _ => False
  end.

(** ** Bulk updates *)

Definition single {A : Type} (x : A) : list A := [x].

Section RejectingBackend.

Variable Err : Type.
Variable malformed : BulkOp -> bool.
Variable errorOf : list BulkOp -> Err.

(** An unordered bulk write on a backend that rejects the malformed
    operations: the other operations of the batch are applied, and an
    error made of the rejected ones is thrown when there are any.  The
    collection is represented by the operations applied to it. *)
Definition rejecting (applied : list BulkOp) (ops : list BulkOp)
    : list BulkOp * option Err :=
  ((applied ++ filter (fun op => negb (malformed op)) ops)%list,
   if existsb malformed ops then Some (errorOf (filter malformed ops)) else None).

(** The outcome the backend gives an attempt. *)
Definition outcomeOf (batch : list BulkOp) : option Err :=
  if existsb malformed batch then Some (errorOf (filter malformed batch)) else None.

(** Each attempt of the trace failed exactly as the backend answers for
    its batch. *)
Definition faithful (trace : list (MongoAdapterBase.Attempt Err)) : Prop :=
  Forall (fun a => forall c,
            MongoAdapterBase.updateOnes (MongoAdapterBase.part Err a) = Some c ->
            MongoAdapterBase.caught Err a = outcomeOf c) trace.

End RejectingBackend.

(** The identifier an [updateOne] selects. *)
Definition opId (op : BulkOp) : Value :=
  match op with
  | UpdateOne filter _ | DeleteOne filter => getProp filter "_id"
  end.

(** ** Hash metadata *)

(** The number a string of hexadecimal digits denotes after [acc]. *)
Fixpoint hexVal (s : string) (acc : N) : N :=
  match s with
  | EmptyString => acc
  | String c s' =>
      hexVal s' (16 * acc + match hexValue c with
                            | Some d => d
                            | None => 0
                            end)%N
  end.

Fixpoint allHex (s : string) : Prop :=
  match s with
  | EmptyString => True
  | String c s' => hexValue c <> None /\ allHex s'
  end.

Section HashVocabulary.

Variable calculateHash : option (Doc -> string).
Variable sha256Base64 : Doc -> string.
Variable estimateDocSize : Doc -> N.

(** The document as the digest and the size estimate see it, after
    [delete d['%hash%']]. *)
Definition stripped (d : Doc) : Doc :=
  {| _id := _id d; hash := HMissing; fields := fields d |}.

(** The metadata buffered for a document whose hash is computed. *)
Definition stamp (d : Doc) : string :=
  MongoAdapterBase.digestOf calculateHash sha256Base64 (stripped d)
  ++ "|" ++ toString16 (estimateDocSize (stripped d)).

Definition computedInfo (d : Doc) : MongoAdapterBase.HashInfo :=
  {| MongoAdapterBase.id := _id d;
     MongoAdapterBase.hashOf :=
       MongoAdapterBase.digestOf calculateHash sha256Base64 (stripped d);
     MongoAdapterBase.size := Num (Z.of_N (estimateDocSize (stripped d))) |}.

Definition storedInfo (i : Ref) (s : string) : MongoAdapterBase.HashInfo :=
  {| MongoAdapterBase.id := i;
     MongoAdapterBase.hashOf := hashPart s;
     MongoAdapterBase.size := parseInt16 (sizePart s) |}.

(** What the iterator yields for a document. *)
Definition infoOf (d : Doc) : MongoAdapterBase.HashInfo :=
  match hash d with
  | HStr (String c s) => storedInfo (_id d) (String c s)
  | _ => computedInfo d
  end.

(** The document once the hash computed for it has been flushed. *)
Definition persisted (d : Doc) : Doc :=
  if MongoAdapterBase.hasHash d then d
  else {| _id := _id d; hash := HStr (stamp d); fields := fields d |}.

(** The collection as it will be once the buffered values are flushed. *)
Definition pending (st : MongoAdapterBase.Iter) : list Doc :=
  MongoAdapterBase.writeHashes (MongoAdapterBase.coll st) (MongoAdapterBase.bulkUpdate st).

Definition stampAll (cursor docs : list Doc) : list Doc :=
  fold_left (fun ds d => MongoAdapterBase.setHash ds (_id d) (HStr (stamp d))) cursor docs.

End HashVocabulary.

Definition noHash (d : Doc) : bool := negb (MongoAdapterBase.hasHash d).

(** ** Examples used to instantiate the properties *)

(** A base class [B] with a subclass [D] and a mixin [M], a sibling [E],
    all stored in the domain [docs]; [due] is a date attribute of [B]. *)
Definition exampleHierarchy : Hierarchy := {|
  getBaseClass := fun c => if String.eqb c "M" then "B" else c;
  getDescendants := fun c =>
    if String.eqb c "B" then ["B"; "D"; "M"]
    else if String.eqb c "M" then ["M"] else [c];
  isMixin := fun c => String.eqb c "M";
  findAttribute := fun c k =>
    if String.eqb k "due"
    then Some {| attributeOf := "B"; attrType := TypeDate |}
    else None;
  getDomain := fun _ => "docs";
  findDomain := fun _ => Some "docs"
|}.

(** An escape that puts a backslash before a dot. *)
Fixpoint exampleEscape (s : string) : string :=
  match s with
  | EmptyString => EmptyString
  | String c s' =>
      if Ascii.eqb c "."
      then String "\" (String c (exampleEscape s'))
      else String c (exampleEscape s')
  end.

Definition exampleCud : TxCUD := {|
  objectId := "doc1";
  objectClass := "B";
  objectSpace := "space1";
  modifiedBy := VStr "user1";
  modifiedOn := VNum 1700
|}.

(** [createDoc2Doc] as the transaction processor is documented to build a
    document: the attributes, then the identifier, class, space and
    modification fields of the transaction. *)
Definition exampleCreateDoc2Doc (cud : TxCUD) (attributes : Obj) : Obj :=
  spread attributes
    [("_id", VStr (objectId cud)); ("_class", VStr (objectClass cud));
     ("space", VStr (objectSpace cud));
     ("modifiedOn", modifiedOn cud); ("modifiedBy", modifiedBy cud)].

(** An object is operator-tagged when it has keys and all start with [$]. *)
Definition exampleIsOperator (o : Obj) : bool :=
  match o with
  | [] => false
  | _ => forallb (fun kv => startsWithDollar (fst kv)) o
  end.





(** A backend error that names no operation. *)
Inductive WriteFailed : Type :=
| writeFailed.

(** The operations selecting the identifier [bad] are malformed. *)
Definition malformedId (bad : string) (op : BulkOp) : bool :=
  match opId op with
  | VStr s => String.eqb s bad
  | _ => false
  end.

(** ** Compaction *)

(** The identifiers of the merged field sets of a bulk are pairwise
    distinct, and so are those of its read-after-write fetches. *)
Definition keyedOnce (bulk : OperationBulk) : Prop :=
  NoDup (map fst (update bulk)) /\ NoDup (findUpdate bulk).

(** ** Storage *)

(** [d'] is [d] without its [%hash%] key. *)
Definition withoutHash (d d' : Obj) : Prop :=
  lookupProp d' "%hash%" = None
  /\ forall k, k <> "%hash%" -> lookupProp d' k = lookupProp d k.

Section SystemTransactions.

Variable core_class_TxCreateDoc : Ref.
Variable core_class_TxUpdateDoc : Ref.
Variable core_class_TxRemoveDoc : Ref.
Variable core_account_System : Ref.

(** A transaction of the system account that does not create, update or
    remove a person or employee account. *)
Definition isSystemTx (tx : Obj) : bool :=
  MongoTxAdapter.isString (getProp tx "modifiedBy") core_account_System
  && negb (MongoTxAdapter.isPersonAccount core_class_TxCreateDoc core_class_TxUpdateDoc
             core_class_TxRemoveDoc tx).

End SystemTransactions.

(** What the hash iterator reads from the metadata [s] of the document [i]
    is the hash [digest] and the size [n]. *)
Definition readsBack (i : Ref) (s : HashField) (digest : string) (n : N) : Prop :=
  exists meta,
    s = HStr meta
    /\ nonEmpty meta = true
    /\ storedInfo i meta
       = {| MongoAdapterBase.id := i;
            MongoAdapterBase.hashOf := digest;
            MongoAdapterBase.size := Num (Z.of_N n) |}.

(** ** Planned joins *)

(** The name of a field that a lookup step writes: it ends with
    [_lookup] and holds no dot. *)
Definition stepField (name : string) : Prop :=
  endsWith "_lookup" name = true /\ includesChar "." name = false.

(** What holds of every planned step. *)
Definition plannedStep (step : LookupStep) : Prop :=
  from step <> DOMAIN_MODEL
  /\ stepField (as_ step)
  /\ last (pipeline step) ProjectOutHash = ProjectOutHash
  /\ pipeline step <> [].


(** The field read for the reverse lookup [key] at the top of a row. *)
Definition reverseField (h : Hierarchy) (clazz : Ref) (key : string) : string :=
  stripDots (MongoAdapterBase.checkMixinKey h key clazz) ++ "_lookup".
(** ** Keys *)

(** A segment of a key: not empty, without a dot, and not the [$lookup]
    marker. *)
Definition keySegment (seg : string) : Prop :=
  nonEmpty seg = true /\ includesChar "." seg = false /\ seg <> "$lookup".

(** ** Sort ranks *)

(** The backend's reading of a [$switch] whose cases compare a field with
    a string: a case holds when the document has the string under the
    field (read as one key); the value is that of the first branch whose
    case holds, and the default when none does. *)
Definition caseHolds (doc : Obj) (c : Planner.SwitchCase) : bool :=
  match c with
  | Planner.CaseEq path (VStr s) =>
      match lookupProp doc path with
      | Some (VStr x) => String.eqb x s
      | _ => false
      end
  | _ => false
  end.

Fixpoint switchValue (doc : Obj) (branches : list Planner.Branch) (default : Value)
    : Value :=
  match branches with
  | [] => default
  | b :: rest =>
      if caseHolds doc (Planner.case b) then Planner.then_ b
      else switchValue doc rest default
  end.

(** The place of the first [x] in [l], and the length of [l] when it has
    none. *)
Fixpoint position (x : string) (l : list string) : nat :=
  match l with
  | [] => 0
  | y :: l' => if String.eqb y x then 0 else S (position x l')
  end.

(** The selector is for one string. *)
Definition stringSelector (selector : Planner.SortSelector) : Prop :=
  exists s, Planner.query selector = VStr s.

(** The index of the first selector for the string [x]. *)
Fixpoint selectedIndex (x : string) (selectors : list Planner.SortSelector)
    : option Value :=
  match selectors with
  | [] => None
  | selector :: rest =>
      if MongoTxAdapter.isString (Planner.query selector) x
      then Some (Planner.index selector)
      else selectedIndex x rest
  end.
(** ** Plans *)

(** The sort document of a plain find. *)
Definition planSort (plan : Planner.FindPlan) : option Obj :=
  match plan with
  | Planner.Aggregate _ _ _ => None
  | Planner.FindOne _ _ sortObj _ _ => sortObj
  | Planner.Find _ _ _ sortObj _ _ => sortObj
  end.

(** The plan is a plain find, with no aggregation. *)
Definition plainFind (plan : Planner.FindPlan) : bool :=
  match plan with
  | Planner.Aggregate _ _ _ => false
  | _ => true
  end.

(** The stage the date planner adds for the translated key [key]. *)
Definition dateStage (key : string) : Planner.PipelineStage :=
  Planner.Planned
    (AddFields ("sort_isNull_" ++ key) (EOr [EIsNull key; EIsMissing key])).

(** ** Chat triggers *)

(** The strings among the values [l], in their order. *)
Definition stringsOf (l : list Value) : list string :=
  flat_map (fun v => match v with
                     | VStr s => [s]
                     | _ => []
                     end) l.

(** The user that the request adds to the members of a channel. *)
Definition joined (r : Chunter.TxRequest) : option (Ref * Value) :=
  match r with
  | Chunter.CreateTxUpdateDoc _ _ objectId [("$push", VObj [("members", user)])] =>
      Some (objectId, user)
  | _ => None
  end.

(** The context is stale at [date]: nothing was posted in it since it was
    last viewed, and the last post is seven days old or more. *)
Definition stale (date : Z) (context : Chunter.DocNotifyContext) : Prop :=
  (match Chunter.lastUpdateTimestamp context with
   | Some t => t
   | None => 0
   end
   <= match Chunter.lastViewedTimestamp context with
      | Some t => t
      | None => 0
      end)%Z
  /\ (Chunter.hideChannelDelay
      <= date - match Chunter.lastUpdateTimestamp context with
                | Some t => t
                | None => 0
                end)%Z.

(** ** Patterns *)

(** What a pattern asks of the text at one place: one character, or any
    sequence of characters. *)
Inductive Piece : Type :=
| Literal (c : ascii)
| AnySequence.

(** The pieces of a [$like] pattern: [%] stands for any sequence, every
    other character for itself. *)
Fixpoint likePieces (pattern : string) : list Piece :=
  match pattern with
  | EmptyString => []
  | String c rest =>
      (if Ascii.eqb c "%" then AnySequence else Literal c) :: likePieces rest
  end.

(** The backend's reading of the body of a regular expression, as far
    as the translation of [$like] needs it: a backslash and a syntax
    character are that character, [.*] is any sequence, and a character
    that is no syntax character is itself.  Anything else (a lone
    backslash, a class such as [\d], a syntax character that is not
    escaped) is not read. *)
Fixpoint regexpPieces (body : string) : option (list Piece) :=
  match body with
  | EmptyString => Some []
  | String c rest =>
      if Ascii.eqb c "\" then
        match rest with
        | String e rest' =>
            if includesChar e regexpSyntax
            then option_map (cons (Literal e)) (regexpPieces rest')
            else None
        | EmptyString => None
        end
      else if Ascii.eqb c "." then
        match rest with
        | String e rest' =>
            if Ascii.eqb e "*"
            then option_map (cons AnySequence) (regexpPieces rest')
            else None
        | EmptyString => None
        end
      else if includesChar c regexpSyntax then None
      else option_map (cons (Literal c)) (regexpPieces rest)
  end.

(** [s] without its last character, when that is [$]. *)
Fixpoint beforeDollar (s : string) : option string :=
  match s with
  | EmptyString => None
  | String c EmptyString => if Ascii.eqb c "$" then Some EmptyString else None
  | String c rest => option_map (String c) (beforeDollar rest)
  end.

(** The pieces that an expression anchored at both ends, [^body$], asks
    of the whole text. *)
Definition anchoredPieces (regex : string) : option (list Piece) :=
  match regex with
  | String c rest =>
      if Ascii.eqb c "^" then
        match beforeDollar rest with
        | Some body => regexpPieces body
        | None => None
        end
      else None
  | EmptyString => None
  end.

(** ** The order of the effects of a batch *)








(** ** Date sorts in the plan of [findAll] *)

(** The sort keys translated to [tk] and [tk'] write different fields of
    the sort document, whatever their kind: a turn of the loop for [tk']
    writes [tk'], [sort_tk'] or [sort_isNull_tk'], and none of these is
    [tk] or [sort_isNull_tk]. *)
Definition apart (tk tk' : string) : Prop :=
  tk' <> tk
  /\ tk' <> "isNull_" ++ tk
  /\ tk' <> "sort_isNull_" ++ tk
  /\ tk <> "sort_" ++ tk'
  /\ tk <> "sort_isNull_" ++ tk'.

(** The document carries the derived field of [tk] with the value that
    the date stage computes from the document. *)
Definition derived (tk : string) (doc : Obj) : Prop :=
  lookupProp doc ("sort_isNull_" ++ tk)
  = Some (VBool (evalExpr doc (EOr [EIsNull tk; EIsMissing tk]))).

(** [1] for ascending, [-1] for descending. *)
Definition directionOf (o : SortingOrder) : Value :=
  match o with
  | Ascending => VNum 1
  | Descending => VNum (-1)
  end.

(** ** Uploads *)

Section UploadVocabulary.

Variable Store : Type.
Variable Err : Type.
Variable bulkReplace : Store -> list ReplaceOne -> Store * option Err.

(** The collection after the bulk writes [batches], made one after the
    other. *)
Definition storeAfter (st : Store) (batches : list (list ReplaceOne)) : Store :=
  fold_left (fun s batch => fst (bulkReplace s batch)) batches st.

End UploadVocabulary.


(** * Properties *)

(** ** Objects and strings *)

Lemma lookupProp_setProp_same (o : Obj) (k : string) (v : Value) :
  lookupProp (setProp o k v) k = Some v.
Proof.
  induction o as [| [k' v'] o IH]; simpl.
  - now rewrite String.eqb_refl.
  - destruct (String.eqb k' k) eqn:E; simpl.
    + now rewrite String.eqb_refl.
    + now rewrite E.
Qed.

Lemma lookupProp_setProp_other (o : Obj) (k k' : string) (v : Value) :
  k <> k' -> lookupProp (setProp o k v) k' = lookupProp o k'.
Proof.
  intros Hne.
  induction o as [| [k0 v0] o IH]; simpl.
  - destruct (String.eqb k k') eqn:E; [apply String.eqb_eq in E; contradiction | reflexivity].
  - destruct (String.eqb k0 k) eqn:E; simpl.
    + apply String.eqb_eq in E. subst k0.
      destruct (String.eqb k k') eqn:E'; [apply String.eqb_eq in E'; contradiction | reflexivity].
    + destruct (String.eqb k0 k'); [reflexivity | exact IH].
Qed.

Lemma getProp_setProp_same (o : Obj) (k : string) (v : Value) :
  getProp (setProp o k v) k = v.
Proof. unfold getProp. now rewrite lookupProp_setProp_same. Qed.

Lemma getProp_setProp_other (o : Obj) (k k' : string) (v : Value) :
  k <> k' -> getProp (setProp o k v) k' = getProp o k'.
Proof. intros H. unfold getProp. now rewrite lookupProp_setProp_other. Qed.

Lemma lookupProp_deleteProp_same (o : Obj) (k : string) :
  lookupProp (deleteProp o k) k = None.
Proof.
  induction o as [| [k' v'] o IH]; simpl; [reflexivity |].
  destruct (String.eqb k' k) eqn:E; simpl; [exact IH | now rewrite E].
Qed.

Lemma inStrings_In (s : string) (l : list string) :
  inStrings s l = true <-> In s l.
Proof.
  unfold inStrings. rewrite existsb_exists. split.
  - intros [x [Hin Heq]]. apply String.eqb_eq in Heq. now subst.
  - intros Hin. exists s. split; [assumption | apply String.eqb_refl].
Qed.

Lemma split_not_nil (sep : ascii) (s : string) : split sep s <> [].
Proof.
  induction s as [| c s IH]; simpl; [discriminate |].
  destruct (Ascii.eqb c sep); [discriminate |].
  destruct (split sep s); discriminate.
Qed.

(** Joining the segments with the separator gives the string back. *)
Lemma join_split (sep : ascii) (s : string) :
  join (String sep EmptyString) (split sep s) = s.
Proof.
  induction s as [| c s IH]; simpl; [reflexivity |].
  destruct (Ascii.eqb c sep) eqn:E.
  - apply Ascii.eqb_eq in E. subst c.
    pose proof (split_not_nil sep s) as Hn.
    destruct (split sep s) as [| seg segs]; [contradiction |].
    simpl in *. now rewrite IH.
  - pose proof (split_not_nil sep s) as Hn.
    destruct (split sep s) as [| seg segs]; [contradiction |].
    simpl in *. destruct segs; simpl in *; now rewrite <- IH.
Qed.

(** No segment contains the separator. *)
Lemma split_segments_free (sep : ascii) (s : string) :
  Forall (fun seg => includesChar sep seg = false) (split sep s).
Proof.
  induction s as [| c s IH]; simpl.
  - constructor; [reflexivity | constructor].
  - destruct (Ascii.eqb c sep) eqn:E.
    + constructor; [reflexivity | exact IH].
    + destruct (split sep s) as [| seg segs]; simpl.
      * constructor; [simpl; now rewrite E | constructor].
      * inversion IH; subst. constructor; [simpl; now rewrite E | assumption].
Qed.

(** There is one segment more than there are separators. *)
Lemma split_length (sep : ascii) (s : string) :
  List.length (split sep s) = S (countChar sep s).
Proof.
  induction s as [| c s IH]; simpl; [reflexivity |].
  destruct (Ascii.eqb c sep) eqn:E; simpl.
  - now rewrite IH.
  - pose proof (split_not_nil sep s) as Hn.
    destruct (split sep s) as [| seg segs]; [contradiction |].
    simpl in *. exact IH.
Qed.

(** ** Query translation *)

Section QueryProperties.

Variable h : Hierarchy.
Variable esc : string -> string.

Abbreviation translateFields := (MongoAdapterBase.translateFields h esc).
Abbreviation translateQuery := (MongoAdapterBase.translateQuery h esc).
Abbreviation restrictClass := (MongoAdapterBase.restrictClass h).
Abbreviation constrainClass := (MongoAdapterBase.constrainClass h).
Abbreviation collapseClass := MongoAdapterBase.collapseClass.
Abbreviation classesValue := MongoAdapterBase.classesValue.

Lemma translateValue_total (value : Value) :
  likeIsString value = true ->
  exists v, MongoAdapterBase.translateValue esc value = Some v.
Proof.
  unfold likeIsString, MongoAdapterBase.translateValue.
  destruct value as [| | | | | |fs]; try (intros _; eexists; reflexivity).
  destruct fs as [| [k p] fs]; [intros _; eexists; reflexivity |].
  destruct (String.eqb k "$like"); [| intros _; eexists; reflexivity].
  destruct p; try discriminate. intros _. eexists; reflexivity.
Qed.

Lemma translateFields_total (clazz : Ref) (query acc : Obj) :
  wellTypedQuery query = true ->
  exists t, translateFields clazz query acc = Some t.
Proof.
  revert acc. induction query as [| [k v] query IH]; intros acc Hwt; simpl.
  - now exists acc.
  - unfold wellTypedQuery in Hwt. simpl in Hwt.
    apply andb_true_iff in Hwt. destruct Hwt as [Hv Hq].
    destruct (translateValue_total v Hv) as [v' Ev]. rewrite Ev.
    apply IH. exact Hq.
Qed.

Lemma collapseClass_other_keys (t : Obj) (k : string) :
  k <> "_class" -> lookupProp (collapseClass t) k = lookupProp t k.
Proof.
  intros Hk. unfold MongoAdapterBase.collapseClass.
  destruct (member (getProp t "_class") "$in") as [| | | |s|xs|]; try reflexivity.
  - destruct s as [| c [| c' s]]; try reflexivity.
    destruct (member (getProp t "_class") "$nin"); try reflexivity.
    apply lookupProp_setProp_other. congruence.
  - destruct xs as [| x [| y xs]]; try reflexivity.
    destruct (member (getProp t "_class") "$nin"); try reflexivity.
    apply lookupProp_setProp_other. congruence.
Qed.

Lemma collapseClass_no_in (t : Obj) :
  member (getProp t "_class") "$in" = VUndefined -> collapseClass t = t.
Proof.
  intros H. unfold MongoAdapterBase.collapseClass. now rewrite H.
Qed.

Lemma collapseClass_classes (t : Obj) (l : list Ref) :
  lookupProp t "_class" = Some (classesValue l) ->
  lookupProp (collapseClass t) "_class" = Some (collapsed l).
Proof.
  intros H. unfold MongoAdapterBase.collapseClass, getProp. rewrite H.
  unfold MongoAdapterBase.classesValue, collapsed. simpl.
  destruct l as [| x [| y l]]; simpl; try exact H.
  apply lookupProp_setProp_same.
Qed.


(** The lookups of a translated filter outside [_class] and the mixin key
    are those of the translated predicate. *)
Lemma restrictClass_class (clazz : Ref) (t0 : Obj) :
  getBaseClass h clazz <> core_class_Doc ->
  clazz <> "_class" ->
  lookupProp (restrictClass clazz t0) "_class"
  = lookupProp (collapseClass (constrainClass (getDescendants h (getBaseClass h clazz)) t0)) "_class".
Proof.
  intros Hroot Hc. unfold MongoAdapterBase.restrictClass.
  apply String.eqb_neq in Hroot. rewrite Hroot. simpl negb. cbv iota.
  destruct (negb (String.eqb (getBaseClass h clazz) clazz)); [| reflexivity].
  unfold MongoAdapterBase.collapseClass, getProp.
  rewrite (lookupProp_setProp_other _ clazz "_class") by assumption.
  set (t1 := constrainClass _ t0).
  destruct (lookupProp t1 "_class") as [cv |]; simpl.
  - destruct (member cv "$in") as [| | | |s|xs|]; try (now apply lookupProp_setProp_other).
    + destruct s as [| c [| c' s]]; try (now apply lookupProp_setProp_other).
      destruct (member cv "$nin"); try (now apply lookupProp_setProp_other).
      now rewrite !lookupProp_setProp_same.
    + destruct xs as [| x [| y xs]]; try (now apply lookupProp_setProp_other).
      destruct (member cv "$nin"); try (now apply lookupProp_setProp_other).
      now rewrite !lookupProp_setProp_same.
  - now apply lookupProp_setProp_other.
Qed.

Lemma keepClasses_In (classes : list Ref) (xs : list Value) (c : Ref) :
  In c (MongoAdapterBase.keepClasses classes xs) <-> In (VStr c) xs /\ In c classes.
Proof using.
  clear h esc.
  induction xs as [| x xs IH]; simpl; [tauto |].
  destruct x as [| | | |s| |];
    try (rewrite IH; split; [intros [H1 H2]; split; [now right | assumption]
                            | intros [[H1 | H1] H2]; [discriminate | now split]]).
  destruct (inStrings s classes) eqn:E.
  - simpl. rewrite IH. apply inStrings_In in E. split.
    + intros [-> | [H1 H2]]; [split; [now left | assumption] | split; [now right | assumption]].
    + intros [[H1 | H1] H2]; [left; congruence | right; now split].
  - rewrite IH. split.
    + intros [H1 H2]. split; [now right | assumption].
    + intros [[H1 | H1] H2]; [| now split].
      inversion H1; subst. apply inStrings_In in H2. congruence.
Qed.

Lemma excluded_In (xs : list Value) (c : Ref) :
  MongoAdapterBase.excluded xs c = true <-> In (VStr c) xs.
Proof.
  induction xs as [| x xs IH]; simpl; [split; [discriminate | contradiction] |].
  destruct x as [| | | |s| |];
    try (rewrite IH; split; [now right | intros [H | H]; [discriminate | assumption]]).
  rewrite orb_true_iff, IH, String.eqb_eq. split.
  - intros [-> | H]; [now left | now right].
  - intros [H | H]; [left; congruence | now right].
Qed.

(** The candidates of an explicit constraint are the descendants that
    [$in] lists (when it is given), that [$nin] does not list, and that
    are no mixins. *)
Lemma explicitCandidates_In (classes : list Ref) (cv : Value) (c : Ref) :
  In c (explicitCandidates h classes cv) <->
  isMixin h c = false /\ In c classes
  /\ (forall xs, asArray (member cv "$in") = Some xs -> In (VStr c) xs)
  /\ (forall xs, asArray (member cv "$nin") = Some xs -> ~ In (VStr c) xs).
Proof using h.
  clear esc.
  unfold explicitCandidates, MongoAdapterBase.notMixin.
  rewrite filter_In, negb_true_iff.
  destruct (asArray (member cv "$in")) as [ins |];
    destruct (asArray (member cv "$nin")) as [nins |];
    rewrite ?filter_In, ?negb_true_iff, ?keepClasses_In.
  - split.
    + intros [[[H1 H2] H3] H4]. repeat split; try assumption.
      * intros xs [= <-]. exact H1.
      * intros xs [= <-] Hin. apply excluded_In in Hin. congruence.
    + intros [H1 [H2 [H3 H4]]]. repeat split; try assumption.
      * now apply H3.
      * destruct (MongoAdapterBase.excluded nins c) eqn:E; [| reflexivity].
        apply excluded_In in E. exfalso. now apply (H4 nins).
  - split.
    + intros [[H1 H2] H4]. repeat split; try assumption.
      * intros xs [= <-]. exact H1.
      * discriminate.
    + intros [H1 [H2 [H3 H4]]]. repeat split; try assumption. now apply H3.
  - split.
    + intros [[H2 H3] H4]. repeat split; try assumption.
      * discriminate.
      * intros xs [= <-] Hin. apply excluded_In in Hin. congruence.
    + intros [H1 [H2 [H3 H4]]]. repeat split; try assumption.
      destruct (MongoAdapterBase.excluded nins c) eqn:E; [| reflexivity].
      apply excluded_In in E. exfalso. now apply (H4 nins).
  - split.
    + intros [H2 H4]. repeat split; try assumption; discriminate.
    + intros [H1 [H2 [H3 H4]]]. now split.
Qed.

End QueryProperties.

Section QueryClaims.

Variable h : Hierarchy.
Variable esc : string -> string.

Abbreviation translateFields := (MongoAdapterBase.translateFields h esc).
Abbreviation translateQuery := (MongoAdapterBase.translateQuery h esc).


(** C5 (as amended).  For a base class other than the root and a
    translated predicate whose [_class] is [cv]: an object (with [$in],
    [$nin]) is replaced by the descendants of the base class that [$in]
    lists, that [$nin] does not list and that are no mixins; a string
    naming a descendant is kept; a string naming no descendant is
    replaced by the descendants that are no mixins; and a list of exactly
    one candidate is written as that single value. *)
Theorem translateQuery_class_explicit (clazz : Ref) (query t0 : Obj) (cv : Value) :
  translateFields clazz query [] = Some t0 ->
  lookupProp t0 "_class" = Some cv ->
  getBaseClass h clazz <> core_class_Doc ->
  clazz <> "_class" ->
  exists translated,
    translateQuery clazz query = Some translated
    /\ lookupProp translated "_class"
       = match cv with
         | VStr v =>
             if inStrings v (getDescendants h (getBaseClass h clazz))
             then Some (VStr v)
             else Some (collapsed (filter (MongoAdapterBase.notMixin h)
                                     (getDescendants h (getBaseClass h clazz))))
         | VObj _ | VArr _ =>
             Some (collapsed (explicitCandidates h
                                (getDescendants h (getBaseClass h clazz)) cv))
         | VUndefined =>
             Some (collapsed (getDescendants h (getBaseClass h clazz)))
         | _ => Some cv
         end
    /\ (forall c,
          In c (explicitCandidates h (getDescendants h (getBaseClass h clazz)) cv)
          <-> isMixin h c = false
              /\ In c (getDescendants h (getBaseClass h clazz))
              /\ (forall xs, asArray (member cv "$in") = Some xs -> In (VStr c) xs)
              /\ (forall xs, asArray (member cv "$nin") = Some xs -> ~ In (VStr c) xs))
    /\ (forall x, collapsed [x] = VStr x).
Proof.
  intros Ht0 Hcv Hroot Hc. unfold MongoAdapterBase.translateQuery. rewrite Ht0.
  eexists. split; [reflexivity |]. split; [| split; [apply explicitCandidates_In | reflexivity]].
  rewrite restrictClass_class by assumption.
  set (classes := getDescendants h (getBaseClass h clazz)).
  unfold MongoAdapterBase.constrainClass, getProp. rewrite Hcv.
  destruct cv as [| |b|n|v|xs|o].
  - apply collapseClass_classes. apply lookupProp_setProp_same.
  - rewrite collapseClass_no_in; [exact Hcv | unfold getProp; now rewrite Hcv].
  - rewrite collapseClass_no_in; [exact Hcv | unfold getProp; now rewrite Hcv].
  - rewrite collapseClass_no_in; [exact Hcv | unfold getProp; now rewrite Hcv].
  - destruct (inStrings v classes).
    + rewrite collapseClass_no_in; [exact Hcv | unfold getProp; now rewrite Hcv].
    + apply collapseClass_classes. apply lookupProp_setProp_same.
  - apply collapseClass_classes. apply lookupProp_setProp_same.
  - apply collapseClass_classes. apply lookupProp_setProp_same.
Qed.

(** C10.  When the requested class is not its own base class and that
    base class is not the root, the translated filter requires the key
    named by the requested class to exist. *)
Theorem translateQuery_mixin_exists (clazz : Ref) (query : Obj) :
  wellTypedQuery query = true ->
  getBaseClass h clazz <> core_class_Doc ->
  getBaseClass h clazz <> clazz ->
  exists translated,
    translateQuery clazz query = Some translated
    /\ lookupProp translated clazz = Some (VObj [("$exists", VBool true)]).
Proof.
  intros Hwt Hroot Hmix.
  destruct (translateFields_total h esc clazz query [] Hwt) as [t0 Ht0].
  unfold MongoAdapterBase.translateQuery. rewrite Ht0.
  eexists. split; [reflexivity |].
  unfold MongoAdapterBase.restrictClass.
  apply String.eqb_neq in Hroot, Hmix. rewrite Hroot, Hmix. simpl negb. cbv iota.
  set (t1 := MongoAdapterBase.constrainClass h _ t0).
  destruct (String.eqb clazz "_class") eqn:E.
  - apply String.eqb_eq in E. rewrite E.
    rewrite collapseClass_no_in; [apply lookupProp_setProp_same |].
    now rewrite getProp_setProp_same.
  - apply String.eqb_neq in E.
    rewrite collapseClass_other_keys by assumption.
    apply lookupProp_setProp_same.
Qed.

End QueryClaims.



(** A single class value outside the descendants is overwritten with the
    descendants: the filter for [B] with [_class: "E"] admits [B]. *)
Lemma translateQuery_class_explicit_counterexample :
  exists clazz query,
    lookupProp query "_class" = Some (VStr "E")
    /\ inStrings "E" (getDescendants exampleHierarchy clazz) = false
    /\ (forall esc : string -> string,
          MongoAdapterBase.translateQuery exampleHierarchy esc clazz query
          = Some [("_class", VObj [("$in", VArr [VStr "B"; VStr "D"])])])
    /\ admitsClass [("_class", VObj [("$in", VArr [VStr "B"; VStr "D"])])] "B" = true
    /\ admitsClass [("_class", VObj [("$in", VArr [VStr "B"; VStr "D"])])] "E" = false.
Proof.
  exists "B", [("_class", VStr "E")]. repeat split; reflexivity.
Qed.

Lemma translateQuery_class_explicit_witness :
  exists translated,
    MongoAdapterBase.translateQuery exampleHierarchy exampleEscape "B"
      [("_class", VObj [("$in", VArr [VStr "D"; VStr "E"; VStr "M"])])]
    = Some translated
    /\ lookupProp translated "_class" = Some (VStr "D").
Proof.
  destruct (translateQuery_class_explicit exampleHierarchy exampleEscape "B"
              [("_class", VObj [("$in", VArr [VStr "D"; VStr "E"; VStr "M"])])]
              [("_class", VObj [("$in", VArr [VStr "D"; VStr "E"; VStr "M"])])]
              (VObj [("$in", VArr [VStr "D"; VStr "E"; VStr "M"])]))
    as [translated [H1 [H2 _]]].
  - reflexivity.
  - reflexivity.
  - discriminate.
  - discriminate.
  - exists translated. split; [exact H1 | exact H2].
Defined.

Lemma translateQuery_mixin_exists_witness :
  exists translated,
    MongoAdapterBase.translateQuery exampleHierarchy exampleEscape "M" [("title", VStr "x")]
    = Some translated
    /\ lookupProp translated "M" = Some (VObj [("$exists", VBool true)]).
Proof.
  apply (translateQuery_mixin_exists exampleHierarchy exampleEscape "M" [("title", VStr "x")]).
  - reflexivity.
  - discriminate.
  - discriminate.
Defined.

(** ** Forward lookups *)

(** C8.  For a target class stored in the backend, when the joined array
    is read under [fullKey] and the lookup key is not yet filled:
    [fillLookup] leaves [$lookup] an object in which the key holds the
    single match when there is exactly one, the list of matches when
    there are two or more, and is absent when there is none. *)
Theorem fillLookup_collapse (h : Hierarchy) (modelFindAll : Ref -> Value -> list Value)
    (_class : Ref) (object : Obj) (key fullKey : string) (targetObject : Obj)
    (matches : list Value) :
  getDomain h _class <> DOMAIN_MODEL ->
  getProp object fullKey = VArr matches ->
  (getProp targetObject "$lookup" = VUndefined
   \/ exists ns, getProp targetObject "$lookup" = VObj ns) ->
  lookupEntry targetObject key = None ->
  exists filled,
    MongoAdapterBase.fillLookup h modelFindAll _class object key fullKey targetObject
    = Some filled
    /\ (exists ns, getProp filled "$lookup" = VObj ns)
    /\ lookupEntry filled key
       = match matches with
         | [] => None
         | [x] => Some x
         | _ => Some (VArr matches)
         end.
Proof.
  intros Hdom Harr Hns Hkey.
  unfold MongoAdapterBase.fillLookup.
  apply String.eqb_neq in Hdom. rewrite Hdom, Harr. simpl negb. cbv iota.
  set (target1 := match getProp targetObject "$lookup" with
                  | VUndefined => setProp targetObject "$lookup" (VObj [])
                  | _ => targetObject
                  end).
  assert (H1 : exists ns, getProp target1 "$lookup" = VObj ns /\ lookupProp ns key = None).
  { destruct Hns as [Hu | [ns Hn]]; subst target1.
    - rewrite Hu. exists []. split; [apply getProp_setProp_same | reflexivity].
    - rewrite Hn. exists ns. split; [exact Hn |].
      unfold lookupEntry in Hkey. now rewrite Hn in Hkey. }
  destruct H1 as [ns [Hns1 Hk1]].
  assert (Hassign : forall v,
             exists filled,
               MongoAdapterBase.assignLookup target1 key v = Some filled
               /\ (exists ns', getProp filled "$lookup" = VObj ns')
               /\ lookupEntry filled key = Some v).
  { intros v. unfold MongoAdapterBase.assignLookup. rewrite Hns1.
    eexists. split; [reflexivity |]. split.
    - eexists. apply getProp_setProp_same.
    - unfold lookupEntry. rewrite getProp_setProp_same.
      apply lookupProp_setProp_same. }
  destruct matches as [| x [| y rest]].
  - exists target1. split; [reflexivity |]. split; [now exists ns |].
    unfold lookupEntry. now rewrite Hns1.
  - apply Hassign.
  - apply Hassign.
Qed.

Lemma fillLookup_collapse_witness :
  exists filled,
    MongoAdapterBase.fillLookup exampleHierarchy (fun _ _ => []) "D"
      [("_id", VStr "x"); ("owner_lookup", VArr [VObj [("_id", VStr "o1")]])]
      "owner" "owner_lookup"
      [("_id", VStr "x"); ("owner_lookup", VArr [VObj [("_id", VStr "o1")]])]
    = Some filled
    /\ (exists ns, getProp filled "$lookup" = VObj ns)
    /\ lookupEntry filled "owner" = Some (VObj [("_id", VStr "o1")]).
Proof.
  apply (fillLookup_collapse exampleHierarchy (fun _ _ => []) "D"
           [("_id", VStr "x"); ("owner_lookup", VArr [VObj [("_id", VStr "o1")]])]
           "owner" "owner_lookup"
           [("_id", VStr "x"); ("owner_lookup", VArr [VObj [("_id", VStr "o1")]])]
           [VObj [("_id", VStr "o1")]]).
  - discriminate.
  - reflexivity.
  - left. reflexivity.
  - reflexivity.
Defined.

(** ** Date sorts *)

Lemma string_length_append (s1 s2 : string) :
  String.length (s1 ++ s2) = String.length s1 + String.length s2.
Proof. induction s1; simpl; [reflexivity | now rewrite IHs1]. Qed.

Lemma isNull_key_fresh (key : string) : "sort_isNull_" ++ key <> key.
Proof.
  intros H. apply (f_equal String.length) in H.
  rewrite string_length_append in H. simpl in H. lia.
Qed.

(** With a descending date sort the document whose date is null is
    placed before the document that has a date. *)
Lemma fillDateSort_nulls_counterexample :
  exists dated undated,
    lookupProp dated "due" = Some (VNum 5)
    /\ lookupProp undated "due" = Some VNull
    /\ sortCompare
         (snd (fst (fillDateSort "due" [] [] (Some [("due", Descending)]) "due")))
         (runAddFields
            (fst (fst (fillDateSort "due" [] [] (Some [("due", Descending)]) "due")))
            undated)
         (runAddFields
            (fst (fst (fillDateSort "due" [] [] (Some [("due", Descending)]) "due")))
            dated)
       = Lt.
Proof.
  exists [("_id", VStr "a"); ("due", VNum 5)], [("_id", VStr "b"); ("due", VNull)].
  repeat split; reflexivity.
Qed.

(** ** The transaction bulk compiler *)

Section CompilerProperties.

Variable h : Hierarchy.
Variable isOperator : Obj -> bool.
Variable createDoc2Doc : TxCUD -> Obj -> Obj.

Abbreviation updateBulk := (MongoAdapter.updateBulk h isOperator createDoc2Doc).
Abbreviation updateBulkAll := (MongoAdapter.updateBulkAll h isOperator createDoc2Doc).
Abbreviation emptyBulk := MongoAdapter.emptyBulk.






Lemma writes_applyBulk (bulk : OperationBulk) :
  writes (MongoAdapter.applyBulk bulk)
  = (map WInsert (add bulk) ++ map WBulk (fieldSetOps (update bulk))
     ++ map WBulk (bulkOperations bulk) ++ map WRaw (raw bulk))%list.
Proof.
  unfold MongoAdapter.applyBulk, writes, fieldSetOps.
  rewrite !flat_map_app.
  assert (Hraw : forall l, flat_map writesOf (map RunRaw l) = map WRaw l).
  { induction l; simpl; [reflexivity | now rewrite IHl]. }
  rewrite Hraw.
  destruct (add bulk), (update bulk), (bulkOperations bulk), (findUpdate bulk);
    simpl; rewrite ?app_nil_r; reflexivity.
Qed.


End CompilerProperties.



(** C1, at a mixin-apply transaction.  Whatever [isOperator] answers, the
    one write compiled for a mixin-apply that sets [title] on [doc1] does
    not set [%hash%]: its [$set] holds the attribute and the modification
    fields only. *)
Theorem txMixin_leaves_hash (h : Hierarchy) (isOperator : Obj -> bool)
    (createDoc2Doc : TxCUD -> Obj -> Obj) :
  exists filter upd,
    groupWrites h isOperator createDoc2Doc
      [TxMixin exampleCud "M" [("title", VStr "x")]]
    = Some [WBulk (UpdateOne filter upd)]
    /\ setsHashNull upd = false
    /\ nullsHash (WBulk (UpdateOne filter upd)) = false.
Proof.
  unfold groupWrites. simpl. unfold MongoAdapter.txMixin.
  destruct (isOperator [("title", VStr "x")]); simpl;
    do 2 eexists; repeat split.
Qed.

(** ** The bulk update *)

Section UpdateProperties.

Variable Store : Type.
Variable Err : Type.
Variable bulkWrite : Store -> list BulkOp -> Store * option Err.
Variable typeError : Err.

Abbreviation updateLoop := (MongoAdapterBase.updateLoop Store Err bulkWrite typeError).
Abbreviation part := (MongoAdapterBase.part Err).
Abbreviation skip := (MongoAdapterBase.skip Err).
Abbreviation caught := (MongoAdapterBase.caught Err).

(** The calls of the loop: at batch size one, every entry alone; at a
    larger size, batches that succeed and then either nothing more, or a
    batch that fails followed by every remaining entry and every entry of
    the failed batch alone. *)
Lemma updateLoop_shape (sk : positive) (ops : list (Ref * Obj)) (st : Store)
    (trace : list (MongoAdapterBase.Attempt Err)) :
  (sk = 1%positive ->
   exists singles,
     snd (updateLoop sk ops st trace) = (trace ++ singles)%list
     /\ map part singles = map single ops
     /\ Forall (fun a => skip a = 1%positive) singles)
  /\ (sk <> 1%positive ->
      exists oks,
        Forall (fun a => caught a = None /\ skip a = sk) oks
        /\ ((snd (updateLoop sk ops st trace) = (trace ++ oks)%list
             /\ concat (map part oks) = ops)
            \/ exists failed e remaining singles,
                 snd (updateLoop sk ops st trace)
                 = (trace ++ oks ++ failed :: singles)%list
                 /\ caught failed = Some e
                 /\ skip failed = sk
                 /\ ops = (concat (map part oks) ++ part failed ++ remaining)%list
                 /\ map part singles = map single (remaining ++ part failed)
                 /\ Forall (fun a => skip a = 1%positive) singles)).
Proof.
  funelim (updateLoop sk ops st trace).
  - split.
    + intros _. exists []. rewrite app_nil_r. repeat split. constructor.
    + intros _. exists []. split; [constructor |]. left. rewrite app_nil_r. now split.
  - clear Heqcall.
    match goal with H : context [(trace ++ [?x])%list] |- _ => set (a := x) in * end.
    match goal with IH : (_ -> _) /\ _ |- _ => destruct IH as [IH1 IHn] end. split.
    + intros ->. destruct (IH1 eq_refl) as [singles [E1 [E2 E3]]].
      exists (a :: singles). rewrite E1, <- app_assoc. split; [reflexivity |].
      split; [simpl; now rewrite E2 | constructor; [reflexivity | assumption]].
    + intros Hsk. destruct (IHn Hsk) as [oks [Hoks Hcases]].
      exists (a :: oks). split; [constructor; [split; reflexivity | exact Hoks] |].
      destruct Hcases as [[E1 E2] | [failed [e0 [remaining [singles [E1 [E2 [E3 [E4 [E5 E6]]]]]]]]]].
      * left. rewrite E1, <- app_assoc. split; [reflexivity |].
        simpl concat. rewrite E2. apply (firstn_skipn (Pos.to_nat sk) (op :: ops')).
      * right. exists failed, e0, remaining, singles.
        rewrite E1, <- app_assoc. split; [reflexivity |].
        split; [assumption |]. split; [assumption |].
        split; [| split; assumption].
        simpl concat. rewrite <- app_assoc, <- E4.
        symmetry. apply (firstn_skipn (Pos.to_nat sk) (op :: ops')).
  - clear Heqcall.
    match goal with H : context [(trace ++ [?x])%list] |- _ => set (a := x) in * end.
    match goal with IH : (_ -> _) /\ _ |- _ => destruct IH as [IH1 IHn] end. split.
    + intros ->. destruct (IH1 eq_refl) as [singles [E1 [E2 E3]]].
      exists (a :: singles). rewrite E1, <- app_assoc. split; [reflexivity |].
      split; [simpl; now rewrite E2 | constructor; [reflexivity | assumption]].
    + intros Hsk. exfalso. apply Hsk. now apply Pos.eqb_eq.
  - clear Heqcall.
    match goal with H : context [(trace ++ [?x])%list] |- _ => set (a := x) in * end.
    match goal with IH : (_ -> _) /\ _ |- _ => destruct IH as [IH1 IHn] end. split.
    + intros ->. discriminate.
    + intros Hsk. destruct (IH1 eq_refl) as [singles [E1 [E2 E3]]].
      exists []. split; [constructor |]. right.
      exists a, err, (skipn (Pos.to_nat sk) (op :: ops')), singles.
      rewrite E1, <- app_assoc. split; [reflexivity |].
      split; [reflexivity |]. split; [reflexivity |].
      split; [| split; assumption].
      symmetry. apply (firstn_skipn (Pos.to_nat sk) (op :: ops')).
Qed.

End UpdateProperties.

Lemma updateOnes_app (l1 l2 : list (Ref * Obj)) (c1 c2 : list BulkOp) :
  MongoAdapterBase.updateOnes l1 = Some c1 ->
  MongoAdapterBase.updateOnes l2 = Some c2 ->
  MongoAdapterBase.updateOnes (l1 ++ l2) = Some (c1 ++ c2)%list.
Proof.
  revert c1. induction l1 as [| it l1 IH]; intros c1; simpl.
  - intros [= <-]. auto.
  - destruct (MongoAdapterBase.updateOneOf it); [| discriminate].
    destruct (MongoAdapterBase.updateOnes l1) as [c1' |]; [| discriminate].
    intros [= <-] H2. now rewrite (IH c1' eq_refl H2).
Qed.

Lemma updateOnes_firstn_skipn (n : nat) (l : list (Ref * Obj)) (c : list BulkOp) :
  MongoAdapterBase.updateOnes l = Some c ->
  MongoAdapterBase.updateOnes (firstn n l) = Some (firstn n c)
  /\ MongoAdapterBase.updateOnes (skipn n l) = Some (skipn n c).
Proof.
  revert l c. induction n as [| n IH]; intros l c; simpl.
  - intros H. now split.
  - destruct l as [| it l]; simpl.
    + intros [= <-]. now split.
    + destruct (MongoAdapterBase.updateOneOf it); [| discriminate].
      destruct (MongoAdapterBase.updateOnes l) as [c' |] eqn:E; [| discriminate].
      intros [= <-]. destruct (IH l c' E) as [H1 H2]. simpl.
      rewrite H1. now split.
Qed.

Section RejectingProperties.

Variable Err : Type.
Variable malformed : BulkOp -> bool.
Variable errorOf : list BulkOp -> Err.
Variable typeError : Err.

Abbreviation rejectingLoop :=
  (MongoAdapterBase.updateLoop (list BulkOp) Err (rejecting Err malformed errorOf) typeError).

Lemma tryBulkWrite_rejecting (st : list BulkOp) (batch : list (Ref * Obj))
    (c : list BulkOp) :
  MongoAdapterBase.updateOnes batch = Some c ->
  MongoAdapterBase.tryBulkWrite (list BulkOp) Err (rejecting Err malformed errorOf)
    typeError st batch
  = ((st ++ filter (fun op => negb (malformed op)) c)%list,
     outcomeOf Err malformed errorOf c).
Proof.
  intros H. unfold MongoAdapterBase.tryBulkWrite. now rewrite H.
Qed.

Lemma In_good_split (n : nat) (c st : list BulkOp) (op : BulkOp) :
  (In op (st ++ filter (fun op => negb (malformed op)) (firstn n c))
   \/ In op (skipn n c) /\ malformed op = false)
  <-> (In op st \/ In op c /\ malformed op = false).
Proof.
  rewrite in_app_iff, filter_In, negb_true_iff.
  rewrite <- (firstn_skipn n c) at 3. rewrite in_app_iff. tauto.
Qed.

Lemma rejectingLoop_commits (sk : positive) (ops : list (Ref * Obj))
    (st : list BulkOp) (trace : list (MongoAdapterBase.Attempt Err))
    (compiled : list BulkOp) :
  MongoAdapterBase.updateOnes ops = Some compiled ->
  (forall op, In op (fst (rejectingLoop sk ops st trace))
              <-> In op st \/ (In op compiled /\ malformed op = false))
  /\ (faithful Err malformed errorOf trace
      -> faithful Err malformed errorOf (snd (rejectingLoop sk ops st trace))).
Proof.
  revert compiled.
  funelim (rejectingLoop sk ops st trace); intros compiled Hc; clear Heqcall;
    repeat match goal with
           | H : {| pr1 := _; pr2 := _ |} = _ |- _ => clear H
           end.
  - simpl in Hc. injection Hc as <-. split; [| auto].
    intros o. simpl. tauto.
  - destruct (updateOnes_firstn_skipn (Pos.to_nat sk) _ _ Hc) as [Hf Hs].
    rewrite (tryBulkWrite_rejecting _ _ _ Hf) in e. injection e as <- Hout.
    match goal with
    | IH : forall c, MongoAdapterBase.updateOnes _ = Some c -> _ |- _ =>
        destruct (IH _ Hs) as [Hin Hfaith]
    end. split.
    + intros o. rewrite Hin. apply In_good_split.
    + intros Ht. apply Hfaith. apply Forall_app. split; [exact Ht |].
      constructor; [| constructor]. simpl. intros c Hc'.
      rewrite Hf in Hc'. injection Hc' as <-. now symmetry.
  - destruct (updateOnes_firstn_skipn (Pos.to_nat sk) _ _ Hc) as [Hf Hs].
    rewrite (tryBulkWrite_rejecting _ _ _ Hf) in e. injection e as <- Hout.
    match goal with
    | IH : forall c, MongoAdapterBase.updateOnes _ = Some c -> _ |- _ =>
        destruct (IH _ Hs) as [Hin Hfaith]
    end. split.
    + intros o. rewrite Hin. apply In_good_split.
    + intros Ht. apply Hfaith. apply Forall_app. split; [exact Ht |].
      constructor; [| constructor]. simpl. intros c Hc'.
      rewrite Hf in Hc'. injection Hc' as <-. now symmetry.
  - destruct (updateOnes_firstn_skipn (Pos.to_nat sk) _ _ Hc) as [Hf Hs].
    rewrite (tryBulkWrite_rejecting _ _ _ Hf) in e. injection e as <- Hout.
    match goal with
    | IH : forall c, MongoAdapterBase.updateOnes _ = Some c -> _ |- _ =>
        destruct (IH _ (updateOnes_app _ _ _ _ Hs Hf)) as [Hin Hfaith]
    end. split.
    + intros o. rewrite Hin.
      pose proof (In_good_split (Pos.to_nat sk) compiled st o) as Hg.
      rewrite !in_app_iff, filter_In, negb_true_iff in *. tauto.
    + intros Ht. apply Hfaith. apply Forall_app. split; [exact Ht |].
      constructor; [| constructor]. simpl. intros c Hc'.
      rewrite Hf in Hc'. injection Hc' as <-. now symmetry.
Qed.

End RejectingProperties.

(** C3 (as amended).  On a backend that rejects malformed operations,
    [update] leaves every well-formed operation applied and no malformed
    one (nothing is rolled back); every attempt fails exactly when its
    batch holds a malformed operation, with the error the backend throws
    for it; and the attempts are batches of up to 500 that succeed,
    then either nothing more, or one batch that fails followed by one
    attempt of batch size one for every entry not yet tried and for every
    entry of the failed batch. *)
Theorem update_partial_failure (Err : Type) (malformed : BulkOp -> bool)
    (errorOf : list BulkOp -> Err) (typeError : Err)
    (operations : list (Ref * Obj)) (compiled : list BulkOp) :
  MongoAdapterBase.updateOnes operations = Some compiled ->
  let result :=
    MongoAdapterBase.update (list BulkOp) Err (rejecting Err malformed errorOf)
      typeError operations [] in
  (forall op, In op (fst result) <-> In op compiled /\ malformed op = false)
  /\ faithful Err malformed errorOf (snd result)
  /\ exists oks,
       Forall (fun a => MongoAdapterBase.caught Err a = None
                        /\ MongoAdapterBase.skip Err a = 500%positive) oks
       /\ ((snd result = oks
            /\ concat (map (MongoAdapterBase.part Err) oks) = operations)
           \/ exists failed e remaining singles,
                snd result = (oks ++ failed :: singles)%list
                /\ MongoAdapterBase.caught Err failed = Some e
                /\ MongoAdapterBase.skip Err failed = 500%positive
                /\ operations
                   = (concat (map (MongoAdapterBase.part Err) oks)
                      ++ MongoAdapterBase.part Err failed ++ remaining)%list
                /\ map (MongoAdapterBase.part Err) singles
                   = map single (remaining ++ MongoAdapterBase.part Err failed)
                /\ Forall (fun a => MongoAdapterBase.skip Err a = 1%positive) singles).
Proof.
  intros Hc result. subst result. unfold MongoAdapterBase.update.
  destruct (rejectingLoop_commits Err malformed errorOf typeError 500 operations [] []
              compiled Hc) as [Hin Hfaith].
  split; [| split].
  - intros op. rewrite Hin. simpl. tauto.
  - apply Hfaith. constructor.
  - destruct (updateLoop_shape (list BulkOp) Err (rejecting Err malformed errorOf)
                typeError 500 operations [] []) as [_ Hshape].
    apply Hshape. discriminate.
Qed.

Lemma update_partial_failure_witness :
  In (UpdateOne [("_id", VStr "a")]
        [("$set", VObj [("title", VStr "x"); ("%hash%", VNull)])])
     (fst (MongoAdapterBase.update (list BulkOp) WriteFailed
             (rejecting WriteFailed (malformedId "b") (fun _ => writeFailed))
             writeFailed
             [("a", [("title", VStr "x")]); ("b", [("title", VStr "y")]);
              ("c", [("title", VStr "z")])] []))
  /\ ~ In (UpdateOne [("_id", VStr "b")]
             [("$set", VObj [("title", VStr "y"); ("%hash%", VNull)])])
          (fst (MongoAdapterBase.update (list BulkOp) WriteFailed
                  (rejecting WriteFailed (malformedId "b") (fun _ => writeFailed))
                  writeFailed
                  [("a", [("title", VStr "x")]); ("b", [("title", VStr "y")]);
                   ("c", [("title", VStr "z")])] [])).
Proof.
  destruct (update_partial_failure WriteFailed (malformedId "b") (fun _ => writeFailed)
              writeFailed
              [("a", [("title", VStr "x")]); ("b", [("title", VStr "y")]);
               ("c", [("title", VStr "z")])]
              [UpdateOne [("_id", VStr "a")]
                 [("$set", VObj [("title", VStr "x"); ("%hash%", VNull)])];
               UpdateOne [("_id", VStr "b")]
                 [("$set", VObj [("title", VStr "y"); ("%hash%", VNull)])];
               UpdateOne [("_id", VStr "c")]
                 [("$set", VObj [("title", VStr "z"); ("%hash%", VNull)])]]
              eq_refl) as [Hin _].
  split.
  - apply Hin. split; [left; reflexivity | reflexivity].
  - intros H. apply Hin in H. destruct H as [_ H]. discriminate.
Defined.

(** Two runs over the same entries in which different records are
    malformed leave the same error log when the backend's error names no
    record: the log holds the error and the batch size, no identifier. *)
Lemma update_partial_failure_counterexample :
  exists operations compiled,
    MongoAdapterBase.updateOnes operations = Some compiled
    /\ map opId (filter (malformedId "a") compiled) = [VStr "a"]
    /\ map opId (filter (malformedId "b") compiled) = [VStr "b"]
    /\ MongoAdapterBase.errorLog WriteFailed
         (snd (MongoAdapterBase.update (list BulkOp) WriteFailed
                 (rejecting WriteFailed (malformedId "a") (fun _ => writeFailed))
                 writeFailed operations []))
       = [(writeFailed, 500%positive); (writeFailed, 1%positive)]
    /\ MongoAdapterBase.errorLog WriteFailed
         (snd (MongoAdapterBase.update (list BulkOp) WriteFailed
                 (rejecting WriteFailed (malformedId "b") (fun _ => writeFailed))
                 writeFailed operations []))
       = [(writeFailed, 500%positive); (writeFailed, 1%positive)].
Proof.
  exists [("a", [("title", VStr "x")]); ("b", [("title", VStr "y")])].
  eexists. split; [reflexivity |].
  repeat split; vm_compute; reflexivity.
Qed.

(** ** Hash metadata *)

Lemma hexValue_hexDigit (d : N) : (d < 16)%N -> hexValue (hexDigit d) = Some d.
Proof.
  intros H.
  assert (Hd : (d = 0 \/ d = 1 \/ d = 2 \/ d = 3 \/ d = 4 \/ d = 5 \/ d = 6 \/ d = 7
                \/ d = 8 \/ d = 9 \/ d = 10 \/ d = 11 \/ d = 12 \/ d = 13 \/ d = 14
                \/ d = 15)%N) by lia.
  repeat (destruct Hd as [-> | Hd]; [reflexivity |]). subst. reflexivity.
Qed.

Lemma string_append_assoc (s1 s2 s3 : string) : (s1 ++ s2) ++ s3 = s1 ++ (s2 ++ s3).
Proof. induction s1; simpl; [reflexivity | now rewrite IHs1]. Qed.

Lemma toHexDigits_acc (fuel : nat) (n : N) (acc : string) :
  toHexDigits fuel n acc = toHexDigits fuel n EmptyString ++ acc.
Proof.
  revert n acc. induction fuel as [| fuel IH]; intros n acc; simpl; [reflexivity |].
  destruct (n / 16 =? 0)%N; [reflexivity |].
  rewrite IH. rewrite (IH _ (String _ EmptyString)).
  rewrite string_append_assoc. reflexivity.
Qed.

Lemma hexVal_app (s1 s2 : string) (acc : N) :
  hexVal (s1 ++ s2) acc = hexVal s2 (hexVal s1 acc).
Proof.
  revert acc. induction s1 as [| c s1 IH]; intros acc; simpl; [reflexivity | apply IH].
Qed.

Lemma allHex_app (s1 s2 : string) : allHex s1 -> allHex s2 -> allHex (s1 ++ s2).
Proof.
  induction s1 as [| c s1 IH]; simpl; [auto |].
  intros [Hc H1] H2. split; [exact Hc | now apply IH].
Qed.

Lemma pow16_succ (k : nat) : (16 ^ N.of_nat (S k) = 16 * 16 ^ N.of_nat k)%N.
Proof. rewrite Nat2N.inj_succ, N.pow_succ_r'. reflexivity. Qed.

(** The digits written for [n] are hexadecimal digits, there is at least
    one, and they denote [n]. *)
Lemma toHexDigits_spec (fuel : nat) (n : N) :
  (n < 16 ^ N.of_nat (S fuel))%N ->
  allHex (toHexDigits (S fuel) n EmptyString)
  /\ toHexDigits (S fuel) n EmptyString <> EmptyString
  /\ hexVal (toHexDigits (S fuel) n EmptyString) 0 = n.
Proof.
  revert n. induction fuel as [| fuel IH]; intros n Hn;
    cbn [toHexDigits];
    assert (Hm : (n mod 16 < 16)%N) by (apply N.mod_lt; lia);
    pose proof (hexValue_hexDigit _ Hm) as Hd;
    pose proof (N.div_mod n 16) as Hdm;
    destruct (n / 16 =? 0)%N eqn:E.
  - apply N.eqb_eq in E. split; [| split].
    + simpl. rewrite Hd. split; [discriminate | exact I].
    + discriminate.
    + cbn [hexVal]. rewrite Hd. lia.
  - apply N.eqb_neq in E. exfalso. apply E.
    apply N.div_small. simpl in Hn. lia.
  - apply N.eqb_eq in E. split; [| split].
    + simpl. rewrite Hd. split; [discriminate | exact I].
    + discriminate.
    + cbn [hexVal]. rewrite Hd. lia.
  - assert (Hq : (n / 16 < 16 ^ N.of_nat (S fuel))%N).
    { rewrite pow16_succ in Hn. apply N.Div0.div_lt_upper_bound. exact Hn. }
    destruct (IH _ Hq) as [H1 [H2 H3]].
    change (if (n / 16 / 16 =? 0)%N
            then String (hexDigit ((n / 16) mod 16)) (String (hexDigit (n mod 16)) EmptyString)
            else toHexDigits fuel (n / 16 / 16)
                   (String (hexDigit ((n / 16) mod 16))
                      (String (hexDigit (n mod 16)) EmptyString)))
      with (toHexDigits (S fuel) (n / 16) (String (hexDigit (n mod 16)) EmptyString)).
    rewrite toHexDigits_acc. split; [| split].
    + apply allHex_app; [exact H1 |]. simpl. rewrite Hd. split; [discriminate | exact I].
    + destruct (toHexDigits (S fuel) (n / 16) EmptyString); [contradiction | discriminate].
    + rewrite hexVal_app, H3. cbn [hexVal]. rewrite Hd. lia.
Qed.

Lemma toString16_spec (n : N) :
  allHex (toString16 n)
  /\ toString16 n <> EmptyString
  /\ hexVal (toString16 n) 0 = n.
Proof.
  unfold toString16. apply toHexDigits_spec.
  rewrite Nat2N.inj_succ, N2Nat.id.
  destruct n as [| p]; [reflexivity |].
  pose proof (N.log2_spec (N.pos p) eq_refl) as [_ Hlt].
  eapply N.lt_le_trans; [exact Hlt |].
  apply N.pow_le_mono_l. lia.
Qed.

Lemma parseDigits_allHex (s : string) (acc : option N) :
  allHex s ->
  parseDigits s acc
  = match s with
    | EmptyString => acc
    | _ => Some (hexVal s match acc with
                          | Some a => a
                          | None => 0%N
                          end)
    end.
Proof.
  revert acc. induction s as [| c s IH]; intros acc; simpl; [reflexivity |].
  intros [Hc Hs]. destruct (hexValue c) as [d |]; [| contradiction].
  rewrite (IH _ Hs). destruct s; reflexivity.
Qed.

Lemma hexValue_not_blank (c : ascii) : hexValue c <> None -> isBlank c = false.
Proof.
  unfold hexValue, isBlank. set (n := N_of_ascii c).
  destruct (48 <=? n)%N eqn:E1, (n <=? 57)%N eqn:E2,
           (97 <=? n)%N eqn:E3, (n <=? 102)%N eqn:E4,
           (65 <=? n)%N eqn:E5, (n <=? 70)%N eqn:E6; simpl;
    intros H; try contradiction;
    rewrite ?N.leb_le, ?N.leb_gt in *;
    apply orb_false_iff; split;
    try (apply N.eqb_neq; lia);
    try (apply andb_false_iff;
         destruct (9 <=? n)%N eqn:E7; [right; apply N.leb_gt | left; reflexivity];
         lia).
Qed.

(** [parseInt] of a string of hexadecimal digits is the number they
    denote. *)
Lemma parseInt16_allHex (s : string) :
  allHex s -> s <> EmptyString -> parseInt16 s = Num (Z.of_N (hexVal s 0)).
Proof.
  intros Hs Hne. destruct s as [| c s]; [contradiction |].
  unfold parseInt16. simpl in Hs. destruct Hs as [Hc Hs].
  simpl trimStart. rewrite (hexValue_not_blank c Hc).
  destruct (Ascii.eqb c "-") eqn:E1.
  { apply Ascii.eqb_eq in E1. subst c. exfalso. now apply Hc. }
  destruct (Ascii.eqb c "+") eqn:E2.
  { apply Ascii.eqb_eq in E2. subst c. exfalso. now apply Hc. }
  assert (Hstrip : stripPrefix0x (String c s) = String c s).
  { unfold stripPrefix0x. destruct s as [| c2 s]; [reflexivity |].
    simpl in Hs. destruct Hs as [Hc2 _].
    destruct (Ascii.eqb c2 "x") eqn:E3.
    { apply Ascii.eqb_eq in E3. subst c2. exfalso. now apply Hc2. }
    destruct (Ascii.eqb c2 "X") eqn:E4.
    { apply Ascii.eqb_eq in E4. subst c2. exfalso. now apply Hc2. }
    now rewrite andb_false_r. }
  rewrite Hstrip.
  rewrite (parseDigits_allHex (String c s) None); [reflexivity |].
  simpl. now split.
Qed.

(** [parseInt(n.toString(16), 16)] is [n]. *)
Lemma parseInt16_toString16 (n : N) : parseInt16 (toString16 n) = Num (Z.of_N n).
Proof.
  destruct (toString16_spec n) as [H1 [H2 H3]].
  now rewrite parseInt16_allHex, H3.
Qed.

Lemma indexOf_append (c : ascii) (s1 s2 : string) :
  indexOf c s1 = None ->
  indexOf c (s1 ++ String c s2) = Some (String.length s1).
Proof.
  induction s1 as [| c1 s1 IH]; simpl.
  - intros _. now rewrite Ascii.eqb_refl.
  - destruct (Ascii.eqb c1 c); [discriminate |].
    destruct (indexOf c s1); [discriminate |].
    intros _. now rewrite IH.
Qed.

Lemma takeChars_append (s1 s2 : string) : takeChars (String.length s1) (s1 ++ s2) = s1.
Proof.
  induction s1 as [| c s1 IH]; simpl; [now destruct s2 | now rewrite IH].
Qed.

Lemma dropChars_append (c : ascii) (s1 s2 : string) :
  dropChars (S (String.length s1)) (s1 ++ String c s2) = s2.
Proof.
  induction s1 as [| c1 s1 IH]; simpl; [reflexivity | exact IH].
Qed.

(** The persisted [hash|size] metadata gives the hash and the size back
    when the hash holds no bar. *)
Lemma stamp_round_trip (digest : string) (n : N) :
  indexOf "|" digest = None ->
  hashPart (digest ++ "|" ++ toString16 n) = digest
  /\ parseInt16 (sizePart (digest ++ "|" ++ toString16 n)) = Num (Z.of_N n).
Proof.
  intros H. unfold hashPart, sizePart.
  change (digest ++ "|" ++ toString16 n) with (digest ++ String "|" (toString16 n)).
  rewrite (indexOf_append _ _ _ H).
  rewrite takeChars_append, dropChars_append. split; [reflexivity |].
  apply parseInt16_toString16.
Qed.

(** ** The hash iterator *)

Lemma mapSet_fresh {V : Type} (m : list (Ref * V)) (i : Ref) (v : V) :
  ~ In i (map fst m) -> mapSet m i v = (m ++ [(i, v)])%list.
Proof.
  induction m as [| [k w] m IH]; simpl; [reflexivity |].
  intros H. destruct (String.eqb k i) eqn:E.
  - apply String.eqb_eq in E. exfalso. apply H. now left.
  - rewrite IH; [reflexivity |]. intros Hin. apply H. now right.
Qed.

Lemma filter_partition_length {A : Type} (f : A -> bool) (l : list A) :
  List.length (filter f l) + List.length (filter (fun x => negb (f x)) l)
  = List.length l.
Proof.
  induction l as [| x l IH]; simpl; [reflexivity |].
  destruct (f x); simpl; lia.
Qed.

Lemma filter_partition_perm {A B : Type} (p : A -> bool) (f g : A -> B) (l : list A) :
  Permutation (map f (filter p l) ++ map g (filter (fun x => negb (p x)) l))
              (map (fun x => if p x then f x else g x) l).
Proof.
  induction l as [| x l IH]; simpl; [constructor |].
  destruct (p x); simpl.
  - now constructor.
  - etransitivity; [symmetry; apply Permutation_middle |]. now constructor.
Qed.

Lemma NoDup_ids_filter (f : Doc -> bool) (docs : list Doc) :
  NoDup (map _id docs) -> NoDup (map _id (filter f docs)).
Proof.
  induction docs as [| d docs IH]; simpl; [auto |].
  intros H. inversion H as [| x l Hnin Hnd]; subst.
  destruct (f d); simpl; [| now apply IH].
  constructor; [| now apply IH].
  intros Hin. apply Hnin. apply in_map_iff in Hin. destruct Hin as [d' [E Hd']].
  apply filter_In in Hd'. apply in_map_iff. exists d'. now split.
Qed.

Section HashIteratorProperties.

Variable calculateHash : option (Doc -> string).
Variable sha256Base64 : Doc -> string.
Variable estimateDocSize : Doc -> N.

Abbreviation visit := (MongoAdapterBase.visit calculateHash sha256Base64 estimateDocSize).
Abbreviation next := (MongoAdapterBase.next calculateHash sha256Base64 estimateDocSize).
Abbreviation drain := (MongoAdapterBase.drain calculateHash sha256Base64 estimateDocSize).
Abbreviation iterateHashes :=
  (MongoAdapterBase.iterateHashes calculateHash sha256Base64 estimateDocSize).
Abbreviation hasHash := MongoAdapterBase.hasHash.
Abbreviation setHash := MongoAdapterBase.setHash.
Abbreviation withCursor := MongoAdapterBase.withCursor.
Abbreviation coll := MongoAdapterBase.coll.
Abbreviation mode := MongoAdapterBase.mode.
Abbreviation iterator := MongoAdapterBase.iterator.
Abbreviation bulkUpdate := MongoAdapterBase.bulkUpdate.
Abbreviation digests := MongoAdapterBase.digests.
Abbreviation stamp := (stamp calculateHash sha256Base64 estimateDocSize).
Abbreviation stampAll := (stampAll calculateHash sha256Base64 estimateDocSize).
Abbreviation computedInfo := (computedInfo calculateHash sha256Base64 estimateDocSize).
Abbreviation infoOf := (infoOf calculateHash sha256Base64 estimateDocSize).
Abbreviation persisted := (persisted calculateHash sha256Base64 estimateDocSize).

Lemma flush_pending (force : bool) (st : MongoAdapterBase.Iter) :
  pending (MongoAdapterBase.flush force st) = pending st
  /\ mode (MongoAdapterBase.flush force st) = mode st
  /\ iterator (MongoAdapterBase.flush force st) = iterator st
  /\ digests (MongoAdapterBase.flush force st) = digests st
  /\ (forall i, In i (map fst (bulkUpdate (MongoAdapterBase.flush force st))) ->
                In i (map fst (bulkUpdate st))).
Proof.
  unfold MongoAdapterBase.flush.
  destruct (Nat.ltb 1000 (List.length (bulkUpdate st)) || force); simpl.
  - repeat split; try reflexivity. intros i [].
  - repeat split; auto.
Qed.

Lemma visit_info (st : MongoAdapterBase.Iter) (d : Doc) :
  snd (visit st d) = infoOf d.
Proof.
  unfold MongoAdapterBase.visit, infoOf.
  destruct (hash d) as [| | [| c s]]; reflexivity.
Qed.

Lemma visit_hashed (st : MongoAdapterBase.Iter) (d : Doc) :
  hasHash d = true -> fst (visit st d) = st.
Proof.
  unfold MongoAdapterBase.visit, MongoAdapterBase.hasHash.
  destruct (hash d) as [| | [| c s]]; try discriminate. reflexivity.
Qed.

Lemma visit_unhashed (st : MongoAdapterBase.Iter) (d : Doc) :
  hasHash d = false ->
  ~ In (_id d) (map fst (bulkUpdate st)) ->
  pending (fst (visit st d)) = setHash (pending st) (_id d) (HStr (stamp d))
  /\ digests (fst (visit st d)) = S (digests st)
  /\ iterator (fst (visit st d)) = iterator st
  /\ mode (fst (visit st d)) = mode st
  /\ (forall i, In i (map fst (bulkUpdate (fst (visit st d)))) ->
                In i (map fst (bulkUpdate st)) \/ i = _id d)
  /\ infoOf d = computedInfo d.
Proof.
  intros Hh Hfresh.
  assert (Hvisit : visit st d
                   = (MongoAdapterBase.flush false
                        {| MongoAdapterBase.coll := coll st;
                           MongoAdapterBase.mode := mode st;
                           MongoAdapterBase.iterator := iterator st;
                           MongoAdapterBase.bulkUpdate :=
                             mapSet (bulkUpdate st) (_id d) (stamp d);
                           MongoAdapterBase.digests := S (digests st) |},
                      computedInfo d)
                   /\ infoOf d = computedInfo d).
  { unfold MongoAdapterBase.visit, MongoAdapterBase.hasHash, infoOf in *.
    destruct (hash d) as [| | [| c s]]; try discriminate; split; reflexivity. }
  destruct Hvisit as [Hvisit Hinfo].
  rewrite (mapSet_fresh _ _ _ Hfresh) in Hvisit. rewrite Hvisit. simpl fst.
  match goal with |- context [MongoAdapterBase.flush false ?s] => set (st1 := s) end.
  destruct (flush_pending false st1) as [Hp [Hm [Hi [Hd Hk]]]].
  rewrite Hp, Hm, Hi, Hd. subst st1. unfold pending. simpl.
  unfold MongoAdapterBase.writeHashes. rewrite fold_left_app. simpl.
  repeat split; try reflexivity; [| exact Hinfo].
  intros i Hin. apply Hk in Hin. simpl in Hin.
  rewrite map_app, in_app_iff in Hin. simpl in Hin.
  destruct Hin as [Hin | [Hin | []]]; [now left | now right].
Qed.

Lemma next_cons (st : MongoAdapterBase.Iter) (d : Doc) (cursor : list Doc) :
  iterator st = Some (d :: cursor) ->
  next false st = (fst (visit (withCursor st (mode st) cursor) d), Some (infoOf d)).
Proof.
  intros H. unfold MongoAdapterBase.next. rewrite H. cbv zeta iota beta. rewrite H.
  rewrite (surjective_pairing (visit _ d)), visit_info. reflexivity.
Qed.

Lemma next_exhausted (st : MongoAdapterBase.Iter) :
  iterator st = Some [] -> mode st = MongoAdapterBase.NonHashed ->
  next false st = (st, None).
Proof.
  intros H Hm. unfold MongoAdapterBase.next. rewrite H. cbv zeta iota beta.
  rewrite H, Hm. reflexivity.
Qed.

Lemma next_switch (st : MongoAdapterBase.Iter) :
  iterator st = Some [] -> mode st = MongoAdapterBase.Hashed ->
  next false st
  = match filter noHash (coll st) with
    | d :: cursor =>
        (fst (visit (withCursor st MongoAdapterBase.NonHashed cursor) d), Some (infoOf d))
    | [] => (withCursor st MongoAdapterBase.NonHashed [], None)
    end.
Proof.
  intros H Hm. unfold MongoAdapterBase.next. rewrite H. cbv zeta iota beta.
  rewrite H, Hm. change (fun d => negb (hasHash d)) with noHash.
  destruct (filter noHash (coll st)) as [| d cursor]; [reflexivity |].
  rewrite (surjective_pairing (visit _ d)), visit_info. reflexivity.
Qed.

Lemma setHash_other (d : Doc) (docs : list Doc) (i : Ref) (v : HashField) :
  _id d <> i -> setHash (d :: docs) i v = d :: setHash docs i v.
Proof.
  intros H. simpl. apply String.eqb_neq in H. now rewrite H.
Qed.

Lemma stampAll_cons (u : Doc) (cursor docs : list Doc) :
  stampAll (u :: cursor) docs = stampAll cursor (setHash docs (_id u) (HStr (stamp u))).
Proof. reflexivity. Qed.

Lemma stampAll_cons_other (d : Doc) (cursor docs : list Doc) :
  (forall u, In u cursor -> _id u <> _id d) ->
  stampAll cursor (d :: docs) = d :: stampAll cursor docs.
Proof.
  revert docs d. induction cursor as [| u cursor IH]; intros docs d H; [reflexivity |].
  rewrite !stampAll_cons.
  rewrite setHash_other by (intros E; apply (H u); [now left | now symmetry]).
  apply IH. intros u' Hu'. apply H. now right.
Qed.

Lemma persisted_id (d : Doc) : _id (persisted d) = _id d.
Proof. unfold persisted. now destruct (hasHash d). Qed.

Lemma nonEmpty_append (s1 s2 : string) : nonEmpty s2 = true -> nonEmpty (s1 ++ s2) = true.
Proof. destruct s1; simpl; auto. Qed.

Lemma persisted_hasHash (d : Doc) : hasHash (persisted d) = true.
Proof.
  unfold persisted. destruct (hasHash d) eqn:E; [exact E |].
  unfold MongoAdapterBase.hasHash. simpl. unfold stamp. now apply nonEmpty_append.
Qed.

(** Flushing the hashes computed for the documents without one leaves
    the collection with every document persisted. *)
Lemma stampAll_persisted (docs : list Doc) :
  NoDup (map _id docs) ->
  stampAll (filter noHash docs) docs = map persisted docs.
Proof.
  induction docs as [| d docs IH]; [reflexivity |].
  intros H. inversion H as [| x l Hnin Hnd]; subst.
  assert (Hother : forall u, In u (filter noHash docs) -> _id u <> _id d).
  { intros u Hu E. apply Hnin. rewrite <- E. apply in_map.
    apply filter_In in Hu. tauto. }
  simpl filter. simpl map. unfold noHash at 1, persisted at 1.
  destruct (hasHash d) eqn:E; simpl negb; cbv iota.
  - rewrite stampAll_cons_other by assumption. now rewrite IH.
  - rewrite stampAll_cons. simpl setHash. rewrite String.eqb_refl.
    rewrite stampAll_cons_other by assumption. now rewrite IH.
Qed.

(** Phase 2: every document of the cursor has its hash computed and
    yielded; once flushed, the collection holds the computed values. *)
Lemma drain_nonhashed (cursor : list Doc) (fuel : nat) (st : MongoAdapterBase.Iter) :
  iterator st = Some cursor ->
  mode st = MongoAdapterBase.NonHashed ->
  Forall (fun d => hasHash d = false) cursor ->
  NoDup (map _id cursor) ->
  (forall i, In i (map fst (bulkUpdate st)) -> ~ In i (map _id cursor)) ->
  List.length cursor < fuel ->
  exists st',
    drain false fuel st = Some (map computedInfo cursor, st')
    /\ pending st' = stampAll cursor (pending st)
    /\ digests st' = digests st + List.length cursor.
Proof.
  revert fuel st. induction cursor as [| d cursor IH]; intros fuel st Hit Hm Hun Hnd Hk Hf.
  - destruct fuel as [| fuel]; [simpl in Hf; lia |].
    exists st. simpl. rewrite (next_exhausted st Hit Hm).
    repeat split. simpl. lia.
  - destruct fuel as [| fuel]; [simpl in Hf; lia |].
    inversion Hun as [| x l Hd Hun']; subst.
    inversion Hnd as [| x l Hnin Hnd']; subst.
    cbn [MongoAdapterBase.drain]. rewrite (next_cons st d cursor Hit).
    set (st0 := withCursor st (mode st) cursor).
    assert (Hfresh : ~ In (_id d) (map fst (bulkUpdate st0))).
    { intros Hin. apply (Hk _ Hin). now left. }
    destruct (visit_unhashed st0 d Hd Hfresh) as [Hp [Hdg [Hi [Hmo [Hkeys Hinfo]]]]].
    destruct (IH fuel (fst (visit st0 d))) as [st' [Hdr [Hp' Hd']]].
    + rewrite Hi. reflexivity.
    + rewrite Hmo. exact Hm.
    + exact Hun'.
    + exact Hnd'.
    + intros i Hin Hc. destruct (Hkeys _ Hin) as [Hin' | ->].
      * apply (Hk _ Hin'). now right.
      * contradiction.
    + simpl in Hf. lia.
    + exists st'. rewrite Hdr, Hinfo. split; [reflexivity |]. split.
      * rewrite Hp', Hp. reflexivity.
      * rewrite Hd', Hdg. simpl. lia.
Qed.

Lemma infoOf_hashOnly (d : Doc) : infoOf (MongoAdapterBase.hashOnly d) = infoOf d \/ hasHash d = false.
Proof.
  unfold infoOf, MongoAdapterBase.hasHash. simpl.
  destruct (hash d) as [| | [| c s]]; auto.
Qed.

(** Phase 1, then phase 2 over the documents without a hash. *)
Lemma drain_hashed (cursor : list Doc) (fuel : nat) (st : MongoAdapterBase.Iter) :
  iterator st = Some cursor ->
  mode st = MongoAdapterBase.Hashed ->
  Forall (fun d => hasHash d = true) cursor ->
  bulkUpdate st = [] ->
  NoDup (map _id (coll st)) ->
  List.length cursor + List.length (filter noHash (coll st)) < fuel ->
  exists st',
    drain false fuel st
    = Some ((map infoOf cursor ++ map computedInfo (filter noHash (coll st)))%list, st')
    /\ pending st' = stampAll (filter noHash (coll st)) (coll st)
    /\ digests st' = digests st + List.length (filter noHash (coll st)).
Proof.
  revert fuel st. induction cursor as [| d cursor IH]; intros fuel st Hit Hm Hh Hbu Hnd Hf.
  - destruct fuel as [| fuel]; [simpl in Hf; lia |].
    cbn [MongoAdapterBase.drain]. rewrite (next_switch st Hit Hm).
    pose proof (NoDup_ids_filter noHash _ Hnd) as Hnd'.
    assert (Hun : Forall (fun d => hasHash d = false) (filter noHash (coll st))).
    { apply Forall_forall. intros d Hd. apply filter_In in Hd.
      destruct Hd as [_ Hd]. unfold noHash in Hd. now apply negb_true_iff in Hd. }
    destruct (filter noHash (coll st)) as [| d rest] eqn:EU.
    + exists (withCursor st MongoAdapterBase.NonHashed []).
      split; [reflexivity |]. split; [| simpl; lia].
      unfold pending. simpl. now rewrite Hbu.
    + inversion Hun as [| x l Hd Hun']; subst.
      inversion Hnd' as [| x l Hnin Hnd'']; subst.
      set (st0 := withCursor st MongoAdapterBase.NonHashed rest).
      assert (Hfresh : ~ In (_id d) (map fst (bulkUpdate st0))).
      { simpl. rewrite Hbu. intros []. }
      destruct (visit_unhashed st0 d Hd Hfresh) as [Hp [Hdg [Hi [Hmo [Hkeys Hinfo]]]]].
      destruct (drain_nonhashed rest fuel (fst (visit st0 d))) as [st' [Hdr [Hp' Hd']]].
      * rewrite Hi. reflexivity.
      * rewrite Hmo. reflexivity.
      * exact Hun'.
      * exact Hnd''.
      * intros i Hin Hc. destruct (Hkeys _ Hin) as [Hin' | ->].
        -- simpl in Hin'. rewrite Hbu in Hin'. destruct Hin'.
        -- contradiction.
      * simpl in Hf. lia.
      * exists st'. rewrite Hdr, Hinfo. split; [reflexivity |]. split.
        -- rewrite Hp', Hp. rewrite stampAll_cons. unfold pending. simpl.
           now rewrite Hbu.
        -- rewrite Hd', Hdg. simpl. lia.
  - destruct fuel as [| fuel]; [simpl in Hf; lia |].
    inversion Hh as [| x l Hd Hh']; subst.
    cbn [MongoAdapterBase.drain]. rewrite (next_cons st d cursor Hit).
    rewrite (visit_hashed _ d Hd).
    destruct (IH fuel (withCursor st (mode st) cursor)) as [st' [Hdr [Hp' Hd']]];
      try assumption; try reflexivity.
    + simpl in *. lia.
    + exists st'. simpl coll in *. rewrite Hdr. split; [reflexivity |].
      split; [exact Hp' | exact Hd'].
Qed.

End HashIteratorProperties.

Section HashIteratorRuns.

Variable calculateHash : option (Doc -> string).
Variable sha256Base64 : Doc -> string.
Variable estimateDocSize : Doc -> N.

Abbreviation iterateHashes :=
  (MongoAdapterBase.iterateHashes calculateHash sha256Base64 estimateDocSize).
Abbreviation hasHash := MongoAdapterBase.hasHash.
Abbreviation computedInfo := (computedInfo calculateHash sha256Base64 estimateDocSize).
Abbreviation infoOf := (infoOf calculateHash sha256Base64 estimateDocSize).
Abbreviation persisted := (persisted calculateHash sha256Base64 estimateDocSize).

(** One run without recheck: the documents with a hash are yielded from
    their metadata, the others have their hash computed; afterwards every
    document is persisted, and as many digests were computed as there
    were documents without a hash. *)
Lemma iterateHashes_run (docs : list Doc) (fuel : nat) :
  NoDup (map _id docs) ->
  List.length docs < fuel ->
  iterateHashes false fuel docs
  = Some ((map infoOf (filter hasHash docs)
           ++ map computedInfo (filter noHash docs))%list,
          map persisted docs,
          List.length (filter noHash docs)).
Proof.
  intros Hnd Hf. unfold MongoAdapterBase.iterateHashes.
  set (init := {| MongoAdapterBase.coll := docs;
                  MongoAdapterBase.mode := MongoAdapterBase.Hashed;
                  MongoAdapterBase.iterator :=
                    Some (map MongoAdapterBase.hashOnly (filter hasHash docs));
                  MongoAdapterBase.bulkUpdate := [];
                  MongoAdapterBase.digests := 0 |}).
  assert (Hinit : MongoAdapterBase.drain calculateHash sha256Base64 estimateDocSize
                    false fuel (MongoAdapterBase.find docs)
                  = MongoAdapterBase.drain calculateHash sha256Base64 estimateDocSize
                      false fuel init).
  { destruct fuel; reflexivity. }
  rewrite Hinit.
  destruct (drain_hashed calculateHash sha256Base64 estimateDocSize
              (map MongoAdapterBase.hashOnly (filter hasHash docs)) fuel init)
    as [st' [Hdr [Hp Hd]]]; try reflexivity.
  - apply Forall_forall. intros d Hd. apply in_map_iff in Hd.
    destruct Hd as [d' [<- Hd']]. apply filter_In in Hd'. tauto.
  - exact Hnd.
  - simpl. rewrite length_map.
    pose proof (filter_partition_length hasHash docs) as Hlen.
    change (fun x => negb (hasHash x)) with noHash in Hlen. lia.
  - rewrite Hdr. simpl in Hp, Hd.
    assert (Hmap : map infoOf (map MongoAdapterBase.hashOnly (filter hasHash docs))
                   = map infoOf (filter hasHash docs)).
    { rewrite map_map. apply map_ext_in. intros d Hd'. apply filter_In in Hd'.
      destruct (infoOf_hashOnly calculateHash sha256Base64 estimateDocSize d) as [E | E];
        [exact E | destruct Hd' as [_ Hd']; congruence]. }
    rewrite Hmap.
    assert (Hclose : MongoAdapterBase.coll (MongoAdapterBase.close st') = pending st'
                     /\ MongoAdapterBase.digests (MongoAdapterBase.close st')
                        = MongoAdapterBase.digests st').
    { unfold MongoAdapterBase.close, MongoAdapterBase.flush, pending.
      rewrite orb_true_r. split; reflexivity. }
    destruct Hclose as [-> ->].
    rewrite Hp, Hd.
    now rewrite (stampAll_persisted calculateHash sha256Base64 estimateDocSize docs Hnd).
Qed.

(** C9 (as amended).  When identifiers are unique and no computed digest
    holds a bar, two runs without recheck, each closed, with enough
    calls of [next] to exhaust them: the first leaves every document with
    a non-empty hash; the second computes no digest, leaves the
    collection as it is, yields every document from its persisted
    metadata, and yields the same values as the first run, up to their
    order; and the metadata persisted for a computed hash gives the hash
    and the size back. *)
Theorem iterateHashes_idempotent (docs : list Doc) (fuel : nat) :
  NoDup (map _id docs) ->
  (forall d, indexOf "|" (MongoAdapterBase.digestOf calculateHash sha256Base64 d) = None) ->
  List.length docs < fuel ->
  exists infos1 docs1 computed infos2,
    iterateHashes false fuel docs = Some (infos1, docs1, computed)
    /\ iterateHashes false fuel docs1 = Some (infos2, docs1, 0)
    /\ Forall (fun d => hasHash d = true) docs1
    /\ infos2 = map infoOf docs1
    /\ Permutation infos1 infos2
    /\ (forall d, In d docs -> hasHash d = false ->
          exists d1, In d1 docs1
            /\ _id d1 = _id d
            /\ hash d1 = HStr (stamp calculateHash sha256Base64 estimateDocSize d)
            /\ infoOf d1 = computedInfo d).
Proof.
  intros Hnd Hbar Hf.
  set (docs1 := map persisted docs).
  assert (Hids : map _id docs1 = map _id docs).
  { subst docs1. rewrite map_map. apply map_ext. intros d.
    apply (persisted_id calculateHash sha256Base64 estimateDocSize). }
  assert (Hall : forall d, In d docs1 -> hasHash d = true).
  { subst docs1. intros d Hd. apply in_map_iff in Hd. destruct Hd as [d' [<- _]].
    apply (persisted_hasHash calculateHash sha256Base64 estimateDocSize). }
  assert (Hfilter : filter hasHash docs1 = docs1 /\ filter noHash docs1 = []).
  { clear Hids. induction docs1 as [| d l IH]; [now split |].
    simpl. unfold noHash at 1. rewrite (Hall d) by now left. simpl.
    destruct IH as [-> ->]; [intros; apply Hall; now right | now split]. }
  destruct Hfilter as [Hf1 Hf2].
  assert (Hround : forall d, hasHash d = false -> infoOf (persisted d) = computedInfo d).
  { intros d Hd. unfold persisted, infoOf. rewrite Hd. simpl.
    unfold stamp.
    destruct (stamp_round_trip
                (MongoAdapterBase.digestOf calculateHash sha256Base64
                   (stripped d))
                (estimateDocSize (stripped d)) (Hbar _)) as [E1 E2].
    destruct (MongoAdapterBase.digestOf calculateHash sha256Base64 (stripped d)
              ++ "|" ++ toString16 (estimateDocSize (stripped d))) eqn:Es.
    - destruct (MongoAdapterBase.digestOf calculateHash sha256Base64 (stripped d));
        discriminate.
    - unfold storedInfo, computedInfo. simpl. now rewrite E1, E2. }
  exists (map infoOf (filter hasHash docs) ++ map computedInfo (filter noHash docs))%list,
         docs1, (List.length (filter noHash docs)), (map infoOf docs1).
  split; [now apply iterateHashes_run |]. split.
  { rewrite (iterateHashes_run docs1 fuel).
    - rewrite Hf1, Hf2. simpl. rewrite app_nil_r.
      assert (Hfix : map persisted docs1 = docs1).
      { rewrite <- (map_id docs1) at 2. apply map_ext_in. intros d Hd.
        unfold persisted. now rewrite (Hall d Hd). }
      now rewrite Hfix.
    - now rewrite Hids.
    - subst docs1. now rewrite length_map. }
  split; [now apply Forall_forall |]. split; [reflexivity |]. split.
  - subst docs1. rewrite map_map.
    etransitivity; [apply (filter_partition_perm hasHash infoOf computedInfo docs) |].
    apply Permutation_refl'. apply map_ext_in. intros d _.
    destruct (hasHash d) eqn:E.
    + unfold persisted. now rewrite E.
    + symmetry. now apply Hround.
  - intros d Hd Hun. exists (persisted d). split; [now apply in_map |].
    split; [apply (persisted_id calculateHash sha256Base64 estimateDocSize) |].
    split; [unfold persisted; now rewrite Hun | now apply Hround].
Qed.

End HashIteratorRuns.

Lemma iterateHashes_idempotent_witness :
  exists infos1 docs1 computed infos2,
    MongoAdapterBase.iterateHashes (Some (fun _ => "q83vEw==")) (fun _ => "") (fun _ => 300%N)
      false 3
      [{| _id := "a"; hash := HNull; fields := [("title", VStr "x")] |};
       {| _id := "b"; hash := HStr "zz|1f"; fields := [] |}]
    = Some (infos1, docs1, computed)
    /\ MongoAdapterBase.iterateHashes (Some (fun _ => "q83vEw==")) (fun _ => "")
         (fun _ => 300%N) false 3 docs1
       = Some (infos2, docs1, 0)
    /\ Permutation infos1 infos2.
Proof.
  destruct (iterateHashes_idempotent (Some (fun _ => "q83vEw==")) (fun _ => "")
              (fun _ => 300%N)
              [{| _id := "a"; hash := HNull; fields := [("title", VStr "x")] |};
               {| _id := "b"; hash := HStr "zz|1f"; fields := [] |}] 3)
    as [infos1 [docs1 [computed [infos2 [H1 [H2 [_ [_ [H5 _]]]]]]]]].
  - repeat constructor; simpl; intuition discriminate.
  - intros d. reflexivity.
  - simpl. lia.
  - exists infos1, docs1, computed, infos2. split; [exact H1 |]. split; [exact H2 | exact H5].
Defined.

(** With a digest that holds a bar the second run does not yield what
    the first run yielded: the hash is cut at the bar and the size is
    read from what follows it. *)
Lemma iterateHashes_idempotent_counterexample :
  exists docs docs1 info1 info2,
    MongoAdapterBase.iterateHashes (Some (fun _ => "a|b")) (fun _ => "") (fun _ => 10%N)
      false 2 docs
    = Some ([info1], docs1, 1)
    /\ MongoAdapterBase.iterateHashes (Some (fun _ => "a|b")) (fun _ => "")
         (fun _ => 10%N) false 2 docs1
       = Some ([info2], docs1, 0)
    /\ MongoAdapterBase.hashOf info1 = "a|b"
    /\ MongoAdapterBase.size info1 = Num 10
    /\ MongoAdapterBase.hashOf info2 = "a"
    /\ MongoAdapterBase.size info2 = Num 11.
Proof.
  exists [{| _id := "x"; hash := HNull; fields := [] |}].
  do 3 eexists. repeat split; reflexivity.
Qed.

(** ** Further properties of the compiler, the bulk update and the metadata *)

Lemma lookupProp_app (a b : Obj) (k : string) :
  lookupProp (a ++ b)%list k
  = match lookupProp a k with
    | Some v => Some v
    | None => lookupProp b k
    end.
Proof.
  induction a as [| [k' v'] a IH]; simpl; [reflexivity |].
  now destruct (String.eqb k' k).
Qed.

Lemma setProp_fresh (o : Obj) (k : string) (v : Value) :
  lookupProp o k = None -> setProp o k v = (o ++ [(k, v)])%list.
Proof.
  induction o as [| [k' v'] o IH]; simpl; [reflexivity |].
  destruct (String.eqb k' k); [discriminate |].
  intros H. now rewrite IH.
Qed.

Lemma lookupProp_None (o : Obj) (k : string) :
  lookupProp o k = None <-> ~ In k (map fst o).
Proof.
  induction o as [| [k' v'] o IH]; simpl; [tauto |].
  destruct (String.eqb k' k) eqn:E.
  - apply String.eqb_eq in E. split; [discriminate | tauto].
  - apply String.eqb_neq in E. tauto.
Qed.

Lemma keys_setProp (o : Obj) (k k' : string) (v : Value) :
  In k' (map fst (setProp o k v)) <-> k' = k \/ In k' (map fst o).
Proof.
  induction o as [| [k0 v0] o IH]; simpl.
  - intuition congruence.
  - destruct (String.eqb k0 k) eqn:E; simpl.
    + apply String.eqb_eq in E. subst k0. intuition congruence.
    + rewrite IH. intuition congruence.
Qed.

Lemma distinctKeys_setProp (o : Obj) (k : string) (v : Value) :
  distinctKeys o -> distinctKeys (setProp o k v).
Proof.
  unfold distinctKeys.
  induction o as [| [k0 v0] o IH]; simpl; intros H.
  - repeat constructor. intros [].
  - inversion H as [| ? ? Hnot Hnd]; subst.
    destruct (String.eqb k0 k) eqn:E; simpl.
    + apply String.eqb_eq in E. subst k0. now constructor.
    + apply String.eqb_neq in E. constructor; [| now apply IH].
      rewrite keys_setProp. intros [-> | Hin]; [now apply E | now apply Hnot].
Qed.

Lemma distinctKeys_spread (a b : Obj) : distinctKeys a -> distinctKeys (spread a b).
Proof.
  unfold spread. revert a.
  induction b as [| [k v] b IH]; simpl; intros a H; [exact H |].
  apply IH. now apply distinctKeys_setProp.
Qed.

(** Spreading an object with distinct keys into one that has none of them
    appends it. *)
Lemma spread_fresh (a b : Obj) :
  distinctKeys b ->
  (forall k, In k (map fst b) -> lookupProp a k = None) ->
  spread a b = (a ++ b)%list.
Proof.
  unfold spread, distinctKeys. revert a.
  induction b as [| [k v] b IH]; simpl; intros a Hnd Hfresh.
  - now rewrite app_nil_r.
  - inversion Hnd as [| ? ? Hnot Hnd']; subst.
    rewrite setProp_fresh by (apply Hfresh; now left).
    rewrite IH; [now rewrite <- app_assoc | exact Hnd' |].
    intros k' Hin. rewrite lookupProp_app, Hfresh by now right.
    simpl. destruct (String.eqb k k') eqn:E; [| reflexivity].
    apply String.eqb_eq in E. subst k'. contradiction.
Qed.

Lemma spread_nil (o : Obj) : distinctKeys o -> spread [] o = o.
Proof. intros H. now rewrite spread_fresh. Qed.

Section HashInvalidation.

Variable h : Hierarchy.
Variable isOperator : Obj -> bool.
Variable createDoc2Doc : TxCUD -> Obj -> Obj.

Lemma txUpdateDoc_nulls_hash (cud : TxCUD) (operations : Obj) (retrieve : bool)
    (bulk : OperationBulk) :
  distinctKeys operations ->
  MongoAdapter.txUpdateDoc h isOperator MongoAdapter.emptyBulk cud operations retrieve
  = Some bulk ->
  writes (MongoAdapter.applyBulk bulk) <> []
  /\ forallb nullsHash (writes (MongoAdapter.applyBulk bulk)) = true.
Proof using.
  clear createDoc2Doc.
  intros Hkeys. unfold MongoAdapter.txUpdateDoc.
  destruct (isOperator operations).
  - destruct (String.eqb _ "$move").
    + destruct (getProp operations "$move") as [| | | | | | [| [arr desc] ?]];
        try discriminate.
      destruct desc; try discriminate; intros H; injection H as <-;
        (split; [discriminate | reflexivity]).
    + destruct (String.eqb _ "$update").
      * destruct (getProp operations "$update") as [| | | | | | [| [arr desc] ?]];
          try discriminate.
        destruct desc; try discriminate;
          destruct (entriesOf _); try discriminate;
          destruct (entriesOf _); try discriminate;
          intros H; injection H as <-;
          (split; [discriminate |]); simpl; unfold setsHashNull; simpl;
          now rewrite lookupProp_setProp_same.
      * destruct retrieve; intros H; injection H as <-;
          (split; [discriminate |]); simpl; unfold setsHashNull;
          now rewrite getProp_setProp_same.
  - intros H. injection H as <-.
    destruct retrieve; (split; [discriminate |]);
      unfold MongoAdapter.mergeUpdate; simpl;
      rewrite spread_nil by (repeat apply distinctKeys_setProp; exact Hkeys);
      unfold setsHashNull; simpl; now rewrite lookupProp_setProp_same.
Qed.

(** X1.  Every write compiled for a create or an update transaction with a
    delta of distinct keys, alone or carried by a collection transaction,
    leaves the document with a [null] [%hash%], and there is at least one
    such write. *)
Theorem create_update_null_hash (t : Tx) (ws : list Write) :
  createsOrUpdates t ->
  groupWrites h isOperator createDoc2Doc [t] = Some ws ->
  ws <> [] /\ forallb nullsHash ws = true.
Proof.
  unfold groupWrites. simpl.
  destruct (MongoAdapter.updateBulk h isOperator createDoc2Doc MongoAdapter.emptyBulk t)
    as [bulk |] eqn:Hbulk; [| discriminate].
  intros Ht Hws. injection Hws as <-. revert Ht bulk Hbulk.
  induction t as [cud attributes | cud collection inner IH | cud operations retrieve
                  | cud | cud mixin attributes | | other];
    simpl; intros Ht bulk Hbulk; try contradiction.
  - injection Hbulk as <-. split; [discriminate |].
    simpl. unfold translateDoc. now rewrite lookupProp_setProp_same.
  - destruct inner; try contradiction.
    + injection Hbulk as <-. split; [discriminate |].
      simpl. unfold translateDoc. now rewrite lookupProp_setProp_same.
    + now apply IH.
    + now apply IH.
  - now apply (txUpdateDoc_nulls_hash cud operations retrieve).
Qed.

End HashInvalidation.

Lemma create_update_null_hash_witness :
  exists ws,
    groupWrites exampleHierarchy exampleIsOperator exampleCreateDoc2Doc
      [TxUpdateDoc exampleCud [("title", VStr "x")] false] = Some ws
    /\ ws <> []
    /\ forallb nullsHash ws = true.
Proof.
  eexists. split; [reflexivity |].
  apply (create_update_null_hash exampleHierarchy exampleIsOperator
           exampleCreateDoc2Doc
           (TxUpdateDoc exampleCud [("title", VStr "x")] false)).
  - simpl. unfold distinctKeys. simpl. repeat constructor. intros [].
  - reflexivity.
Defined.

(** X2.  Whatever the backend does, the bulk update returns, and its
    attempts are batches of 500 that succeed, then either nothing more, or
    one batch that fails followed by one attempt of batch size one for every
    entry not yet tried and for every entry of the failed batch: a failed
    batch is retried once, entry by entry, and a failure at batch size one
    is not retried. *)
Theorem update_attempts (Store Err : Type)
    (bulkWrite : Store -> list BulkOp -> Store * option Err) (typeError : Err)
    (operations : list (Ref * Obj)) (st : Store) :
  let result := MongoAdapterBase.update Store Err bulkWrite typeError operations st in
  exists oks,
    Forall (fun a => MongoAdapterBase.caught Err a = None
                     /\ MongoAdapterBase.skip Err a = 500%positive) oks
    /\ ((snd result = oks
         /\ concat (map (MongoAdapterBase.part Err) oks) = operations)
        \/ exists failed e remaining singles,
             snd result = (oks ++ failed :: singles)%list
             /\ MongoAdapterBase.caught Err failed = Some e
             /\ MongoAdapterBase.skip Err failed = 500%positive
             /\ operations
                = (concat (map (MongoAdapterBase.part Err) oks)
                   ++ MongoAdapterBase.part Err failed ++ remaining)%list
             /\ map (MongoAdapterBase.part Err) singles
                = map single (remaining ++ MongoAdapterBase.part Err failed)
             /\ Forall (fun a => MongoAdapterBase.skip Err a = 1%positive) singles).
Proof.
  intros result. subst result. unfold MongoAdapterBase.update.
  destruct (updateLoop_shape Store Err bulkWrite typeError 500 operations st [])
    as [_ Hshape].
  apply Hshape. discriminate.
Qed.

Lemma sentinel_not_modified (mixin : string) (k : string) :
  String.length k = 10 ->
  (forall c1 c2, k <> String c1 (String c2 ".__mixin")) ->
  k <> mixin ++ "." ++ "__mixin".
Proof.
  intros Hlen Hk E.
  assert (Hl : String.length k = String.length mixin + 8)
    by (rewrite E, string_length_append; reflexivity).
  rewrite Hlen in Hl.
  destruct mixin as [| c1 [| c2 [| c3 m]]]; simpl in Hl; try lia.
  now apply (Hk c1 c2).
Qed.

(** X3.  A mixin-apply whose delta is empty and is no operator still
    writes one field, the sentinel [__mixin] under the mixin, together
    with the modification fields. *)
Theorem txMixin_empty_sentinel (h : Hierarchy) (isOperator : Obj -> bool)
    (createDoc2Doc : TxCUD -> Obj -> Obj) (cud : TxCUD) (mixin : Ref) :
  isOperator [] = false ->
  groupWrites h isOperator createDoc2Doc [TxMixin cud mixin []]
  = Some [WBulk (UpdateOne [("_id", VStr (objectId cud))]
                   [("$set", VObj [(mixin ++ "." ++ "__mixin", VStr "true");
                                   ("modifiedBy", modifiedBy cud);
                                   ("modifiedOn", modifiedOn cud)])])].
Proof.
  intros Hop. unfold groupWrites. simpl. unfold MongoAdapter.txMixin.
  rewrite Hop. simpl.
  assert (H1 : String.eqb (mixin ++ "." ++ "__mixin") "modifiedBy" = false).
  { apply String.eqb_neq. intros E. symmetry in E. revert E.
    apply sentinel_not_modified; [reflexivity | discriminate]. }
  assert (H2 : String.eqb (mixin ++ "." ++ "__mixin") "modifiedOn" = false).
  { apply String.eqb_neq. intros E. symmetry in E. revert E.
    apply sentinel_not_modified; [reflexivity | discriminate]. }
  simpl in H1, H2. unfold MongoAdapter.mergeUpdate, spread.
  repeat (simpl; rewrite ?H1, ?H2). reflexivity.
Qed.

Lemma txMixin_empty_sentinel_witness :
  groupWrites exampleHierarchy exampleIsOperator exampleCreateDoc2Doc
    [TxMixin exampleCud "M" []]
  = Some [WBulk (UpdateOne [("_id", VStr "doc1")]
                   [("$set", VObj [("M.__mixin", VStr "true");
                                   ("modifiedBy", modifiedBy exampleCud);
                                   ("modifiedOn", modifiedOn exampleCud)])])].
Proof.
  apply (txMixin_empty_sentinel exampleHierarchy exampleIsOperator
           exampleCreateDoc2Doc exampleCud "M").
  reflexivity.
Defined.

(** ** Compaction of the flat updates of a batch *)

Lemma lookupProp_deleteProp_other (o : Obj) (k k' : string) :
  k <> k' -> lookupProp (deleteProp o k) k' = lookupProp o k'.
Proof.
  intros Hne. induction o as [| [k0 v0] o IH]; simpl; [reflexivity |].
  destruct (String.eqb k0 k) eqn:E; simpl.
  - apply String.eqb_eq in E. subst k0.
    destruct (String.eqb k k') eqn:E'; [| exact IH].
    apply String.eqb_eq in E'. contradiction.
  - now rewrite IH.
Qed.

(** [{ ...a, ...b }] reads a key from [b] when [b] has it, from [a]
    otherwise. *)
Lemma lookupProp_spread (a b : Obj) (k : string) :
  distinctKeys b ->
  lookupProp (spread a b) k
  = match lookupProp b k with
    | Some v => Some v
    | None => lookupProp a k
    end.
Proof.
  unfold spread, distinctKeys. revert a.
  induction b as [| [k0 v0] b IH]; simpl; intros a Hnd; [reflexivity |].
  inversion Hnd as [| ? ? Hnot Hnd']; subst.
  rewrite IH by exact Hnd'.
  destruct (String.eqb k0 k) eqn:E.
  - apply String.eqb_eq in E. subst k0.
    apply lookupProp_None in Hnot. rewrite Hnot.
    apply lookupProp_setProp_same.
  - apply String.eqb_neq in E.
    now rewrite lookupProp_setProp_other.
Qed.

Lemma mapSet_keys {V : Type} (m : list (Ref * V)) (i x : Ref) (v : V) :
  In x (map fst (mapSet m i v)) <-> x = i \/ In x (map fst m).
Proof.
  induction m as [| [k w] m IH]; simpl.
  - intuition congruence.
  - destruct (String.eqb k i) eqn:E; simpl.
    + apply String.eqb_eq in E. subst k. intuition congruence.
    + rewrite IH. intuition congruence.
Qed.

Lemma mapSet_NoDup {V : Type} (m : list (Ref * V)) (i : Ref) (v : V) :
  NoDup (map fst m) -> NoDup (map fst (mapSet m i v)).
Proof.
  induction m as [| [k w] m IH]; simpl; intros H.
  - repeat constructor. intros [].
  - inversion H as [| ? ? Hnot Hnd]; subst.
    destruct (String.eqb k i) eqn:E; simpl.
    + apply String.eqb_eq in E. subst k. now constructor.
    + apply String.eqb_neq in E. constructor; [| now apply IH].
      rewrite mapSet_keys. intros [-> | Hin]; [now apply E | now apply Hnot].
Qed.

Lemma setAdd_NoDup (s : list Ref) (i : Ref) : NoDup s -> NoDup (setAdd s i).
Proof.
  intros H. unfold setAdd. destruct (inStrings i s) eqn:E; [exact H |].
  assert (Hnot : ~ In i s).
  { intros Hin. apply inStrings_In in Hin. congruence. }
  clear E. induction s as [| x s IH]; simpl.
  - repeat constructor. intros [].
  - inversion H as [| ? ? Hx Hs]; subst. constructor.
    + rewrite in_app_iff. simpl. intros [Hin | [-> | []]]; [now apply Hx |].
      apply Hnot. now left.
    + apply IH; [exact Hs |]. intros Hin. apply Hnot. now right.
Qed.

Section Compaction.

Variable h : Hierarchy.
Variable isOperator : Obj -> bool.
Variable createDoc2Doc : TxCUD -> Obj -> Obj.

Lemma mergeUpdate_keyedOnce (bulk : OperationBulk) (i : Ref) (entries : Obj) :
  keyedOnce bulk -> keyedOnce (MongoAdapter.mergeUpdate bulk i entries).
Proof.
  intros [Hu Hf]. split; simpl; [now apply mapSet_NoDup | exact Hf].
Qed.

Lemma txUpdateDoc_keyedOnce (bulk bulk' : OperationBulk) (cud : TxCUD)
    (operations : Obj) (retrieve : bool) :
  keyedOnce bulk ->
  MongoAdapter.txUpdateDoc h isOperator bulk cud operations retrieve = Some bulk' ->
  keyedOnce bulk'.
Proof using.
  clear createDoc2Doc.
  intros Hk. unfold MongoAdapter.txUpdateDoc.
  destruct (isOperator operations).
  - destruct (String.eqb _ "$move").
    + destruct (getProp operations "$move") as [| | | | | | [| [arr desc] ?]];
        try discriminate.
      destruct desc; try discriminate; intros [= <-]; exact Hk.
    + destruct (String.eqb _ "$update").
      * destruct (getProp operations "$update") as [| | | | | | [| [arr desc] ?]];
          try discriminate.
        destruct desc; try discriminate;
          destruct (entriesOf _); try discriminate;
          destruct (entriesOf _); try discriminate;
          intros [= <-]; exact Hk.
      * destruct retrieve; intros [= <-]; exact Hk.
  - intros [= <-].
    pose proof (mergeUpdate_keyedOnce bulk (objectId cud)
                  (spread operations
                     [("modifiedBy", modifiedBy cud); ("modifiedOn", modifiedOn cud);
                      ("%hash%", VNull)]) Hk) as [Hu Hf].
    destruct retrieve; split; simpl; try assumption.
    now apply setAdd_NoDup.
Qed.

Lemma txMixin_keyedOnce (bulk bulk' : OperationBulk) (cud : TxCUD) (mixin : Ref)
    (attributes : Obj) :
  keyedOnce bulk ->
  MongoAdapter.txMixin isOperator bulk cud mixin attributes = Some bulk' ->
  keyedOnce bulk'.
Proof using.
  clear h createDoc2Doc.
  intros Hk. unfold MongoAdapter.txMixin.
  destruct (isOperator attributes).
  - destruct (match attributes with
              | [] => None
              | (operator, keyval) :: _ =>
                  if String.eqb operator "$move" then Some keyval else None
              end) as [keyval |].
    + destruct keyval as [| | | | | | [| [k0 v0] kv]]; try discriminate.
      destruct (getProp _ _); try discriminate; intros [= <-]; exact Hk.
    + destruct (MongoAdapter.translateMixinAttrs mixin (VObj attributes));
        [| discriminate].
      intros [= <-]. exact Hk.
  - destruct (MongoAdapter.translateMixinAttrs mixin (VObj attributes));
      [| discriminate].
    intros [= <-]. now apply mergeUpdate_keyedOnce.
Qed.

Lemma updateBulk_keyedOnce (t : Tx) (bulk bulk' : OperationBulk) :
  keyedOnce bulk ->
  MongoAdapter.updateBulk h isOperator createDoc2Doc bulk t = Some bulk' ->
  keyedOnce bulk'.
Proof.
  intros Hk.
  induction t as [cud attributes | cud collection inner IH | cud operations retrieve
                  | cud | cud mixin attributes | | c]; simpl.
  - intros [= <-]. exact Hk.
  - destruct inner; try exact IH. intros [= <-]. exact Hk.
  - now apply txUpdateDoc_keyedOnce.
  - intros [= <-]. exact Hk.
  - now apply txMixin_keyedOnce.
  - intros [= <-]. exact Hk.
  - intros [= <-]. exact Hk.
Qed.

(** X4.  However many flat updates and mixin-applies of a group target
    one document, the merged field-set batch compiled for the group has
    one entry for it, and it is fetched back once: the identifiers of the
    merged field sets are pairwise distinct, and so are those of the
    read-after-write fetches. *)
Theorem tx_group_keyed_once (txs : list Tx) (bulk : OperationBulk) :
  MongoAdapter.updateBulkAll h isOperator createDoc2Doc MongoAdapter.emptyBulk txs
  = Some bulk ->
  keyedOnce bulk
  /\ NoDup (map opId (fieldSetOps (update bulk))).
Proof.
  assert (Hgen : forall b b',
            keyedOnce b ->
            MongoAdapter.updateBulkAll h isOperator createDoc2Doc b txs = Some b' ->
            keyedOnce b').
  { induction txs as [| t txs IH]; simpl; intros b b' Hk.
    - now intros [= <-].
    - destruct (MongoAdapter.updateBulk h isOperator createDoc2Doc b t) as [b1 |] eqn:E;
        [| discriminate].
      apply IH. now apply (updateBulk_keyedOnce t b). }
  intros H.
  assert (Hk : keyedOnce bulk).
  { apply (Hgen MongoAdapter.emptyBulk); [| exact H]. split; constructor. }
  split; [exact Hk |].
  destruct Hk as [Hu _]. unfold fieldSetOps. rewrite map_map. simpl.
  revert Hu. generalize (update bulk). intros m.
  induction m as [| [i o] m IH]; simpl; intros Hnd; [constructor |].
  inversion Hnd as [| ? ? Hnot Hnd']; subst. constructor; [| now apply IH].
  intros Hin. apply Hnot. apply in_map_iff in Hin.
  destruct Hin as [[i' o'] [Heq Hin]]. simpl in Heq. injection Heq as ->.
  apply in_map_iff. now exists (i, o').
Qed.

End Compaction.
Section FlatUpdates.

Variable h : Hierarchy.
Variable isOperator : Obj -> bool.
Variable createDoc2Doc : TxCUD -> Obj -> Obj.

Lemma touched_distinct (cud : TxCUD) :
  distinctKeys [("modifiedBy", modifiedBy cud); ("modifiedOn", modifiedOn cud);
                ("%hash%", VNull)].
Proof.
  unfold distinctKeys. simpl.
  repeat constructor; simpl; intuition discriminate.
Qed.

(** X5.  Two flat updates of one document in a group are compacted into
    one field-set write in which the later update wins: a field set by
    both has the value of the second, a field set by one of them has that
    value, the modification fields are those of the second, and [%hash%]
    is [null]. *)
Theorem flat_updates_last_wins (cud1 cud2 : TxCUD) (ops1 ops2 : Obj) :
  objectId cud1 = objectId cud2 ->
  isOperator ops1 = false ->
  isOperator ops2 = false ->
  distinctKeys ops1 ->
  distinctKeys ops2 ->
  exists merged,
    groupWrites h isOperator createDoc2Doc
      [TxUpdateDoc cud1 ops1 false; TxUpdateDoc cud2 ops2 false]
    = Some [WBulk (UpdateOne [("_id", VStr (objectId cud1))] [("$set", VObj merged)])]
    /\ lookupProp merged "modifiedBy" = Some (modifiedBy cud2)
    /\ lookupProp merged "modifiedOn" = Some (modifiedOn cud2)
    /\ lookupProp merged "%hash%" = Some VNull
    /\ (forall k, k <> "modifiedBy" -> k <> "modifiedOn" -> k <> "%hash%" ->
          lookupProp merged k
          = match lookupProp ops2 k with
            | Some v => Some v
            | None => lookupProp ops1 k
            end).
Proof.
  intros Hid Hop1 Hop2 Hk1 Hk2.
  set (e1 := spread ops1 [("modifiedBy", modifiedBy cud1); ("modifiedOn", modifiedOn cud1);
                          ("%hash%", VNull)]).
  set (e2 := spread ops2 [("modifiedBy", modifiedBy cud2); ("modifiedOn", modifiedOn cud2);
                          ("%hash%", VNull)]).
  assert (Hd1 : distinctKeys e1) by now apply distinctKeys_spread.
  assert (Hd2 : distinctKeys e2) by now apply distinctKeys_spread.
  exists (spread e1 e2). split.
  - unfold groupWrites. cbn [MongoAdapter.updateBulkAll MongoAdapter.updateBulk].
    unfold MongoAdapter.txUpdateDoc at 1. rewrite Hop1.
    unfold MongoAdapter.mergeUpdate at 1. cbn [update MongoAdapter.emptyBulk mapGet mapSet].
    fold e1. rewrite (spread_nil e1 Hd1).
    unfold MongoAdapter.txUpdateDoc. rewrite Hop2.
    unfold MongoAdapter.mergeUpdate. cbn [update add bulkOperations findUpdate raw
                                          MongoAdapter.emptyBulk mapGet mapSet].
    rewrite <- Hid, String.eqb_refl. fold e2.
    reflexivity.
  - assert (Hl : forall cud ops k,
              lookupProp (spread ops [("modifiedBy", modifiedBy cud);
                                      ("modifiedOn", modifiedOn cud); ("%hash%", VNull)]) k
              = if String.eqb "modifiedBy" k then Some (modifiedBy cud)
                else if String.eqb "modifiedOn" k then Some (modifiedOn cud)
                else if String.eqb "%hash%" k then Some VNull
                else lookupProp ops k).
    { intros cud ops k. rewrite lookupProp_spread by apply touched_distinct.
      cbn [lookupProp]. destruct (String.eqb "modifiedBy" k); [reflexivity |].
      destruct (String.eqb "modifiedOn" k); [reflexivity |].
      now destruct (String.eqb "%hash%" k). }
    repeat split.
    + rewrite lookupProp_spread by exact Hd2. unfold e2. now rewrite Hl.
    + rewrite lookupProp_spread by exact Hd2. unfold e2. now rewrite Hl.
    + rewrite lookupProp_spread by exact Hd2. unfold e2. now rewrite Hl.
    + intros k H1 H2 H3.
      rewrite lookupProp_spread by exact Hd2. unfold e1, e2. rewrite !Hl.
      apply not_eq_sym in H1, H2, H3.
      apply String.eqb_neq in H1, H2, H3. now rewrite H1, H2, H3.
Qed.

(** X6.  A create carried by a collection transaction is inserted with
    the attachment of the carrier: the attributes handed to
    [createDoc2Doc] have [attachedTo], [attachedToClass] and [collection]
    of the collection transaction, whatever the create said for them, and
    its other attributes as given; the document is inserted with a [null]
    [%hash%]. *)
Theorem collection_create_attached (cud createCud : TxCUD) (collection : string)
    (attributes : Obj) :
  exists attrs,
    groupWrites h isOperator createDoc2Doc
      [TxCollectionCUD cud collection (TxCreateDoc createCud attributes)]
    = Some [WInsert (translateDoc (createDoc2Doc createCud attrs))]
    /\ lookupProp attrs "attachedTo" = Some (VStr (objectId cud))
    /\ lookupProp attrs "attachedToClass" = Some (VStr (objectClass cud))
    /\ lookupProp attrs "collection" = Some (VStr collection)
    /\ (forall k, k <> "attachedTo" -> k <> "attachedToClass" -> k <> "collection" ->
          lookupProp attrs k = lookupProp attributes k)
    /\ nullsHash (WInsert (translateDoc (createDoc2Doc createCud attrs))) = true.
Proof.
  eexists. split; [reflexivity |].
  unfold spread. simpl fold_left.
  repeat split.
  - rewrite !lookupProp_setProp_other by discriminate. apply lookupProp_setProp_same.
  - rewrite lookupProp_setProp_other by discriminate. apply lookupProp_setProp_same.
  - apply lookupProp_setProp_same.
  - intros k H1 H2 H3. now rewrite !lookupProp_setProp_other by now apply not_eq_sym.
  - simpl. unfold translateDoc. now rewrite lookupProp_setProp_same.
Qed.

End FlatUpdates.

(** ** The operations [update] compiles *)

Lemma pruneUnset_keeps (set u : Obj) (k : string) :
  lookupProp u k <> Some (VStr "") ->
  lookupProp (MongoAdapterBase.pruneUnset u set) k <> Some (VStr "").
Proof.
  unfold MongoAdapterBase.pruneUnset. revert u.
  induction set as [| [k0 v0] set IH]; simpl; intros u Hu; [exact Hu |].
  apply IH.
  destruct (getProp u k0) as [| | | | s | |]; try exact Hu.
  destruct s; [| exact Hu].
  destruct (String.eqb k0 k) eqn:E.
  - apply String.eqb_eq in E. subst k0. now rewrite lookupProp_deleteProp_same.
  - apply String.eqb_neq in E. now rewrite lookupProp_deleteProp_other.
Qed.

Lemma pruneUnset_pruned (set u : Obj) (k : string) :
  In k (map fst set) ->
  lookupProp (MongoAdapterBase.pruneUnset u set) k <> Some (VStr "").
Proof.
  revert u. induction set as [| [k0 v0] set IH]; simpl; intros u Hin; [contradiction |].
  destruct Hin as [-> | Hin].
  - change (lookupProp
              (MongoAdapterBase.pruneUnset
                 (match getProp u k with
                  | VStr EmptyString => deleteProp u k
                  | _ => u
                  end) set) k <> Some (VStr "")).
    apply pruneUnset_keeps.
    unfold getProp. destruct (lookupProp u k) as [v |] eqn:E.
    + destruct v as [| | | | s | |]; try (rewrite E; discriminate).
      destruct s; [now rewrite lookupProp_deleteProp_same | rewrite E; discriminate].
    + rewrite E. discriminate.
  - now apply IH.
Qed.

Lemma keys_deleteProp (o : Obj) (k k' : string) :
  k <> k' -> In k' (map fst o) -> In k' (map fst (deleteProp o k)).
Proof.
  intros Hne. induction o as [| [k0 v0] o IH]; simpl; [tauto |].
  destruct (String.eqb k0 k) eqn:E; simpl.
  - apply String.eqb_eq in E. subst k0. intros [-> | H]; [contradiction | now apply IH].
  - intros [-> | H]; [now left | right; now apply IH].
Qed.

(** X7.  The [updateOne] that [update] compiles for an entry selects the
    document by its identifier; its [$set] holds the fields of the entry
    as given and [%hash%] as [null]; a field of the entry that [$unset]
    lists with the empty string is not unset; and without [$unset] in the
    entry the operation has none. *)
Theorem updateOneOf_compiled (it : Ref * Obj) (op : BulkOp) :
  MongoAdapterBase.updateOneOf it = Some op ->
  exists upd s,
    op = UpdateOne [("_id", VStr (fst it))] upd
    /\ getProp upd "$set" = VObj s
    /\ lookupProp s "%hash%" = Some VNull
    /\ (forall k, k <> "$unset" -> k <> "%hash%" ->
          lookupProp s k = lookupProp (snd it) k)
    /\ (forall u k, getProp upd "$unset" = VObj u ->
          k <> "$unset" -> hasProp (snd it) k = true ->
          lookupProp u k <> Some (VStr ""))
    /\ (getProp (snd it) "$unset" = VUndefined -> hasProp upd "$unset" = false).
Proof.
  unfold MongoAdapterBase.updateOneOf.
  set (set := deleteProp (snd it) "$unset").
  assert (Hs : lookupProp (setProp set "%hash%" VNull) "%hash%" = Some VNull)
    by apply lookupProp_setProp_same.
  assert (Hf : forall k, k <> "$unset" -> k <> "%hash%" ->
                 lookupProp (setProp set "%hash%" VNull) k = lookupProp (snd it) k).
  { intros k H1 H2. rewrite lookupProp_setProp_other by now apply not_eq_sym.
    apply lookupProp_deleteProp_other. now apply not_eq_sym. }
  destruct (getProp (snd it) "$unset") as [| | b | n | s | xs | u0] eqn:Hun;
    [| destruct set eqn:Hset; [| discriminate] | | | | |];
    intros [= <-]; do 2 eexists;
    (split; [reflexivity |]); (split; [reflexivity |]);
    (split; [exact Hs |]); (split; [exact Hf |]);
    (split; [| intros H; try discriminate H; reflexivity]);
    intros u k Hu; try discriminate Hu.
  injection Hu as <-. intros Hk Hhas.
  apply pruneUnset_pruned. apply keys_deleteProp; [now apply not_eq_sym |].
  unfold hasProp in Hhas. destruct (lookupProp (snd it) k) eqn:E; [| discriminate].
  destruct (in_dec string_dec k (map fst (snd it))) as [Hin | Hnot]; [exact Hin |].
  apply lookupProp_None in Hnot. congruence.
Qed.
(** ** The hash iterator: buffering and recheck *)

Lemma mapSet_length {V : Type} (m : list (Ref * V)) (i : Ref) (v : V) :
  List.length (mapSet m i v) <= S (List.length m).
Proof.
  induction m as [| [k w] m IH]; simpl; [lia |].
  destruct (String.eqb k i); simpl; lia.
Qed.

Section HashIteratorBuffer.

Variable calculateHash : option (Doc -> string).
Variable sha256Base64 : Doc -> string.
Variable estimateDocSize : Doc -> N.

Lemma visit_buffer_bound (st : MongoAdapterBase.Iter) (d : Doc) :
  List.length (MongoAdapterBase.bulkUpdate st) <= 1000 ->
  List.length (MongoAdapterBase.bulkUpdate
                 (fst (MongoAdapterBase.visit calculateHash sha256Base64
                         estimateDocSize st d))) <= 1000.
Proof.
  intros H. unfold MongoAdapterBase.visit.
  assert (Hcomputed :
    forall dg,
      List.length
        (MongoAdapterBase.bulkUpdate
           (MongoAdapterBase.flush false
              {| MongoAdapterBase.coll := MongoAdapterBase.coll st;
                 MongoAdapterBase.mode := MongoAdapterBase.mode st;
                 MongoAdapterBase.iterator := MongoAdapterBase.iterator st;
                 MongoAdapterBase.bulkUpdate :=
                   mapSet (MongoAdapterBase.bulkUpdate st) (_id d) dg;
                 MongoAdapterBase.digests := S (MongoAdapterBase.digests st) |}))
      <= 1000).
  { intros dg. unfold MongoAdapterBase.flush.
    cbn [MongoAdapterBase.bulkUpdate].
    pose proof (mapSet_length (MongoAdapterBase.bulkUpdate st) (_id d) dg) as Hl.
    rewrite orb_false_r.
    destruct (Nat.ltb 1000 _) eqn:E; cbn [MongoAdapterBase.bulkUpdate].
    - simpl. lia.
    - apply Nat.ltb_ge in E. exact E. }
  destruct (hash d) as [| | [| c s]]; cbn [fst]; try apply Hcomputed.
  exact H.
Qed.

(** X8.  The hashes computed by the iterator are buffered and written in
    bulk: after any call of [next] the buffer holds at most 1000 values,
    the write being made as soon as it would hold more. *)
Theorem next_buffer_bound (recheck : bool) (st : MongoAdapterBase.Iter) :
  List.length (MongoAdapterBase.bulkUpdate st) <= 1000 ->
  List.length (MongoAdapterBase.bulkUpdate
                 (fst (MongoAdapterBase.next calculateHash sha256Base64
                         estimateDocSize recheck st))) <= 1000.
Proof.
  intros H. unfold MongoAdapterBase.next.
  set (st0 := match MongoAdapterBase.iterator st with
              | Some _ => st
              | None => _
              end).
  assert (H0 : List.length (MongoAdapterBase.bulkUpdate st0) <= 1000).
  { subst st0. destruct (MongoAdapterBase.iterator st); exact H. }
  clearbody st0.
  assert (Hv : forall m cursor d,
            List.length
              (MongoAdapterBase.bulkUpdate
                 (fst (let '(st', info) :=
                         MongoAdapterBase.visit calculateHash sha256Base64 estimateDocSize
                           (MongoAdapterBase.withCursor st0 m cursor) d in
                       (st', Some info)))) <= 1000).
  { intros m cursor d.
    pose proof (visit_buffer_bound (MongoAdapterBase.withCursor st0 m cursor) d H0) as Hb.
    destruct (MongoAdapterBase.visit _ _ _ _ _). exact Hb. }
  destruct (match MongoAdapterBase.iterator st0 with
            | Some c => c
            | None => []
            end) as [| d cursor'].
  - destruct (MongoAdapterBase.mode st0).
    + destruct (filter _ _) as [| d cursor']; [exact H0 | apply Hv].
    + exact H0.
  - apply Hv.
Qed.

Lemma next_opened (recheck : bool) (st : MongoAdapterBase.Iter) :
  MongoAdapterBase.iterator st <> None ->
  MongoAdapterBase.next calculateHash sha256Base64 estimateDocSize recheck st
  = MongoAdapterBase.next calculateHash sha256Base64 estimateDocSize false st.
Proof.
  intros H. unfold MongoAdapterBase.next.
  destruct (MongoAdapterBase.iterator st); [reflexivity | contradiction].
Qed.

Lemma visit_iterator (st : MongoAdapterBase.Iter) (d : Doc) :
  MongoAdapterBase.iterator
    (fst (MongoAdapterBase.visit calculateHash sha256Base64 estimateDocSize st d))
  = MongoAdapterBase.iterator st.
Proof.
  unfold MongoAdapterBase.visit, MongoAdapterBase.flush.
  destruct (hash d) as [| | [| c s]]; cbn [fst MongoAdapterBase.bulkUpdate];
    try reflexivity;
    destruct (_ || _); reflexivity.
Qed.

Lemma next_iterator (recheck : bool) (st : MongoAdapterBase.Iter) :
  MongoAdapterBase.iterator
    (fst (MongoAdapterBase.next calculateHash sha256Base64 estimateDocSize recheck st))
  <> None.
Proof.
  unfold MongoAdapterBase.next.
  set (st0 := match MongoAdapterBase.iterator st with
              | Some _ => st
              | None => _
              end).
  assert (H0 : MongoAdapterBase.iterator st0 <> None).
  { subst st0. destruct (MongoAdapterBase.iterator st) eqn:E; [congruence | discriminate]. }
  clearbody st0.
  assert (Hv : forall m cursor d,
            MongoAdapterBase.iterator
              (fst (let '(st', info) :=
                      MongoAdapterBase.visit calculateHash sha256Base64 estimateDocSize
                        (MongoAdapterBase.withCursor st0 m cursor) d in
                    (st', Some info))) <> None).
  { intros m cursor d.
    pose proof (visit_iterator (MongoAdapterBase.withCursor st0 m cursor) d) as Hb.
    destruct (MongoAdapterBase.visit _ _ _ _ _). cbn [fst] in *. rewrite Hb. discriminate. }
  destruct (match MongoAdapterBase.iterator st0 with
            | Some c => c
            | None => []
            end) as [| d cursor'].
  - destruct (MongoAdapterBase.mode st0).
    + destruct (filter _ _) as [| d cursor']; [discriminate | apply Hv].
    + exact H0.
  - apply Hv.
Qed.

Lemma drain_opened (recheck : bool) (fuel : nat) (st : MongoAdapterBase.Iter) :
  MongoAdapterBase.iterator st <> None ->
  MongoAdapterBase.drain calculateHash sha256Base64 estimateDocSize recheck fuel st
  = MongoAdapterBase.drain calculateHash sha256Base64 estimateDocSize false fuel st.
Proof.
  revert st. induction fuel as [| fuel IH]; intros st H; [reflexivity |].
  cbn [MongoAdapterBase.drain]. rewrite (next_opened recheck st H).
  pose proof (next_iterator false st) as Hn.
  destruct (MongoAdapterBase.next _ _ _ false st) as [st' [info |]]; [| reflexivity].
  cbn [fst] in Hn. now rewrite IH.
Qed.

(** A run with recheck is a run without it over the collection with its
    hashes reset. *)
Lemma iterateHashes_recheck_reset (fuel : nat) (docs : list Doc) :
  MongoAdapterBase.iterateHashes calculateHash sha256Base64 estimateDocSize true fuel docs
  = MongoAdapterBase.iterateHashes calculateHash sha256Base64 estimateDocSize false fuel
      (MongoAdapterBase.resetHashes docs).
Proof.
  unfold MongoAdapterBase.iterateHashes.
  destruct fuel as [| fuel]; [reflexivity |].
  cbn [MongoAdapterBase.drain].
  assert (Hn : MongoAdapterBase.next calculateHash sha256Base64 estimateDocSize true
                 (MongoAdapterBase.find docs)
               = MongoAdapterBase.next calculateHash sha256Base64 estimateDocSize false
                   (MongoAdapterBase.find (MongoAdapterBase.resetHashes docs)))
    by reflexivity.
  rewrite Hn.
  pose proof (next_iterator false
                (MongoAdapterBase.find (MongoAdapterBase.resetHashes docs))) as Hit.
  destruct (MongoAdapterBase.next _ _ _ false _) as [st' [info |]]; [| reflexivity].
  cbn [fst] in Hit. now rewrite drain_opened.
Qed.

Lemma resetHashes_noHash (docs : list Doc) :
  filter noHash (MongoAdapterBase.resetHashes docs) = MongoAdapterBase.resetHashes docs
  /\ filter MongoAdapterBase.hasHash (MongoAdapterBase.resetHashes docs) = [].
Proof.
  assert (Hall : forall d, In d (MongoAdapterBase.resetHashes docs) ->
                   MongoAdapterBase.hasHash d = false).
  { intros d Hd. apply in_map_iff in Hd. destruct Hd as [d0 [<- _]].
    unfold MongoAdapterBase.hasHash.
    destruct (hash d0) eqn:E; simpl; rewrite ?E; reflexivity. }
  induction (MongoAdapterBase.resetHashes docs) as [| d l IH]; [now split |].
  cbn [filter]. unfold noHash at 1. rewrite (Hall d) by now left.
  cbn [negb]. destruct IH as [-> ->]; [| now split].
  intros d' Hd'. apply Hall. now right.
Qed.

(** X9.  A run with recheck discards every stored hash: when the
    identifiers are unique and the run is exhausted, it yields for every
    document, in the order of the collection, the digest and the size
    computed from the document without its hash field, it computes as
    many digests as there are documents, and it leaves every document
    with the metadata of the computed hash. *)
Theorem iterateHashes_recheck (docs : list Doc) (fuel : nat) :
  NoDup (map _id docs) ->
  List.length docs < fuel ->
  MongoAdapterBase.iterateHashes calculateHash sha256Base64 estimateDocSize true fuel docs
  = Some (map (computedInfo calculateHash sha256Base64 estimateDocSize) docs,
          map (fun d => {| _id := _id d;
                           hash := HStr (stamp calculateHash sha256Base64 estimateDocSize d);
                           fields := fields d |}) docs,
          List.length docs).
Proof.
  intros Hnd Hf. rewrite iterateHashes_recheck_reset.
  assert (Hids : map _id (MongoAdapterBase.resetHashes docs) = map _id docs).
  { unfold MongoAdapterBase.resetHashes. rewrite map_map. apply map_ext.
    intros d. now destruct (hash d). }
  assert (Hlen : List.length (MongoAdapterBase.resetHashes docs) = List.length docs).
  { unfold MongoAdapterBase.resetHashes. apply length_map. }
  rewrite (iterateHashes_run calculateHash sha256Base64 estimateDocSize)
    by (rewrite ?Hids, ?Hlen; assumption).
  destruct (resetHashes_noHash docs) as [-> ->].
  rewrite Hlen. cbn [map app].
  assert (H1 : map (computedInfo calculateHash sha256Base64 estimateDocSize)
                 (MongoAdapterBase.resetHashes docs)
               = map (computedInfo calculateHash sha256Base64 estimateDocSize) docs).
  { unfold MongoAdapterBase.resetHashes. rewrite map_map. apply map_ext.
    intros d. now destruct (hash d). }
  assert (H2 : map (persisted calculateHash sha256Base64 estimateDocSize)
                 (MongoAdapterBase.resetHashes docs)
               = map (fun d => {| _id := _id d;
                                  hash := HStr (stamp calculateHash sha256Base64
                                                  estimateDocSize d);
                                  fields := fields d |}) docs).
  { unfold MongoAdapterBase.resetHashes. rewrite map_map. apply map_ext.
    intros d. unfold persisted, MongoAdapterBase.hasHash.
    destruct (hash d) eqn:E; cbn; rewrite ?E; reflexivity. }
  now rewrite H1, H2.
Qed.

End HashIteratorBuffer.
(** ** Instances of the properties above *)

Lemma tx_group_keyed_once_witness :
  exists bulk,
    MongoAdapter.updateBulkAll exampleHierarchy exampleIsOperator exampleCreateDoc2Doc
      MongoAdapter.emptyBulk
      [TxUpdateDoc exampleCud [("title", VStr "x")] true;
       TxMixin exampleCud "M" [("rank", VNum 1)];
       TxUpdateDoc exampleCud [("title", VStr "y")] true]
    = Some bulk
    /\ List.length (update bulk) = 1
    /\ keyedOnce bulk
    /\ NoDup (map opId (fieldSetOps (update bulk))).
Proof.
  eexists. split; [reflexivity |]. split; [reflexivity |].
  apply (tx_group_keyed_once exampleHierarchy exampleIsOperator exampleCreateDoc2Doc
           [TxUpdateDoc exampleCud [("title", VStr "x")] true;
            TxMixin exampleCud "M" [("rank", VNum 1)];
            TxUpdateDoc exampleCud [("title", VStr "y")] true]).
  reflexivity.
Defined.

Lemma flat_updates_last_wins_witness :
  exists merged,
    groupWrites exampleHierarchy exampleIsOperator exampleCreateDoc2Doc
      [TxUpdateDoc exampleCud [("title", VStr "x"); ("rank", VNum 1)] false;
       TxUpdateDoc exampleCud [("title", VStr "y")] false]
    = Some [WBulk (UpdateOne [("_id", VStr "doc1")] [("$set", VObj merged)])]
    /\ lookupProp merged "title" = Some (VStr "y")
    /\ lookupProp merged "rank" = Some (VNum 1).
Proof.
  destruct (flat_updates_last_wins exampleHierarchy exampleIsOperator exampleCreateDoc2Doc
              exampleCud exampleCud [("title", VStr "x"); ("rank", VNum 1)]
              [("title", VStr "y")])
    as [merged [Hw [_ [_ [_ Hk]]]]].
  - reflexivity.
  - reflexivity.
  - reflexivity.
  - unfold distinctKeys. simpl. repeat constructor; simpl; intuition discriminate.
  - unfold distinctKeys. simpl. repeat constructor; simpl; intuition discriminate.
  - exists merged. split; [exact Hw |]. split.
    + rewrite Hk by discriminate. reflexivity.
    + rewrite Hk by discriminate. reflexivity.
Defined.

Lemma updateOneOf_compiled_witness :
  exists upd s u,
    MongoAdapterBase.updateOneOf
      ("doc1", [("title", VStr "x");
                ("$unset", VObj [("title", VStr ""); ("rank", VStr "")])])
    = Some (UpdateOne [("_id", VStr "doc1")] upd)
    /\ getProp upd "$set" = VObj s
    /\ lookupProp s "%hash%" = Some VNull
    /\ getProp upd "$unset" = VObj u
    /\ lookupProp u "title" <> Some (VStr "").
Proof.
  destruct (updateOneOf_compiled
              ("doc1", [("title", VStr "x");
                        ("$unset", VObj [("title", VStr ""); ("rank", VStr "")])])
              (UpdateOne [("_id", VStr "doc1")]
                 [("$set", VObj [("title", VStr "x"); ("%hash%", VNull)]);
                  ("$unset", VObj [("rank", VStr "")])])
              eq_refl)
    as [upd [s [Hop [Hset [Hhash [_ [Hunset _]]]]]]].
  injection Hop as <-.
  exists [("$set", VObj [("title", VStr "x"); ("%hash%", VNull)]);
          ("$unset", VObj [("rank", VStr "")])], s, [("rank", VStr "")].
  split; [reflexivity |]. split; [exact Hset |]. split; [exact Hhash |].
  split; [reflexivity |].
  apply (Hunset [("rank", VStr "")] "title"); [reflexivity | discriminate | reflexivity].
Defined.

Lemma next_buffer_bound_witness :
  List.length
    (MongoAdapterBase.bulkUpdate
       (fst (MongoAdapterBase.next None (fun _ => "q83vEw==") (fun _ => 300%N) false
               (MongoAdapterBase.find
                  [{| _id := "a"; hash := HNull; fields := [("title", VStr "x")] |}]))))
  <= 1000.
Proof.
  apply (next_buffer_bound None (fun _ => "q83vEw==") (fun _ => 300%N) false).
  simpl. lia.
Defined.

Lemma iterateHashes_recheck_witness :
  MongoAdapterBase.iterateHashes None (fun _ => "q83vEw==") (fun _ => 300%N) true 3
    [{| _id := "a"; hash := HNull; fields := [("title", VStr "x")] |};
     {| _id := "b"; hash := HStr "zz|1f"; fields := [] |}]
  = Some ([{| MongoAdapterBase.id := "a"; MongoAdapterBase.hashOf := "q83vEw==";
              MongoAdapterBase.size := Num 300 |};
           {| MongoAdapterBase.id := "b"; MongoAdapterBase.hashOf := "q83vEw==";
              MongoAdapterBase.size := Num 300 |}],
          [{| _id := "a"; hash := HStr "q83vEw==|12c"; fields := [("title", VStr "x")] |};
           {| _id := "b"; hash := HStr "q83vEw==|12c"; fields := [] |}],
          2).
Proof.
  apply (iterateHashes_recheck None (fun _ => "q83vEw==") (fun _ => 300%N)
           [{| _id := "a"; hash := HNull; fields := [("title", VStr "x")] |};
            {| _id := "b"; hash := HStr "zz|1f"; fields := [] |}] 3).
  - repeat constructor; simpl; intuition discriminate.
  - simpl. lia.
Defined.

(** ** Storage: reading back and uploading *)

Lemma deleteProp_setProp_fresh (o : Obj) (k : string) (v : Value) :
  lookupProp o k = None -> deleteProp (setProp o k v) k = o.
Proof.
  induction o as [| [k0 v0] o IH]; simpl.
  - intros _. now rewrite String.eqb_refl.
  - destruct (String.eqb k0 k) eqn:E; [discriminate |].
    intros H. simpl. rewrite E. now rewrite IH.
Qed.

Lemma deleteProp_absent (o : Obj) (k : string) :
  lookupProp o k = None -> deleteProp o k = o.
Proof.
  induction o as [| [k0 v0] o IH]; simpl; [reflexivity |].
  destruct (String.eqb k0 k); [discriminate |].
  intros H. now rewrite IH.
Qed.

Lemma stripHash_one (d : Obj) :
  withoutHash d (if hasProp d "%hash%" then deleteProp d "%hash%" else d).
Proof.
  unfold withoutHash, hasProp.
  destruct (lookupProp d "%hash%") eqn:E.
  - split; [apply lookupProp_deleteProp_same |].
    intros k Hk. apply lookupProp_deleteProp_other. now apply not_eq_sym.
  - now split.
Qed.

(** X10.  [stripHash] gives every document back without its [%hash%]
    key and with its other keys as they were, document by document; it
    changes nothing when applied again; and so what [load] returns holds
    no [%hash%]. *)
Theorem stripHash_removes_hash (docs : list Obj) :
  Forall2 withoutHash docs (stripHash docs)
  /\ stripHash (stripHash docs) = stripHash docs
  /\ (forall findIn ids d,
        In d (load findIn ids) -> lookupProp d "%hash%" = None).
Proof.
  split; [| split].
  - induction docs as [| d docs IH]; simpl; constructor; [apply stripHash_one | exact IH].
  - unfold stripHash. rewrite map_map. apply map_ext. intros d.
    destruct (stripHash_one d) as [Hnone _].
    unfold hasProp at 1. now rewrite Hnone.
  - intros findIn ids d. unfold load. destruct ids as [| i ids]; [intros [] |].
    intros Hin. apply in_map_iff in Hin. destruct Hin as [d0 [<- _]].
    apply stripHash_one.
Qed.

(** X11.  The transactions handed to the transaction adapter are stored
    in one [insertMany], each with a [null] [%hash%], and [stripHash]
    gives them back as they were handed in; no call is made for an empty
    list. *)
Theorem tx_stored_round_trip (txs : list Obj) :
  Forall (fun t => hasProp t "%hash%" = false) txs ->
  MongoTxAdapter.tx txs
  = match txs with
    | [] => []
    | _ => [InsertMany (map translateDoc txs) None]
    end
  /\ Forall (fun d => lookupProp d "%hash%" = Some VNull) (map translateDoc txs)
  /\ stripHash (map translateDoc txs) = txs.
Proof.
  intros H. split; [reflexivity |]. split.
  - apply Forall_forall. intros d Hd. apply in_map_iff in Hd.
    destruct Hd as [t [<- _]]. apply lookupProp_setProp_same.
  - induction H as [| t txs Ht _ IH]; [reflexivity |].
    simpl. f_equal; [| exact IH].
    unfold hasProp, translateDoc in *. rewrite lookupProp_setProp_same.
    destruct (lookupProp t "%hash%") eqn:E; [discriminate |].
    now apply deleteProp_setProp_fresh.
Qed.

Lemma tx_stored_round_trip_witness :
  stripHash (map translateDoc [[("_id", VStr "tx1"); ("objectId", VStr "doc1")]])
  = [[("_id", VStr "tx1"); ("objectId", VStr "doc1")]].
Proof.
  apply (tx_stored_round_trip [[("_id", VStr "tx1"); ("objectId", VStr "doc1")]]).
  repeat constructor.
Defined.

Section GetModelProperties.

Variable core_class_TxCreateDoc : Ref.
Variable core_class_TxUpdateDoc : Ref.
Variable core_class_TxRemoveDoc : Ref.
Variable core_account_System : Ref.

Abbreviation systemTx :=
  (isSystemTx core_class_TxCreateDoc core_class_TxUpdateDoc core_class_TxRemoveDoc
     core_account_System).
Abbreviation getModel :=
  (MongoTxAdapter.getModel core_class_TxCreateDoc core_class_TxUpdateDoc
     core_class_TxRemoveDoc core_account_System).

(** X12.  [getModel] returns the transactions of the model, each once:
    first the system transactions, then the others, both in the order in
    which the cursor gave them. *)
Theorem getModel_partition (model : list Obj) :
  getModel model
  = (filter systemTx model ++ filter (fun t => negb (systemTx t)) model)%list
  /\ Permutation model (getModel model).
Proof.
  assert (Hfold : forall acc,
            fold_left
              (fun acc tx =>
                 if systemTx tx
                 then ((fst acc ++ [tx])%list, snd acc)
                 else (fst acc, (snd acc ++ [tx])%list))
              model acc
            = ((fst acc ++ filter systemTx model)%list,
               (snd acc ++ filter (fun t => negb (systemTx t)) model)%list)).
  { induction model as [| t model IH]; intros [sys usr]; simpl.
    - now rewrite !app_nil_r.
    - rewrite IH. destruct (systemTx t); simpl; now rewrite <- ?app_assoc. }
  assert (Heq : getModel model
                = (filter systemTx model
                   ++ filter (fun t => negb (systemTx t)) model)%list).
  { unfold MongoTxAdapter.getModel. unfold isSystemTx in Hfold.
    rewrite (Hfold ([], [])). reflexivity. }
  split; [exact Heq |].
  rewrite Heq. clear Hfold Heq.
  induction model as [| t model IH]; simpl; [constructor |].
  destruct (systemTx t); simpl.
  - now constructor.
  - now apply Permutation_cons_app.
Qed.

End GetModelProperties.

Section UploadProperties.

Variable calculateObjectSize : Doc -> N.
Variable Store : Type.
Variable Err : Type.
Variable bulkReplace : Store -> list ReplaceOne -> Store * option Err.

Abbreviation replaceOp := (replaceOneOf calculateObjectSize).
Abbreviation loop := (uploadLoop calculateObjectSize Store Err bulkReplace).

Lemma uploadLoop_nil (size : positive) (st : Store) (calls : list (list ReplaceOne)) :
  loop size [] st calls = (st, calls, None).
Proof. now simp uploadLoop. Qed.

Lemma batch_length (size : positive) (ops : list Doc) :
  ops <> [] ->
  1 <= List.length (map replaceOp (firstn (Pos.to_nat size) ops)) <= Pos.to_nat size
  /\ (skipn (Pos.to_nat size) ops <> [] ->
      List.length (map replaceOp (firstn (Pos.to_nat size) ops)) = Pos.to_nat size).
Proof.
  intros Hne. rewrite length_map, length_firstn.
  pose proof (Pos2Nat.is_pos size) as Hpos.
  destruct ops as [| op ops]; [contradiction |]. cbn [List.length]. split; [lia |].
  intros Hskip.
  assert (Hlen : List.length (skipn (Pos.to_nat size) (op :: ops)) <> 0).
  { destruct (skipn (Pos.to_nat size) (op :: ops)); [contradiction | discriminate]. }
  rewrite length_skipn in Hlen. cbn [List.length] in Hlen. lia.
Qed.

(** The calls of the loop: consecutive batches of the operations built
    for the documents, each of the batch size but possibly the last, up
    to the first that fails. *)
Lemma uploadLoop_calls (size : positive) (ops : list Doc) (st : Store)
    (calls : list (list ReplaceOne)) :
  exists made rest,
    snd (fst (loop size ops st calls)) = (calls ++ made)%list
    /\ (concat made ++ map replaceOp rest)%list = map replaceOp ops
    /\ Forall (fun c => 1 <= List.length c <= Pos.to_nat size) made
    /\ Forall (fun c => List.length c = Pos.to_nat size) (removelast made)
    /\ (ops = [] -> made = [])
    /\ (snd (loop size ops st calls) = None -> rest = []).
Proof.
  funelim (loop size ops st calls);
    repeat match goal with
           | H : {| pr1 := _; pr2 := _ |} = _ |- _ => clear H
           end.
  - exists [], []. rewrite app_nil_r. repeat split; constructor.
  - exists [map replaceOp (firstn (Pos.to_nat size) (op :: ops'))],
           (skipn (Pos.to_nat size) (op :: ops')).
    destruct (batch_length size (op :: ops')) as [Hlen _]; [discriminate |].
    split; [| split; [| split; [| split; [| split]]]].
    + reflexivity.
    + cbn [concat]. rewrite app_nil_r, <- map_app, firstn_skipn. reflexivity.
    + now constructor.
    + constructor.
    + discriminate.
    + discriminate.
  - match goal with
    | IH : exists made rest, _ |- _ =>
        destruct IH as [made [rest [Hc [Hcat [Hb [Hfull [Hnil Hnone]]]]]]]
    end.
    exists (map replaceOp (firstn (Pos.to_nat size) (op :: ops')) :: made), rest.
    destruct (batch_length size (op :: ops')) as [Hlen Hexact]; [discriminate |].
    split; [| split; [| split; [| split; [| split]]]].
    + rewrite Hc, <- app_assoc. reflexivity.
    + cbn [concat]. rewrite <- app_assoc, Hcat, <- map_app, firstn_skipn. reflexivity.
    + now constructor.
    + destruct made as [| c made]; [constructor |].
      change (removelast (?x :: c :: made)) with (x :: removelast (c :: made)).
      constructor; [| exact Hfull].
      apply Hexact. intros Hs. specialize (Hnil Hs). discriminate.
    + discriminate.
    + exact Hnone.
Qed.

(** The outcome of each call of the loop: a call that is followed by
    another one did not throw, and the last one threw what the loop
    throws. *)
Lemma uploadLoop_outcomes (size : positive) (ops : list Doc) (st : Store)
    (calls : list (list ReplaceOne)) :
  exists made,
    snd (fst (loop size ops st calls)) = (calls ++ made)%list
    /\ fst (fst (loop size ops st calls)) = storeAfter Store Err bulkReplace st made
    /\ (made = [] -> snd (loop size ops st calls) = None)
    /\ (forall before batch later,
          made = (before ++ batch :: later)%list ->
          snd (bulkReplace (storeAfter Store Err bulkReplace st before) batch)
          = match later with
            | [] => snd (loop size ops st calls)
            | _ => None
            end).
Proof.
  funelim (loop size ops st calls).
  - exists []. rewrite app_nil_r. split; [reflexivity |]. split; [reflexivity |].
    split; [reflexivity |].
    intros before batch later Hmade. destruct before; discriminate Hmade.
  - exists [map replaceOp (firstn (Pos.to_nat size) (op :: ops'))].
    split; [reflexivity |]. split; [cbn; now rewrite e |]. split; [discriminate |].
    intros before batch later Hmade.
    destruct before as [| b0 before].
    + injection Hmade as <- <-. cbn. now rewrite e.
    + injection Hmade as _ Hmade. destruct before; discriminate Hmade.
  - match goal with
    | IH : exists made, _ |- _ => destruct IH as [made [Hc [Hst [Hnil Hout]]]]
    end.
    exists (map replaceOp (firstn (Pos.to_nat size) (op :: ops')) :: made).
    split; [rewrite Hc, <- app_assoc; reflexivity |].
    split; [rewrite Hst; cbn; now rewrite e |].
    split; [discriminate |].
    intros before batch later Hmade.
    destruct before as [| b0 before].
    + injection Hmade as <- <-. cbn [storeAfter fold_left]. rewrite e. cbn [snd].
      destruct made; [now rewrite Hnil | reflexivity].
    + injection Hmade as <- Hmade. cbn [storeAfter fold_left]. rewrite e. cbn [fst].
      apply (Hout _ _ _ Hmade).
Qed.

(** X13.  Whatever the backend does, [uploadDocuments] returns, and the
    bulk writes it makes are consecutive batches of the [replaceOne]
    operations of the documents, in their order: every batch holds at
    least one and at most 500 operations, every batch but the last holds
    500, and when no batch fails every document is written.  Nothing is
    written after a batch that fails: a batch that is followed by
    another one did not fail, the last batch failed if and as the upload
    fails, and the collection is left as these batches leave it. *)
Theorem uploadDocuments_batches (docs : list Doc) (st : Store) :
  let result := uploadDocuments calculateObjectSize Store Err bulkReplace docs st in
  exists rest,
    (concat (snd (fst result)) ++ map replaceOp rest)%list = map replaceOp docs
    /\ Forall (fun c => 1 <= List.length c <= 500) (snd (fst result))
    /\ Forall (fun c => List.length c = 500) (removelast (snd (fst result)))
    /\ (snd result = None -> rest = [])
    /\ (forall before batch later,
          snd (fst result) = (before ++ batch :: later)%list ->
          snd (bulkReplace (storeAfter Store Err bulkReplace st before) batch)
          = match later with
            | [] => snd result
            | _ => None
            end)
    /\ (snd (fst result) = [] -> snd result = None)
    /\ fst (fst result) = storeAfter Store Err bulkReplace st (snd (fst result)).
Proof.
  intros result. subst result. unfold uploadDocuments.
  destruct (uploadLoop_calls 500 docs st []) as [made [rest [Hc [Hcat [Hb [Hfull [_ Hnone]]]]]]].
  destruct (uploadLoop_outcomes 500 docs st []) as [made' [Hc' [Hst [Hnil Hout]]]].
  cbn [app] in Hc, Hc'. rewrite Hc in Hc'. subst made'. rewrite Hc. exists rest.
  change (Pos.to_nat 500) with 500 in *.
  split; [exact Hcat |]. split; [exact Hb |]. split; [exact Hfull |].
  split; [exact Hnone |]. split; [exact Hout |]. split; [exact Hnil | exact Hst].
Qed.

(** X14.  A document uploaded with a hash is stored with the metadata
    from which the hash iterator reads that hash back, with the size
    taken of the document without its hash field, provided the hash holds
    no bar; a document uploaded without a hash, or with a [null] one, is
    stored with a [null] hash.  The operation replaces the document of
    the same identifier, or inserts it, and keeps its fields. *)
Theorem upload_hash_round_trip (it : Doc) :
  filterId (replaceOp it) = _id it
  /\ upsert (replaceOp it) = true
  /\ _id (replacement (replaceOp it)) = _id it
  /\ fields (replacement (replaceOp it)) = fields it
  /\ (forall digest,
        hash it = HStr digest ->
        indexOf "|" digest = None ->
        readsBack (_id it) (hash (replacement (replaceOp it))) digest
          (calculateObjectSize (stripped it)))
  /\ ((hash it = HMissing \/ hash it = HNull) ->
      hash (replacement (replaceOp it)) = HNull).
Proof.
  split; [reflexivity |]. split; [reflexivity |].
  split; [reflexivity |]. split; [reflexivity |]. split.
  - intros digest Hd Hbar. unfold replaceOneOf, readsBack.
    cbn [replacement hash]. rewrite Hd.
    exists (digest ++ "|" ++ toString16 (calculateObjectSize (stripped it))).
    split; [reflexivity |]. split.
    + apply nonEmpty_append. reflexivity.
    + unfold storedInfo.
      destruct (stamp_round_trip digest (calculateObjectSize (stripped it)) Hbar)
        as [-> ->].
      reflexivity.
  - unfold replaceOneOf. cbn [replacement hash].
    intros [-> | ->]; reflexivity.
Qed.




End UploadProperties.

Lemma upload_hash_round_trip_witness :
  readsBack "a"
    (hash (replacement
             (replaceOneOf (fun _ => 300%N)
                {| _id := "a"; hash := HStr "q83vEw=="; fields := [("title", VStr "x")] |})))
    "q83vEw==" 300.
Proof.
  destruct (upload_hash_round_trip (fun _ => 300%N)
              {| _id := "a"; hash := HStr "q83vEw=="; fields := [("title", VStr "x")] |})
    as [_ [_ [_ [_ [H _]]]]].
  apply (H "q83vEw=="); reflexivity.
Defined.

(** ** Lookups: the planned joins *)

Lemma endsWith_refl (s : string) : endsWith s s = true.
Proof. destruct s; simpl; [reflexivity | now rewrite Ascii.eqb_refl, String.eqb_refl]. Qed.

Lemma endsWith_append (s suffix : string) : endsWith suffix (s ++ suffix) = true.
Proof.
  induction s as [| c s IH]; [apply endsWith_refl |].
  cbn [append endsWith]. rewrite IH. now destruct (String.eqb _ suffix).
Qed.

Lemma includesChar_append (c : ascii) (a b : string) :
  includesChar c (a ++ b) = includesChar c a || includesChar c b.
Proof.
  induction a as [| x a IH]; simpl; [reflexivity |].
  rewrite IH. now rewrite orb_assoc.
Qed.

Lemma stripDots_free (s : string) : includesChar "." (stripDots s) = false.
Proof.
  unfold stripDots.
  pose proof (split_segments_free "." s) as H.
  induction H as [| seg segs Hseg _ IH]; [reflexivity |].
  destruct segs as [| seg' segs]; [exact Hseg |].
  change (join "" (seg :: seg' :: segs)) with (seg ++ "" ++ join "" (seg' :: segs)).
  rewrite includesChar_append, Hseg. cbn [append orb]. exact IH.
Qed.

Lemma stepField_stripDots (s : string) : stepField (stripDots s ++ "_lookup").
Proof.
  split; [apply endsWith_append |].
  now rewrite includesChar_append, stripDots_free.
Qed.

Section LookupProperties.

Variable h : Hierarchy.

Lemma forwardStep_planned (_class : Ref) (fullKey : string) (step : LookupStep) :
  In step (forwardStep h _class fullKey) -> plannedStep step.
Proof.
  unfold forwardStep.
  destruct (String.eqb (getDomain h _class) DOMAIN_MODEL) eqn:E; simpl; [intros [] |].
  intros [<- | []]. apply String.eqb_neq in E.
  repeat split; simpl; try assumption; try discriminate.
  - apply endsWith_append.
  - now rewrite includesChar_append, stripDots_free.
Qed.

Lemma getReverseLookupValue_planned (lid : list (string * ReverseTarget))
    (parent : option string) (step : LookupStep) :
  In step (getReverseLookupValue h lid parent) -> plannedStep step.
Proof.
  unfold getReverseLookupValue. intros Hin. apply in_flat_map in Hin.
  destruct Hin as [[key value] [_ Hin]]. cbn [fst snd] in Hin.
  destruct (String.eqb (getDomain h (reverseClass value)) DOMAIN_MODEL) eqn:E;
    simpl in Hin; [contradiction |].
  destruct Hin as [<- | []]. apply String.eqb_neq in E.
  repeat split; simpl; try assumption; try discriminate.
  - apply endsWith_append.
  - now rewrite includesChar_append, stripDots_free.
Qed.

Lemma getLookupItem_planned :
  forall (item : LookupItem) (clazz : Ref) (parent : option string) (step : LookupStep),
    In step (getLookupItem h clazz item parent) -> plannedStep step.
Proof.
  fix IH 1. intros [key c | key c nested | lid] clazz parent step; cbn [getLookupItem].
  - apply forwardStep_planned.
  - intros Hin. apply in_app_or in Hin. destruct Hin as [Hin | Hin].
    + now apply forwardStep_planned in Hin.
    + revert Hin. generalize (Some (under parent "." (MongoAdapterBase.checkMixinKey h key clazz)
                               ++ "_lookup")%string).
      intros p. induction nested as [| it rest IHrest]; simpl; [intros [] |].
      intros Hin. apply in_app_or in Hin. destruct Hin as [Hin | Hin].
      * exact (IH it c p step Hin).
      * exact (IHrest Hin).
  - apply getReverseLookupValue_planned.
Qed.

(** X15.  Every join that [getLookups] plans reads from a collection of
    the backend, never from the model domain; it writes to a field whose
    name ends with [_lookup] and holds no dot; and the last stage of its
    pipeline drops [%hash%], so that no joined document carries its
    hash. *)
Theorem getLookups_planned (clazz : Ref) (lookup : option Lookup)
    (parent : option string) (step : LookupStep) :
  In step (getLookups h clazz lookup parent) -> plannedStep step.
Proof.
  destruct lookup as [l |]; simpl; [| intros []].
  unfold getLookupValue. intros Hin. apply in_flat_map in Hin.
  destruct Hin as [item [_ Hin]]. now apply getLookupItem_planned in Hin.
Qed.

Lemma lookupProp_filter (p : string -> bool) (o : Obj) (k : string) :
  lookupProp (filter (fun kv => p (fst kv)) o) k
  = if p k then lookupProp o k else None.
Proof.
  induction o as [| [k0 v0] o IH]; simpl; [now destruct (p k) |].
  destruct (p k0) eqn:E0; simpl.
  - destruct (String.eqb k0 k) eqn:E; [| exact IH].
    apply String.eqb_eq in E. subst k0. now rewrite E0.
  - rewrite IH. destruct (String.eqb k0 k) eqn:E; [| reflexivity].
    apply String.eqb_eq in E. subst k0. now rewrite E0.
Qed.

(** X16.  [clearExtraLookups] removes from a row exactly the keys that
    end with [_lookup]: every other key keeps its value, [$lookup] among
    them, and the field of every join that [getLookups] plans is gone. *)
Theorem clearExtraLookups_clears (row : Obj) :
  (forall k, lookupProp (clearExtraLookups row) k
             = if endsWith "_lookup" k then None else lookupProp row k)
  /\ lookupProp (clearExtraLookups row) "$lookup" = lookupProp row "$lookup"
  /\ (forall clazz lookup parent step,
        In step (getLookups h clazz lookup parent) ->
        lookupProp (clearExtraLookups row) (as_ step) = None).
Proof.
  assert (Hk : forall k, lookupProp (clearExtraLookups row) k
                         = if endsWith "_lookup" k then None else lookupProp row k).
  { intros k. unfold clearExtraLookups.
    rewrite (lookupProp_filter (fun k => negb (endsWith "_lookup" k))).
    now destruct (endsWith "_lookup" k). }
  split; [exact Hk |]. split.
  - rewrite Hk. reflexivity.
  - intros clazz lookup parent step Hin. rewrite Hk.
    destruct (getLookups_planned clazz lookup parent step Hin) as [_ [[-> _] _]].
    reflexivity.
Qed.

End LookupProperties.
(** ** Lookups: the fill of the reverse lookups *)

Lemma lookup_field_not_namespace (x : string) : x ++ "_lookup" <> "$lookup".
Proof.
  intros E. assert (Hl : String.length (x ++ "_lookup") = 7) by now rewrite E.
  rewrite string_length_append in Hl. simpl in Hl.
  destruct x; [discriminate E | simpl in Hl; lia].
Qed.

Section ReverseFill.

Variable h : Hierarchy.
Variable modelFindAllBy : Ref -> string -> Value -> list Value.

Lemma fillReverse_fold (clazz : Ref) (object : Obj) (lid : list (string * ReverseTarget)) :
  forall (t ns : Obj),
    NoDup (map fst lid) ->
    getProp t "$lookup" = VObj ns ->
    (forall k, k <> "$lookup" -> lookupProp t k = lookupProp object k) ->
    exists filled ns',
      fold_left
        (fun acc kv =>
           match acc with
           | None => None
           | Some targetObject =>
               if negb (String.eqb (getDomain h (reverseClass (snd kv))) DOMAIN_MODEL)
               then
                 MongoAdapterBase.assignLookup targetObject (fst kv)
                   (getProp targetObject
                      (under None ""
                         (stripDots (MongoAdapterBase.checkMixinKey h (fst kv) clazz)
                          ++ "_lookup")))
               else
                 MongoAdapterBase.assignLookup targetObject (fst kv)
                   (VArr (modelFindAllBy (reverseClass (snd kv)) (reverseAttr (snd kv))
                            (getProp targetObject "_id")))
           end)
        lid (Some t)
      = Some filled
      /\ getProp filled "$lookup" = VObj ns'
      /\ (forall k, k <> "$lookup" -> lookupProp filled k = lookupProp object k)
      /\ (forall key value,
            In (key, value) lid ->
            lookupProp ns' key
            = Some (if negb (String.eqb (getDomain h (reverseClass value)) DOMAIN_MODEL)
                    then getProp object (reverseField h clazz key)
                    else VArr (modelFindAllBy (reverseClass value) (reverseAttr value)
                                 (getProp object "_id"))))
      /\ (forall k, ~ In k (map fst lid) -> lookupProp ns' k = lookupProp ns k).
Proof.
  induction lid as [| [key value] lid IH]; intros t ns Hnd Hns Hframe.
  - exists t, ns. simpl. repeat split; try assumption. intros key value [].
  - inversion Hnd as [| ? ? Hnot Hnd']; subst.
    cbn [fold_left fst snd under].
    set (v := if negb (String.eqb (getDomain h (reverseClass value)) DOMAIN_MODEL)
              then getProp object (reverseField h clazz key)
              else VArr (modelFindAllBy (reverseClass value) (reverseAttr value)
                           (getProp object "_id"))).
    assert (Hread : getProp t (stripDots (MongoAdapterBase.checkMixinKey h key clazz)
                               ++ "_lookup")
                    = getProp object (reverseField h clazz key)).
    { unfold getProp, reverseField. now rewrite Hframe by apply lookup_field_not_namespace. }
    assert (Hid : getProp t "_id" = getProp object "_id").
    { unfold getProp. now rewrite Hframe by discriminate. }
    assert (Hstep :
      (if negb (String.eqb (getDomain h (reverseClass value)) DOMAIN_MODEL)
       then MongoAdapterBase.assignLookup t key
              (getProp t (stripDots (MongoAdapterBase.checkMixinKey h key clazz)
                          ++ "_lookup"))
       else MongoAdapterBase.assignLookup t key
              (VArr (modelFindAllBy (reverseClass value) (reverseAttr value)
                       (getProp t "_id"))))
      = Some (setProp t "$lookup" (VObj (setProp ns key v)))).
    { subst v. rewrite Hread, Hid. unfold MongoAdapterBase.assignLookup. rewrite Hns.
      now destruct (negb _). }
    rewrite Hstep.
    destruct (IH (setProp t "$lookup" (VObj (setProp ns key v))) (setProp ns key v) Hnd')
      as [filled [ns' [Hfold [Hns' [Hframe' [Hin Hout]]]]]].
    + apply getProp_setProp_same.
    + intros k Hk. rewrite lookupProp_setProp_other by now apply not_eq_sym.
      now apply Hframe.
    + exists filled, ns'. split; [exact Hfold |]. split; [exact Hns' |].
      split; [exact Hframe' |]. split.
      * intros key' value' [Heq | Hin'].
        -- injection Heq as <- <-. rewrite Hout by exact Hnot.
           apply lookupProp_setProp_same.
        -- now apply Hin.
      * intros k Hk. rewrite Hout by (intros Hin'; apply Hk; now right).
        apply lookupProp_setProp_other. intros ->. apply Hk. now left.
Qed.

(** X17.  At the top of a row, the fill of the reverse lookups puts
    under every key of the lookup what was joined for it, as it is: for a
    class stored in the backend the value read from the row under the
    key's field (an array is not collapsed to its element, and the key is
    there even when nothing was joined), for a class of the model the
    array found in the model.  The other keys of the row are untouched;
    and when the key is no mixin attribute, the field read is the one
    that the planned join of that key writes. *)
Theorem fillReverseLookup_entries (clazz : Ref) (lid : list (string * ReverseTarget))
    (object : Obj) :
  NoDup (map fst lid) ->
  (getProp object "$lookup" = VUndefined
   \/ exists ns, getProp object "$lookup" = VObj ns) ->
  exists filled,
    fillReverseLookup h modelFindAllBy clazz lid object None None = Some filled
    /\ (forall k, k <> "$lookup" -> lookupProp filled k = lookupProp object k)
    /\ (forall key value,
          In (key, value) lid ->
          lookupEntry filled key
          = Some (if negb (String.eqb (getDomain h (reverseClass value)) DOMAIN_MODEL)
                  then getProp object (reverseField h clazz key)
                  else VArr (modelFindAllBy (reverseClass value) (reverseAttr value)
                               (getProp object "_id"))))
    /\ (forall key value,
          In (key, value) lid ->
          getDomain h (reverseClass value) <> DOMAIN_MODEL ->
          MongoAdapterBase.checkMixinKey h key clazz = key ->
          exists step,
            In step (getReverseLookupValue h lid None)
            /\ as_ step = reverseField h clazz key
            /\ from step = getDomain h (reverseClass value)
            /\ foreignField step = reverseAttr value
            /\ localField step = "_id").
Proof.
  intros Hnd Hns. unfold fillReverseLookup.
  set (t := match getProp object "$lookup" with
            | VUndefined => setProp object "$lookup" (VObj [])
            | _ => object
            end).
  assert (Ht : exists ns, getProp t "$lookup" = VObj ns
                          /\ forall k, k <> "$lookup" -> lookupProp t k = lookupProp object k).
  { subst t. destruct Hns as [-> | [ns Hns]].
    - exists []. split; [apply getProp_setProp_same |].
      intros k Hk. apply lookupProp_setProp_other. now apply not_eq_sym.
    - exists ns. rewrite Hns. now split. }
  destruct Ht as [ns [Hns0 Hframe0]].
  destruct (fillReverse_fold clazz object lid t ns Hnd Hns0 Hframe0)
    as [filled [ns' [Hfold [Hns' [Hframe [Hin _]]]]]].
  exists filled. split; [exact Hfold |]. split; [exact Hframe |]. split.
  - intros key value Hkv. unfold lookupEntry. rewrite Hns'. now apply Hin.
  - intros key value Hkv Hdom Hmix.
    exists {| from := getDomain h (reverseClass value);
              localField := "_id";
              foreignField := reverseAttr value;
              as_ := stripDots key ++ "_lookup";
              pipeline := [MatchClasses (getDescendants h (reverseClass value));
                           ProjectOutHash] |}.
    split; [| unfold reverseField; rewrite Hmix; now repeat split].
    unfold getReverseLookupValue. apply in_flat_map.
    exists (key, value). split; [exact Hkv |]. cbn [fst snd under].
    apply String.eqb_neq in Hdom. rewrite Hdom. now left.
Qed.

End ReverseFill.
Lemma getLookups_planned_witness :
  getLookups exampleHierarchy "B"
    (Some [Nested "owner" "D" [Forward "team" "E"];
           Reverse [("comments", ReverseTo "D")]]) None
  = [{| from := "docs"; localField := "owner"; foreignField := "_id";
        as_ := "owner_lookup"; pipeline := [ProjectOutHash] |};
     {| from := "docs"; localField := "owner_lookup.team"; foreignField := "_id";
        as_ := "owner_lookupteam_lookup"; pipeline := [ProjectOutHash] |};
     {| from := "docs"; localField := "_id"; foreignField := "attachedTo";
        as_ := "comments_lookup";
        pipeline := [MatchClasses ["D"]; ProjectOutHash] |}]
  /\ plannedStep
       {| from := "docs"; localField := "owner_lookup.team"; foreignField := "_id";
          as_ := "owner_lookupteam_lookup"; pipeline := [ProjectOutHash] |}.
Proof.
  split; [reflexivity |].
  apply (getLookups_planned exampleHierarchy "B"
           (Some [Nested "owner" "D" [Forward "team" "E"];
                  Reverse [("comments", ReverseTo "D")]]) None).
  right. left. reflexivity.
Defined.

Lemma fillReverseLookup_entries_witness :
  exists filled,
    fillReverseLookup exampleHierarchy (fun _ _ _ => []) "B"
      [("comments", ReverseTo "D")]
      [("_id", VStr "doc1"); ("comments_lookup", VArr [VObj [("_id", VStr "c1")]])]
      None None
    = Some filled
    /\ lookupEntry filled "comments" = Some (VArr [VObj [("_id", VStr "c1")]]).
Proof.
  destruct (fillReverseLookup_entries exampleHierarchy (fun _ _ _ => []) "B"
              [("comments", ReverseTo "D")]
              [("_id", VStr "doc1"); ("comments_lookup", VArr [VObj [("_id", VStr "c1")]])])
    as [filled [Hfill [_ [Hentry _]]]].
  - repeat constructor. intros [].
  - left. reflexivity.
  - exists filled. split; [exact Hfill |].
    rewrite (Hentry "comments" (ReverseTo "D")) by (left; reflexivity).
    reflexivity.
Defined.
(** ** Translated keys *)

Lemma split_no_sep (sep : ascii) (s : string) :
  includesChar sep s = false -> split sep s = [s].
Proof.
  induction s as [| c s IH]; simpl; [reflexivity |].
  destruct (Ascii.eqb c sep); [discriminate |].
  simpl. intros H. now rewrite IH.
Qed.

Lemma split_append_sep (sep : ascii) (a b : string) :
  includesChar sep a = false ->
  split sep (a ++ String sep b) = a :: split sep b.
Proof.
  induction a as [| c a IH]; simpl.
  - intros _. now rewrite Ascii.eqb_refl.
  - destruct (Ascii.eqb c sep); [discriminate |].
    simpl. intros H. now rewrite IH.
Qed.

Lemma split_join (sep : ascii) (segs : list string) :
  segs <> [] ->
  Forall (fun seg => includesChar sep seg = false) segs ->
  split sep (join (String sep "") segs) = segs.
Proof.
  intros Hne H. induction H as [| seg segs Hseg Hsegs IH]; [contradiction |].
  destruct segs as [| seg' segs].
  - simpl. now apply split_no_sep.
  - change (join (String sep "") (seg :: seg' :: segs))
      with (seg ++ String sep "" ++ join (String sep "") (seg' :: segs)).
    cbn [append]. rewrite split_append_sep by exact Hseg.
    f_equal. apply IH. discriminate.
Qed.

Lemma endsWithChar_append (c : ascii) (a b : string) :
  nonEmpty b = true -> endsWithChar c (a ++ b) = endsWithChar c b.
Proof.
  intros Hb. induction a as [| x a IH]; [reflexivity |].
  cbn [append]. simpl. rewrite IH.
  destruct (a ++ b) eqn:E; [| reflexivity].
  destruct a; simpl in E; [subst b; discriminate | discriminate].
Qed.

Lemma includesChar_with (c : ascii) (a b : string) :
  includesChar c (a ++ String c b) = true.
Proof.
  induction a as [| x a IH]; simpl; [now rewrite Ascii.eqb_refl |].
  rewrite IH. apply orb_true_r.
Qed.

Lemma keySegments_filter (segs : list string) :
  Forall keySegment segs -> filter nonEmpty segs = segs.
Proof.
  induction 1 as [| seg segs [Hne _] _ IH]; simpl; [reflexivity |].
  now rewrite Hne, IH.
Qed.

Section KeyProperties.

Variable h : Hierarchy.

Abbreviation translateKey := (MongoAdapterBase.translateKey h).
Abbreviation translateKeyLoop := (MongoAdapterBase.translateKeyLoop h).
Abbreviation checkMixinKey := (MongoAdapterBase.checkMixinKey h).

Lemma checkMixinKey_dotted (key : string) (clazz : Ref) :
  includesChar "." key = true -> checkMixinKey key clazz = key.
Proof. intros H. unfold MongoAdapterBase.checkMixinKey. now rewrite H. Qed.

Lemma translateKeyLoop_first (clazz : Ref) (seg : string) (rest : list string) :
  seg <> "$lookup" ->
  translateKeyLoop clazz true (seg :: rest) ""
  = translateKeyLoop clazz false rest
      (checkMixinKey match rest with
                     | [] => seg
                     | _ => seg ++ "."
                     end clazz).
Proof.
  intros Hmark. cbn [MongoAdapterBase.translateKeyLoop].
  apply String.eqb_neq in Hmark. rewrite Hmark. reflexivity.
Qed.

(** After a prefix that ends with a dot, the segments of a path are
    appended as they are. *)
Lemma translateKeyLoop_path (clazz : Ref) (segs : list string) :
  forall tKey,
    segs <> [] ->
    Forall keySegment segs ->
    includesChar "." tKey = true ->
    endsWithChar "." tKey = true ->
    translateKeyLoop clazz false segs tKey = tKey ++ join "." segs.
Proof.
  induction segs as [| seg segs IH]; intros tKey Hne Hsegs Hdot Hend; [contradiction |].
  inversion Hsegs as [| ? ? [Hnon [Hfree Hmark]] Hrest]; subst.
  cbn [MongoAdapterBase.translateKeyLoop].
  apply String.eqb_neq in Hmark. rewrite Hmark, Hend. cbn [negb andb].
  destruct segs as [| seg' segs].
  - rewrite checkMixinKey_dotted; [reflexivity |].
    now rewrite includesChar_append, Hdot.
  - rewrite checkMixinKey_dotted
      by (now rewrite !includesChar_append, Hdot).
    rewrite IH; try assumption; try discriminate.
    + change (join "." (seg :: seg' :: segs))
        with (seg ++ "." ++ join "." (seg' :: segs)).
      now rewrite <- !string_append_assoc.
    + now rewrite !includesChar_append, Hdot.
    + now rewrite endsWithChar_append.
Qed.

(** X18.  The translated key of an attribute name is the name, qualified
    by the mixin when the attribute belongs to one; a dotted path of two
    or more segments is left as it is, with no mixin prefix. *)
Theorem translateKey_attribute_or_path (clazz : Ref) :
  (forall key,
     keySegment key ->
     translateKey key clazz
     = match findAttribute h clazz key with
       | Some attr =>
           if isMixin h (attributeOf attr) then attributeOf attr ++ "." ++ key else key
       | None => key
       end)
  /\ (forall a b rest,
        Forall keySegment (a :: b :: rest) ->
        translateKey (join "." (a :: b :: rest)) clazz = join "." (a :: b :: rest)).
Proof.
  split.
  - intros key [Hne [Hfree Hmark]]. unfold MongoAdapterBase.translateKey.
    rewrite split_no_sep by exact Hfree. cbn [filter]. rewrite Hne.
    cbn [MongoAdapterBase.translateKeyLoop].
    apply String.eqb_neq in Hmark. rewrite Hmark. cbn [endsWithChar negb andb append].
    unfold MongoAdapterBase.checkMixinKey. now rewrite Hfree.
  - intros a b rest Hsegs. unfold MongoAdapterBase.translateKey.
    rewrite split_join; [| discriminate |].
    + rewrite keySegments_filter by exact Hsegs.
      inversion Hsegs as [| ? ? [Hne [Hfree Hmark]] Hrest]; subst.
      rewrite translateKeyLoop_first by exact Hmark.
      rewrite checkMixinKey_dotted by apply includesChar_with.
      rewrite translateKeyLoop_path; try assumption; try discriminate.
      * change (join "." (a :: b :: rest)) with (a ++ "." ++ join "." (b :: rest)).
        now rewrite <- string_append_assoc.
      * apply includesChar_with.
      * now rewrite endsWithChar_append.
    + apply Forall_forall. intros seg Hin.
      rewrite Forall_forall in Hsegs. now destruct (Hsegs seg Hin) as [_ [Hf _]].
Qed.

(** X19.  A predicate or sort key that goes through a lookup,
    [$lookup.key.field], is translated to the field of the joined
    document: the name under which the planned join of [key] writes what
    it joined, a dot, and [field]; this when neither [key] nor the join's
    field name is a mixin attribute of the class. *)
Theorem translateKey_lookup_field (clazz _class : Ref) (key field : string) :
  keySegment key ->
  keySegment field ->
  checkMixinKey key clazz = key ->
  checkMixinKey (key ++ "_lookup") clazz = key ++ "_lookup" ->
  getDomain h _class <> DOMAIN_MODEL ->
  exists step,
    getLookups h clazz (Some [Forward key _class]) None = [step]
    /\ translateKey ("$lookup." ++ key ++ "." ++ field) clazz
       = as_ step ++ "." ++ field.
Proof.
  intros [Hk1 [Hk2 Hk3]] [Hf1 [Hf2 Hf3]] Hmix Hmix' Hdom.
  apply String.eqb_neq in Hdom.
  eexists. split.
  - cbn [getLookups getLookupValue flat_map getLookupItem under].
    unfold forwardStep. rewrite Hmix, Hdom. cbn [negb app]. reflexivity.
  - cbn [as_]. unfold stripDots. rewrite (split_no_sep "." key Hk2). cbn [join].
    unfold MongoAdapterBase.translateKey.
    change ("$lookup." ++ key ++ "." ++ field)
      with ("$lookup" ++ String "." (key ++ String "." field)).
    rewrite split_append_sep by reflexivity.
    rewrite split_append_sep by exact Hk2.
    rewrite (split_no_sep "." field Hf2).
    cbn [filter nonEmpty]. rewrite Hk1, Hf1.
    cbn [MongoAdapterBase.translateKeyLoop]. rewrite String.eqb_refl.
    cbn [append]. rewrite Hmix'.
    apply String.eqb_neq in Hf3. rewrite Hf3.
    rewrite endsWithChar_append by reflexivity.
    assert (He : endsWithChar "." "_lookup" = false) by reflexivity.
    rewrite He. cbn [negb andb].
    rewrite checkMixinKey_dotted.
    + now rewrite string_append_assoc.
    + rewrite includesChar_append.
      rewrite (includesChar_with "." (key ++ "_lookup") ""). reflexivity.
Qed.

End KeyProperties.

Lemma translateKey_lookup_field_witness :
  exists step,
    getLookups exampleHierarchy "B" (Some [Forward "owner" "D"]) None = [step]
    /\ MongoAdapterBase.translateKey exampleHierarchy "$lookup.owner.name" "B"
       = as_ step ++ "." ++ "name".
Proof.
  apply (translateKey_lookup_field exampleHierarchy "B" "D" "owner" "name").
  - repeat split; discriminate.
  - repeat split; discriminate.
  - reflexivity.
  - reflexivity.
  - discriminate.
Defined.

(** ** Sorting by an enumeration and by rules *)

Lemma switchValue_enum (doc : Obj) (key : string) (values : list string) :
  forall (n : nat) (d : Value),
    switchValue doc
      (map (fun vi => {| Planner.case := Planner.CaseEq key (VStr (fst vi));
                         Planner.then_ := VNum (Z.of_nat (snd vi)) |})
         (combine values (seq n (List.length values)))) d
    = match lookupProp doc key with
      | Some (VStr x) =>
          if Nat.ltb (position x values) (List.length values)
          then VNum (Z.of_nat (n + position x values))
          else d
      | _ => d
      end.
Proof.
  induction values as [| v values IH]; intros n d.
  - simpl. now destruct (lookupProp doc key) as [[| | | | x | |] |].
  - cbn [List.length seq combine map switchValue Planner.case Planner.then_ caseHolds
         fst snd position].
    rewrite IH.
    destruct (lookupProp doc key) as [[| | | | x | |] |]; try reflexivity.
    rewrite (String.eqb_sym x v).
    destruct (String.eqb v x).
    + cbn [Nat.ltb Nat.leb]. now rewrite Nat.add_0_r.
    + change (Nat.ltb (S (position x values)) (S (List.length values)))
        with (Nat.ltb (position x values) (List.length values)).
      destruct (Nat.ltb _ _); [| reflexivity].
      now rewrite Nat.add_succ_r.
Qed.

Lemma position_bound (x : string) (l : list string) : position x l <= List.length l.
Proof.
  induction l as [| y l IH]; simpl; [lia |].
  destruct (String.eqb y x); lia.
Qed.

(** X20.  The enumeration sort ranks a document by the place of its value
    in the declaration of the enumeration: the field it adds is the index
    of the first enumeration value equal to the document's, and the
    number of values when the document's value is none of them or is
    missing; the sort is by that field alone, in the requested
    direction. *)
Theorem fillEnumSort_rank (enumOf : Planner.Enum) (key _key : string)
    (pipeline : list Planner.PipelineStage) (sortObj : Obj)
    (optionsSort : Planner.FindSort) (doc : Obj) :
  exists branches,
    Planner.fillEnumSort enumOf key pipeline sortObj (Some optionsSort) _key
    = ((pipeline
        ++ [Planner.AddSwitch ("sort_" ++ key) branches
              (VNum (Z.of_nat (List.length (Planner.enumValues enumOf))))])%list,
       setProp sortObj ("sort_" ++ key) (Planner.orderOf optionsSort _key),
       Some optionsSort)
    /\ switchValue doc branches
         (VNum (Z.of_nat (List.length (Planner.enumValues enumOf))))
       = VNum (Z.of_nat
                 match lookupProp doc key with
                 | Some (VStr x) => position x (Planner.enumValues enumOf)
                 | _ => List.length (Planner.enumValues enumOf)
                 end).
Proof.
  eexists. split; [reflexivity |].
  rewrite switchValue_enum.
  destruct (lookupProp doc key) as [[| | | | x | |] |]; try reflexivity.
  pose proof (position_bound x (Planner.enumValues enumOf)) as Hb.
  destruct (Nat.ltb _ _) eqn:E; [reflexivity |].
  apply Nat.ltb_ge in E. f_equal. f_equal. lia.
Qed.

Lemma customBranches_strings (key : string) (selectors : list Planner.SortSelector) :
  Forall stringSelector selectors ->
  Planner.customBranches key selectors
  = Some (map (fun selector =>
                 {| Planner.case := Planner.CaseEq key (Planner.query selector);
                    Planner.then_ := Planner.index selector |}) selectors).
Proof.
  induction 1 as [| selector selectors [s Hs] _ IH]; [reflexivity |].
  cbn [Planner.customBranches map]. rewrite IH.
  unfold Planner.customBranch. now rewrite Hs.
Qed.

Lemma switchValue_selectors (doc : Obj) (key : string)
    (selectors : list Planner.SortSelector) (d : Value) :
  Forall stringSelector selectors ->
  switchValue doc
    (map (fun selector =>
            {| Planner.case := Planner.CaseEq key (Planner.query selector);
               Planner.then_ := Planner.index selector |}) selectors) d
  = match lookupProp doc key with
    | Some (VStr x) => match selectedIndex x selectors with
                       | Some i => i
                       | None => d
                       end
    | _ => d
    end.
Proof.
  induction 1 as [| selector selectors [s Hs] _ IH].
  - simpl. now destruct (lookupProp doc key) as [[| | | | x | |] |].
  - cbn [map switchValue Planner.case Planner.then_ caseHolds selectedIndex].
    rewrite IH, Hs.
    destruct (lookupProp doc key) as [[| | | | x | |] |]; try reflexivity.
    unfold MongoTxAdapter.isString. rewrite (String.eqb_sym x s).
    now destruct (String.eqb s x).
Qed.

(** X21.  A custom sort whose selectors are strings ranks a document by
    the index of the first selector equal to its value, and by the
    default of the rules (the number of selectors when the rules give
    none) when no selector is; the sort is by the added field alone, in
    the direction of the rules. *)
Theorem fillCustomSort_rank (rules : Planner.SortingRules) (key : string)
    (pipeline : list Planner.PipelineStage) (sortObj : Obj)
    (optionsSort : Planner.FindSort) (doc : Obj) :
  Forall stringSelector (Planner.cases rules) ->
  let d := match Planner.default rules with
           | VUndefined | VNull => VNum (Z.of_nat (List.length (Planner.cases rules)))
           | d => d
           end in
  exists branches,
    Planner.fillCustomSort rules key pipeline sortObj (Some optionsSort)
    = Some ((pipeline ++ [Planner.AddSwitch ("sort_" ++ key) branches d])%list,
            setProp sortObj ("sort_" ++ key)
              match Planner.order rules with
              | Ascending => VNum 1
              | Descending => VNum (-1)
              end,
            Some optionsSort)
    /\ switchValue doc branches d
       = match lookupProp doc key with
         | Some (VStr x) => match selectedIndex x (Planner.cases rules) with
                            | Some i => i
                            | None => d
                            end
         | _ => d
         end.
Proof.
  intros Hsel d. unfold Planner.fillCustomSort.
  rewrite (customBranches_strings key _ Hsel). rewrite length_map.
  eexists. split; [reflexivity |].
  now apply switchValue_selectors.
Qed.

Lemma fillCustomSort_rank_witness :
  exists branches,
    Planner.fillCustomSort
      {| Planner.order := Descending; Planner.default := VUndefined;
         Planner.cases := [{| Planner.query := VStr "high"; Planner.index := VNum 0 |};
                           {| Planner.query := VStr "low"; Planner.index := VNum 1 |}] |}
      "priority" [] [] (Some [])
    = Some ([Planner.AddSwitch "sort_priority" branches (VNum 2)],
            [("sort_priority", VNum (-1))], Some [])
    /\ switchValue [("priority", VStr "low")] branches (VNum 2) = VNum 1.
Proof.
  apply (fillCustomSort_rank
           {| Planner.order := Descending; Planner.default := VUndefined;
              Planner.cases := [{| Planner.query := VStr "high"; Planner.index := VNum 0 |};
                                {| Planner.query := VStr "low"; Planner.index := VNum 1 |}] |}
           "priority" [] [] [] [("priority", VStr "low")]).
  repeat constructor; eexists; reflexivity.
Defined.
(** ** The plan of [findAll] for a sort *)

Lemma hasProp_setProp_same (o : Obj) (k : string) (v : Value) :
  hasProp (setProp o k v) k = true.
Proof. unfold hasProp. now rewrite lookupProp_setProp_same. Qed.

Lemma hasProp_setProp_kept (o : Obj) (k k' : string) (v : Value) :
  hasProp o k' = true -> hasProp (setProp o k v) k' = true.
Proof.
  unfold hasProp. destruct (String.eqb k k') eqn:E.
  - apply String.eqb_eq in E. subst k'. now rewrite lookupProp_setProp_same.
  - apply String.eqb_neq in E. now rewrite lookupProp_setProp_other.
Qed.

Lemma sortValue_In (s : Planner.FindSort) (key : string) :
  In key (map fst s) -> exists v, Planner.sortValue s key = Some v /\ In (key, v) s.
Proof.
  induction s as [| [k v] s IH]; simpl; [intros [] |].
  destruct (String.eqb k key) eqn:E.
  - apply String.eqb_eq in E. subst k. intros _. exists v. split; [reflexivity | now left].
  - apply String.eqb_neq in E. intros [H | H]; [contradiction |].
    destruct (IH H) as [v' [Hv Hin]]. exists v'. split; [exact Hv | now right].
Qed.

Section SortPlans.

Variable h : Hierarchy.
Variable esc : string -> string.
Variable getEnum : Ref -> Planner.Enum.

Abbreviation fillSortKey := (Planner.fillSortKey h getEnum).
Abbreviation translateKey := (MongoAdapterBase.translateKey h).
Abbreviation checkMixinKey := (MongoAdapterBase.checkMixinKey h).

(** Without rules among the values of the sort, a turn of the loop of
    [fillSortPipeline] appends to the pipeline and adds to the sort
    object; for a date attribute it appends the stage of the date planner
    and sorts by the field of that stage. *)
Lemma fillSortKey_orders (clazz : Ref) (s : Planner.FindSort) (_key : string)
    (pipeline : list Planner.PipelineStage) (sortObj : Obj) :
  (forall rules, Planner.sortValue s _key <> Some (Planner.ByRules rules)) ->
  exists added sortObj',
    fillSortKey clazz s (Some (pipeline, sortObj)) _key
    = Some ((pipeline ++ added)%list, sortObj')
    /\ (forall k, hasProp sortObj k = true -> hasProp sortObj' k = true)
    /\ (Planner.isDate h clazz _key = true ->
        In (dateStage (translateKey _key clazz)) added
        /\ hasProp sortObj' ("sort_isNull_" ++ translateKey _key clazz) = true).
Proof.
  intros Hrules. unfold Planner.fillSortKey.
  destruct (Planner.sortValue s _key) as [[o | rules] |] eqn:Hv;
    try (exfalso; now apply (Hrules rules)).
  - destruct (Planner.isDate h clazz _key) eqn:Hd.
    + unfold fillDateSort. cbn [map app].
      do 2 eexists. split; [reflexivity |]. split.
      * intros k Hk. now do 2 apply hasProp_setProp_kept.
      * intros _. split; [now left |].
        apply hasProp_setProp_kept, hasProp_setProp_same.
    + destruct (Planner.getEnumById h getEnum clazz _key) as [enumOf |].
      * unfold Planner.fillEnumSort.
        do 2 eexists. split; [reflexivity |]. split; [| discriminate].
        intros k Hk. now apply hasProp_setProp_kept.
      * exists [], (setProp sortObj (translateKey _key clazz) (Planner.orderOf s _key)).
        rewrite app_nil_r. split; [reflexivity |]. split; [| discriminate].
        intros k Hk. now apply hasProp_setProp_kept.
  - destruct (Planner.isDate h clazz _key) eqn:Hd.
    + unfold fillDateSort. cbn [map app].
      do 2 eexists. split; [reflexivity |]. split.
      * intros k Hk. now do 2 apply hasProp_setProp_kept.
      * intros _. split; [now left |].
        apply hasProp_setProp_kept, hasProp_setProp_same.
    + destruct (Planner.getEnumById h getEnum clazz _key) as [enumOf |].
      * unfold Planner.fillEnumSort.
        do 2 eexists. split; [reflexivity |]. split; [| discriminate].
        intros k Hk. now apply hasProp_setProp_kept.
      * exists [], (setProp sortObj (translateKey _key clazz) (Planner.orderOf s _key)).
        rewrite app_nil_r. split; [reflexivity |]. split; [| discriminate].
        intros k Hk. now apply hasProp_setProp_kept.
Qed.

Lemma fillSortKeys_orders (clazz : Ref) (s : Planner.FindSort) (keys : list string) :
  forall (pipeline : list Planner.PipelineStage) (sortObj : Obj),
    (forall key rules, In key keys ->
       Planner.sortValue s key <> Some (Planner.ByRules rules)) ->
    exists added sortObj',
      fold_left (fillSortKey clazz s) keys (Some (pipeline, sortObj))
      = Some ((pipeline ++ added)%list, sortObj')
      /\ (forall k, hasProp sortObj k = true -> hasProp sortObj' k = true)
      /\ (forall key, In key keys -> Planner.isDate h clazz key = true ->
            In (dateStage (translateKey key clazz)) added
            /\ hasProp sortObj' ("sort_isNull_" ++ translateKey key clazz) = true).
Proof.
  induction keys as [| key keys IH]; intros pipeline sortObj Hrules.
  - exists [], sortObj. simpl. rewrite app_nil_r. repeat split; auto; contradiction.
  - cbn [fold_left].
    destruct (fillSortKey_orders clazz s key pipeline sortObj)
      as [added1 [sortObj1 [H1 [Hkept1 Hdate1]]]].
    { intros rules. apply Hrules. now left. }
    rewrite H1.
    destruct (IH (pipeline ++ added1)%list sortObj1)
      as [added2 [sortObj2 [H2 [Hkept2 Hdate2]]]].
    { intros key' rules Hin. apply Hrules. now right. }
    exists (added1 ++ added2)%list, sortObj2.
    rewrite H2, <- app_assoc. split; [reflexivity |]. split.
    + intros k Hk. now apply Hkept2, Hkept1.
    + intros key' [<- | Hin] Hd.
      * destruct (Hdate1 Hd) as [Hs Hp]. split; [apply in_or_app; now left |].
        now apply Hkept2.
      * destruct (Hdate2 key' Hin Hd) as [Hs Hp]. split; [apply in_or_app; now right |].
        exact Hp.
Qed.

Lemma collectSort_entries (clazz : Ref) (s : Planner.FindSort) (keys : list string) :
  forall (acc : Obj) (k : string) (v : Value),
    lookupProp
      (fold_left (fun acc key => setProp acc (checkMixinKey key clazz)
                                   (Planner.orderOf s key)) keys acc) k = Some v ->
    lookupProp acc k = Some v
    \/ (exists key, In key keys /\ k = checkMixinKey key clazz)
       /\ (v = VNum 1 \/ v = VNum (-1)).
Proof.
  induction keys as [| key keys IH]; intros acc k v; simpl; [now left |].
  intros H. destruct (IH _ _ _ H) as [Hacc | [[key' [Hin Hk]] Hv]].
  - destruct (String.eqb (checkMixinKey key clazz) k) eqn:E.
    + apply String.eqb_eq in E. subst k. rewrite lookupProp_setProp_same in Hacc.
      injection Hacc as <-. right. split; [exists key; split; [now left | reflexivity] |].
      unfold Planner.orderOf.
      destruct (Planner.sortValue s key) as [[[|] | ] |]; auto.
    + apply String.eqb_neq in E. rewrite lookupProp_setProp_other in Hacc by exact E.
      now left.
  - right. split; [exists key'; split; [now right | exact Hk] | exact Hv].
Qed.

(** X22.  A sort whose values are all sorting orders is planned in one of
    two ways.  Without a lookup and without an enumeration among the
    sorted attributes, [findAll] makes a plain find whose sort document is
    that of [collectSort]: each of its entries is a sorted key, qualified
    by its mixin, with [1] or [-1], so that no derived field is sorted by
    and the date planner is not used.  With a lookup, [findAll] makes an
    aggregation in which, for every sorted date attribute, the date
    planner's stage is present and the [$sort] stage sorts by the field
    that stage adds. *)
Theorem findAll_sort_plans (clazz : Ref) (q filter : Obj) (o : Planner.FindOptions)
    (s : Planner.FindSort) :
  MongoAdapterBase.translateQuery h esc clazz q = Some filter ->
  Planner.sort o = Some s ->
  Planner.isRulesSort (Some o) = false ->
  (Planner.lookup o = None ->
   Planner.isEnumSort h clazz (Some o) = false ->
   exists plan,
     Planner.findAll h esc getEnum clazz q (Some o) = Some plan
     /\ plainFind plan = true
     /\ planSort plan = Planner.collectSort h (Some o) clazz
     /\ (forall sortObj k v,
           planSort plan = Some sortObj ->
           lookupProp sortObj k = Some v ->
           (exists key, In key (map fst s) /\ k = checkMixinKey key clazz)
           /\ (v = VNum 1 \/ v = VNum (-1))))
  /\ (Planner.lookup o <> None ->
      exists domain pipeline totalPipeline sortObj,
        Planner.findAll h esc getEnum clazz q (Some o)
        = Some (Planner.Aggregate domain pipeline totalPipeline)
        /\ In (Planner.Match filter) pipeline
        /\ In (Planner.Sort sortObj) pipeline
        /\ (forall key, In key (map fst s) -> Planner.isDate h clazz key = true ->
              In (dateStage (translateKey key clazz)) pipeline
              /\ hasProp sortObj ("sort_isNull_" ++ translateKey key clazz) = true)).
Proof.
  intros Hq Hs Hrules.
  assert (Hnorules : forall key rules, In key (map fst s) ->
            Planner.sortValue s key <> Some (Planner.ByRules rules)).
  { intros key rules Hin Hv. unfold Planner.isRulesSort in Hrules. rewrite Hs in Hrules.
    destruct (sortValue_In s key Hin) as [v [Hv' Hkv]].
    rewrite Hv in Hv'. injection Hv' as <-.
    assert (Hex : existsb (fun kv => match snd kv with
                                     | Planner.ByRules _ => true
                                     | Planner.ByOrder _ => false
                                     end) s = true).
    { apply existsb_exists. exists (key, Planner.ByRules rules). now split. }
    congruence. }
  split.
  - intros Hl He. unfold Planner.findAll. rewrite Hl, He, Hrules, Hq. cbn [orb].
    assert (Hentries : forall sortObj k v,
              Planner.collectSort h (Some o) clazz = Some sortObj ->
              lookupProp sortObj k = Some v ->
              (exists key, In key (map fst s) /\ k = checkMixinKey key clazz)
              /\ (v = VNum 1 \/ v = VNum (-1))).
    { unfold Planner.collectSort. rewrite Hs. intros sortObj k v Hc Hk.
      destruct s as [| kv s']; [discriminate |]. injection Hc as <-.
      destruct (collectSort_entries clazz (kv :: s') (map fst (kv :: s')) [] k v Hk)
        as [Hnil | H]; [discriminate | exact H]. }
    destruct (Planner.limit o) as [[| [p | p |] | p] |];
      try (eexists; (split; [reflexivity |]); (split; [reflexivity |]);
           (split; [reflexivity |]); exact Hentries).
    destruct (Planner.idIsString q);
      eexists; (split; [reflexivity |]); (split; [reflexivity |]);
      (split; [reflexivity |]); exact Hentries.
  - intros Hl. unfold Planner.findAll.
    destruct (Planner.lookup o) as [l |] eqn:El; [| contradiction].
    unfold Planner.findWithPipeline. rewrite Hq.
    unfold Planner.fillSortPipeline. rewrite Hs, El.
    set (start := ((if Planner.isLookupQuery q || Planner.isLookupSort (Some s)
                    then map Planner.LookupStage (getLookups h clazz (Some l) None)
                    else []) ++ [Planner.Match filter])%list).
    destruct (fillSortKeys_orders clazz s (map fst s) start [] Hnorules)
      as [added [sortObj [Hfold [_ Hdate]]]].
    unfold Obj in *. rewrite Hfold.
    do 3 eexists. exists sortObj. split; [reflexivity |].
    assert (Hin : forall x, In x ((start ++ added) ++ [Planner.Sort sortObj])%list ->
                    In x
                      ((match Planner.limit o with
                        | Some n => ((start ++ added) ++ [Planner.Sort sortObj])
                                    ++ [Planner.Limit n]
                        | None =>
                            if Planner.idIsString q
                            then ((start ++ added) ++ [Planner.Sort sortObj])
                                 ++ [Planner.Limit 1]
                            else (start ++ added) ++ [Planner.Sort sortObj]
                        end
                        ++ (if Planner.isLookupQuery q || Planner.isLookupSort (Some s)
                            then []
                            else map Planner.LookupStage (getLookups h clazz (Some l) None)))
                       ++ match Planner.projection o with
                          | Some p =>
                              [Planner.Project
                                 (fold_left
                                    (fun acc key =>
                                       setProp acc (checkMixinKey key clazz) (getProp p key))
                                    (map fst p) [])]
                          | None => [Planner.Project [("%hash%", VNum 0)]]
                          end)%list).
    { intros x Hx. apply in_or_app. left. apply in_or_app. left.
      destruct (Planner.limit o); [apply in_or_app; now left |].
      destruct (Planner.idIsString q); [apply in_or_app; now left | exact Hx]. }
    split; [| split].
    + destruct (Planner.projection o); apply Hin; apply in_or_app; left;
        apply in_or_app; left; subst start; apply in_or_app; right; now left.
    + destruct (Planner.projection o); apply Hin; apply in_or_app; right; now left.
    + intros key Hkey Hd. destruct (Hdate key Hkey Hd) as [Hstage Hprop].
      split; [| exact Hprop].
      destruct (Planner.projection o); apply Hin; apply in_or_app; left;
        apply in_or_app; now right.
Qed.

End SortPlans.
Lemma findAll_sort_plans_witness :
  exists plan,
    Planner.findAll exampleHierarchy exampleEscape (fun _ => {| Planner.enumValues := [] |})
      "B" [("title", VStr "x")]
      (Some {| Planner.sort := Some [("due", Planner.ByOrder Descending)];
               Planner.lookup := None; Planner.limit := None;
               Planner.projection := None; Planner.total := false;
               Planner.domain := None |})
    = Some plan
    /\ planSort plan = Some [("due", VNum (-1))].
Proof.
  destruct (findAll_sort_plans exampleHierarchy exampleEscape
              (fun _ => {| Planner.enumValues := [] |}) "B" [("title", VStr "x")]
              [("title", VStr "x");
               ("_class", VObj [("$in", VArr [VStr "B"; VStr "D"; VStr "M"])])]
              {| Planner.sort := Some [("due", Planner.ByOrder Descending)];
                 Planner.lookup := None; Planner.limit := None;
                 Planner.projection := None; Planner.total := false;
                 Planner.domain := None |}
              [("due", Planner.ByOrder Descending)]
              eq_refl eq_refl eq_refl) as [Hplain _].
  destruct (Hplain eq_refl eq_refl) as [plan [Hplan [_ [Hsort _]]]].
  exists plan. split; [exact Hplan |]. rewrite Hsort. reflexivity.
Defined.

(** ** The order in which a batch is applied *)


Section FetchedAfterWrite.

Variable h : Hierarchy.
Variable isOperator : Obj -> bool.
Variable createDoc2Doc : TxCUD -> Obj -> Obj.






End FetchedAfterWrite.








(** ** Date sorts in the plan of [findAll] *)

Lemma sortOrder_ordersOf (s : Planner.FindSort) (key : string) (ord : SortingOrder) :
  Planner.sortValue s key = Some (Planner.ByOrder ord) ->
  sortOrder (Planner.ordersOf s) key = Some ord.
Proof.
  induction s as [| [k v] s IH]; cbn [Planner.sortValue]; [discriminate |].
  unfold Planner.ordersOf. cbn [flat_map fst snd].
  fold (Planner.ordersOf s).
  destruct (String.eqb k key) eqn:E.
  - intros [= ->]. cbn [app sortOrder]. now rewrite E.
  - intros H. destruct v as [o | rules]; cbn [app sortOrder]; [rewrite E |]; now apply IH.
Qed.

Lemma orderOf_directionOf (s : Planner.FindSort) (key : string) (ord : SortingOrder) :
  Planner.sortValue s key = Some (Planner.ByOrder ord) ->
  Planner.orderOf s key = directionOf ord.
Proof. unfold Planner.orderOf. intros ->. now destruct ord. Qed.

Lemma spread_app (o a b : Obj) : spread o (a ++ b)%list = spread (spread o a) b.
Proof. unfold spread. apply fold_left_app. Qed.

Lemma spread_lookup_other (ws : Obj) (f : string) :
  forall o,
    Forall (fun kv => fst kv <> f) ws -> lookupProp (spread o ws) f = lookupProp o f.
Proof.
  unfold spread. induction ws as [| [k v] ws IH]; intros o H; cbn [fold_left]; [reflexivity |].
  inversion H as [| ? ? Hk Hws]; subst. rewrite IH by exact Hws.
  apply lookupProp_setProp_other. exact Hk.
Qed.

(** Writing other fields leaves two neighbours of the object where they
    are. *)
Lemma setProp_keeps_pair (e l : Obj) (f1 f2 f : string) (d1 d2 v : Value) :
  f <> f1 -> f <> f2 ->
  exists e' l',
    setProp (e ++ (f1, d1) :: (f2, d2) :: l)%list f v
    = (e' ++ (f1, d1) :: (f2, d2) :: l')%list.
Proof.
  intros H1 H2. induction e as [| [k0 v0] e IH]; cbn [app setProp].
  - apply not_eq_sym in H1, H2. apply String.eqb_neq in H1, H2. rewrite H1, H2.
    exists [], (setProp l f v). reflexivity.
  - destruct (String.eqb k0 f).
    + exists ((f, v) :: e), l. reflexivity.
    + destruct IH as [e' [l' ->]]. exists ((k0, v0) :: e'), l'. reflexivity.
Qed.

Lemma spread_keeps_pair (ws : Obj) (f1 f2 : string) (d1 d2 : Value) :
  forall e l,
    Forall (fun kv => fst kv <> f1 /\ fst kv <> f2) ws ->
    exists e' l',
      spread (e ++ (f1, d1) :: (f2, d2) :: l)%list ws
      = (e' ++ (f1, d1) :: (f2, d2) :: l')%list.
Proof.
  unfold spread. induction ws as [| [k v] ws IH]; intros e l H; cbn [fold_left].
  - now exists e, l.
  - inversion H as [| ? ? [Hk1 Hk2] Hws]; subst. cbn [fst snd] in *.
    destruct (setProp_keeps_pair e l f1 f2 k d1 d2 v Hk1 Hk2) as [e1 [l1 ->]].
    apply IH. exact Hws.
Qed.

Lemma sortCompare_app (e r a b : Obj) :
  sortCompare (e ++ r)%list a b
  = match sortCompare e a b with
    | Eq => sortCompare r a b
    | c => c
    end.
Proof.
  induction e as [| [k dir] e IH]; cbn [app sortCompare]; [reflexivity |].
  destruct (compareValues (lookupProp a k) (lookupProp b k)); [exact IH | |];
    destruct dir as [| | |[]| | |]; try reflexivity;
    try (destruct p; reflexivity).
Qed.

(** The derived field decides between a document that has a value and
    one whose value is null or missing. *)
Lemma sortCompare_derived (tk : string) (dir : Value) (later a b : Obj) (v : Value) :
  derived tk a -> derived tk b ->
  lookupProp a tk = Some v -> v <> VNull ->
  (lookupProp b tk = None \/ lookupProp b tk = Some VNull) ->
  sortCompare (("sort_isNull_" ++ tk, dir) :: (tk, dir) :: later) a b
  = match dir with
    | VNum 1 => Lt
    | _ => Gt
    end.
Proof.
  unfold derived. intros Ha Hb Hv Hne Hnull. cbn [sortCompare].
  rewrite Ha, Hb.
  assert (Ea : evalExpr a (EOr [EIsNull tk; EIsMissing tk]) = false).
  { cbn. rewrite Hv. destruct v; try reflexivity. contradiction. }
  assert (Eb : evalExpr b (EOr [EIsNull tk; EIsMissing tk]) = true).
  { cbn. destruct Hnull as [-> | ->]; reflexivity. }
  rewrite Ea, Eb. cbn [compareValues bsonRank Nat.compare Bool.compare].
  destruct dir as [| | |[]| | |]; try reflexivity; destruct p; reflexivity.
Qed.

(** The stage of the date planner leaves the derived field as it computes
    it from the document. *)
Lemma runAddFields_derived (tk : string) (doc : Obj) :
  derived tk
    (runAddFields [AddFields ("sort_isNull_" ++ tk) (EOr [EIsNull tk; EIsMissing tk])] doc).
Proof.
  unfold derived, runAddFields. cbn [fold_left].
  rewrite lookupProp_setProp_same. do 2 f_equal.
  cbn [evalExpr]. now rewrite (lookupProp_setProp_other _ _ _ _ (isNull_key_fresh tk)).
Qed.

Lemma apart_fields (tk tk' f : string) :
  apart tk tk' ->
  f = tk' \/ f = "sort_" ++ tk' \/ f = "sort_isNull_" ++ tk' ->
  f <> "sort_isNull_" ++ tk /\ f <> tk.
Proof.
  intros [H1 [H2 [H3 [H4 H5]]]] [-> | [-> | ->]]; split; try congruence.
  - intros H. apply H2. cbn in H. now injection H.
  - intros H. apply H1. cbn in H. now injection H.
Qed.

Ltac written_fields :=
  repeat (apply Forall_cons;
          [cbn [fst];
           first [left; reflexivity | right; left; reflexivity | right; right; reflexivity] |]);
  apply Forall_nil.

Section DateSortPlans.

Variable h : Hierarchy.
Variable esc : string -> string.
Variable getEnum : Ref -> Planner.Enum.

Abbreviation fillSortKey := (Planner.fillSortKey h getEnum).
Abbreviation translateKey := (MongoAdapterBase.translateKey h).
Abbreviation checkMixinKey := (MongoAdapterBase.checkMixinKey h).

(** A turn of the loop of [fillSortPipeline] appends to the pipeline and
    writes fields of the sort document that are made of its translated
    key; it fails only on rules with a selector that cannot be read. *)
Lemma fillSortKey_writes (clazz : Ref) (s : Planner.FindSort) (_key : string)
    (pipeline : list Planner.PipelineStage) (sortObj : Obj) :
  (forall rules, Planner.sortValue s _key = Some (Planner.ByRules rules) ->
     Planner.customBranches (translateKey _key clazz) (Planner.cases rules) <> None) ->
  exists added ws,
    fillSortKey clazz s (Some (pipeline, sortObj)) _key
    = Some ((pipeline ++ added)%list, spread sortObj ws)
    /\ Forall (fun kv => fst kv = translateKey _key clazz
                         \/ fst kv = "sort_" ++ translateKey _key clazz
                         \/ fst kv = "sort_isNull_" ++ translateKey _key clazz) ws.
Proof.
  intros Hok. unfold Planner.fillSortKey.
  assert (Hother :
    exists added ws,
      (if Planner.isDate h clazz _key
       then let '(stages, sortObj', _) :=
              fillDateSort (translateKey _key clazz) [] sortObj
                (Some (Planner.ordersOf s)) _key in
            Some ((pipeline ++ map Planner.Planned stages)%list, sortObj')
       else match Planner.getEnumById h getEnum clazz _key with
            | Some enumOf =>
                let '(pipeline', sortObj', _) :=
                  Planner.fillEnumSort enumOf (translateKey _key clazz) pipeline sortObj
                    (Some s) _key in
                Some (pipeline', sortObj')
            | None =>
                Some (pipeline,
                      setProp sortObj (translateKey _key clazz) (Planner.orderOf s _key))
            end)
      = Some ((pipeline ++ added)%list, spread sortObj ws)
      /\ Forall (fun kv => fst kv = translateKey _key clazz
                           \/ fst kv = "sort_" ++ translateKey _key clazz
                           \/ fst kv = "sort_isNull_" ++ translateKey _key clazz) ws).
  { destruct (Planner.isDate h clazz _key).
    - unfold fillDateSort. cbn [map].
      eexists.
      exists [("sort_isNull_" ++ translateKey _key clazz,
               direction (Planner.ordersOf s) _key);
              (translateKey _key clazz, direction (Planner.ordersOf s) _key)].
      split; [reflexivity |].
      written_fields.
    - destruct (Planner.getEnumById h getEnum clazz _key) as [enumOf |].
      + unfold Planner.fillEnumSort.
        eexists. exists [("sort_" ++ translateKey _key clazz, Planner.orderOf s _key)].
        split; [reflexivity |]. written_fields.
      + exists [], [(translateKey _key clazz, Planner.orderOf s _key)].
        rewrite app_nil_r. split; [reflexivity |]. written_fields. }
  destruct (Planner.sortValue s _key) as [[o | rules] |] eqn:Hv; try exact Hother.
  unfold Planner.fillCustomSort.
  destruct (Planner.customBranches (translateKey _key clazz) (Planner.cases rules))
    as [branches |] eqn:Eb; [| exfalso; now apply (Hok rules)].
  eexists.
  exists [("sort_" ++ translateKey _key clazz,
           match Planner.order rules with
           | Ascending => VNum 1
           | Descending => VNum (-1)
           end)].
  split; [reflexivity |]. written_fields.
Qed.

Lemma fillSortKeys_writes (clazz : Ref) (s : Planner.FindSort) (keys : list string) :
  forall (pipeline : list Planner.PipelineStage) (sortObj : Obj),
    (forall k rules, In k keys -> Planner.sortValue s k = Some (Planner.ByRules rules) ->
       Planner.customBranches (translateKey k clazz) (Planner.cases rules) <> None) ->
    exists added ws,
      fold_left (fillSortKey clazz s) keys (Some (pipeline, sortObj))
      = Some ((pipeline ++ added)%list, spread sortObj ws)
      /\ Forall (fun kv => exists k, In k keys
                           /\ (fst kv = translateKey k clazz
                               \/ fst kv = "sort_" ++ translateKey k clazz
                               \/ fst kv = "sort_isNull_" ++ translateKey k clazz)) ws.
Proof.
  induction keys as [| key keys IH]; intros pipeline sortObj Hok.
  - exists [], []. cbn. rewrite app_nil_r. split; [reflexivity | constructor].
  - cbn [fold_left].
    destruct (fillSortKey_writes clazz s key pipeline sortObj) as [a1 [w1 [H1 F1]]].
    { intros rules. apply Hok. now left. }
    rewrite H1.
    destruct (IH (pipeline ++ a1)%list (spread sortObj w1)) as [a2 [w2 [H2 F2]]].
    { intros k rules Hin. apply Hok. now right. }
    exists (a1 ++ a2)%list, (w1 ++ w2)%list.
    rewrite H2, <- app_assoc, spread_app. split; [reflexivity |].
    apply Forall_app. split.
    + eapply Forall_impl; [| exact F1]. intros kv Hkv. exists key. split; [now left | exact Hkv].
    + eapply Forall_impl; [| exact F2]. intros kv [k [Hin Hkv]].
      exists k. split; [now right | exact Hkv].
Qed.

(** The turn of a date attribute sorted by a plain order. *)
Lemma fillSortKey_date (clazz : Ref) (s : Planner.FindSort) (key : string)
    (ord : SortingOrder) (pipeline : list Planner.PipelineStage) (sortObj : Obj) :
  Planner.sortValue s key = Some (Planner.ByOrder ord) ->
  Planner.isDate h clazz key = true ->
  fillSortKey clazz s (Some (pipeline, sortObj)) key
  = Some ((pipeline ++ [dateStage (translateKey key clazz)])%list,
          setProp (setProp sortObj ("sort_isNull_" ++ translateKey key clazz)
                     (directionOf ord))
            (translateKey key clazz) (directionOf ord)).
Proof.
  intros Hv Hd. unfold Planner.fillSortKey. rewrite Hv, Hd.
  unfold fillDateSort, direction. rewrite (sortOrder_ordersOf s key ord Hv).
  destruct ord; reflexivity.
Qed.

(** The sort document of the aggregation, around a date attribute whose
    fields no other sort key writes. *)
Lemma fillSortKeys_date (clazz : Ref) (s : Planner.FindSort) (k1 k2 : list string)
    (key : string) (ord : SortingOrder) (start : list Planner.PipelineStage) :
  Planner.sortValue s key = Some (Planner.ByOrder ord) ->
  Planner.isDate h clazz key = true ->
  (forall k rules, Planner.sortValue s k = Some (Planner.ByRules rules) ->
     Planner.customBranches (translateKey k clazz) (Planner.cases rules) <> None) ->
  exists added1 added2 sortObj,
    fold_left (fillSortKey clazz s) (k1 ++ key :: k2)%list (Some (start, []))
    = Some ((start ++ added1 ++ dateStage (translateKey key clazz) :: added2)%list, sortObj)
    /\ ((forall key', In key' (k1 ++ k2)%list ->
           apart (translateKey key clazz) (translateKey key' clazz)) ->
        exists earlier later,
          sortObj
          = (earlier
             ++ (("sort_isNull_" ++ translateKey key clazz)%string, directionOf ord)
                :: (translateKey key clazz, directionOf ord) :: later)%list).
Proof.
  intros Hv Hd Hok. rewrite fold_left_app. cbn [fold_left].
  destruct (fillSortKeys_writes clazz s k1 start []) as [a1 [w1 [H1 F1]]].
  { intros k rules _. apply Hok. }
  unfold Obj in *.
  rewrite H1, (fillSortKey_date clazz s key ord _ _ Hv Hd).
  destruct (fillSortKeys_writes clazz s k2
              ((start ++ a1) ++ [dateStage (translateKey key clazz)])%list
              (setProp (setProp (spread [] w1)
                          ("sort_isNull_" ++ translateKey key clazz) (directionOf ord))
                 (translateKey key clazz) (directionOf ord)))
    as [a2 [w2 [H2 F2]]].
  { intros k rules _. apply Hok. }
  unfold Obj in *. rewrite H2.
  exists a1, a2. eexists. split.
  { f_equal. f_equal. rewrite <- !app_assoc. reflexivity. }
  intros Hapart.
  assert (A1 : Forall (fun kv => fst kv <> "sort_isNull_" ++ translateKey key clazz
                                 /\ fst kv <> translateKey key clazz) w1).
  { eapply Forall_impl; [| exact F1]. intros kv [k [Hin Hkv]].
    apply (apart_fields _ (translateKey k clazz)); [| exact Hkv].
    apply Hapart. apply in_or_app. now left. }
  assert (A2 : Forall (fun kv => fst kv <> "sort_isNull_" ++ translateKey key clazz
                                 /\ fst kv <> translateKey key clazz) w2).
  { eapply Forall_impl; [| exact F2]. intros kv [k [Hin Hkv]].
    apply (apart_fields _ (translateKey k clazz)); [| exact Hkv].
    apply Hapart. apply in_or_app. now right. }
  assert (N1 : lookupProp (spread [] w1) ("sort_isNull_" ++ translateKey key clazz) = None).
  { rewrite spread_lookup_other; [reflexivity |].
    eapply Forall_impl; [| exact A1]. now intros kv [Ha _]. }
  assert (N2 : lookupProp (spread [] w1) (translateKey key clazz) = None).
  { rewrite spread_lookup_other; [reflexivity |].
    eapply Forall_impl; [| exact A1]. now intros kv [_ Hb]. }
  rewrite (setProp_fresh _ _ _ N1).
  rewrite setProp_fresh.
  2:{ rewrite lookupProp_app, N2. cbn [lookupProp].
      pose proof (isNull_key_fresh (translateKey key clazz)) as Hf.
      apply String.eqb_neq in Hf. now rewrite Hf. }
  rewrite <- app_assoc. cbn [app].
  apply spread_keeps_pair. exact A2.
Qed.

(** The aggregation of [findWithPipeline] around its [$sort] stage. *)
Lemma findWithPipeline_sort (clazz : Ref) (q filter : Obj) (o : Planner.FindOptions)
    (s : Planner.FindSort) (added : list Planner.PipelineStage) (sortObj : Obj) :
  MongoAdapterBase.translateQuery h esc clazz q = Some filter ->
  Planner.sort o = Some s ->
  fold_left (fillSortKey clazz s) (map fst s)
    (Some (((if Planner.isLookupQuery q || Planner.isLookupSort (Some s)
             then map Planner.LookupStage (getLookups h clazz (Planner.lookup o) None)
             else []) ++ [Planner.Match filter])%list, []))
  = Some ((((if Planner.isLookupQuery q || Planner.isLookupSort (Some s)
             then map Planner.LookupStage (getLookups h clazz (Planner.lookup o) None)
             else []) ++ [Planner.Match filter]) ++ added)%list, sortObj) ->
  exists domain after totalPipeline,
    Planner.findWithPipeline h esc getEnum clazz q (Some o)
    = Some (domain,
            ((((if Planner.isLookupQuery q || Planner.isLookupSort (Some s)
                then map Planner.LookupStage (getLookups h clazz (Planner.lookup o) None)
                else []) ++ [Planner.Match filter]) ++ added)
             ++ Planner.Sort sortObj :: after)%list,
            totalPipeline).
Proof.
  intros Hq Hs Hfold. unfold Planner.findWithPipeline. rewrite Hq.
  unfold Planner.fillSortPipeline. rewrite Hs.
  unfold Obj in *. rewrite Hfold.
  eexists.
  exists ((match Planner.limit o with
           | Some n => [Planner.Limit n]
           | None => if Planner.idIsString q then [Planner.Limit 1] else []
           end
           ++ (if Planner.isLookupQuery q || Planner.isLookupSort (Some s)
               then []
               else map Planner.LookupStage (getLookups h clazz (Planner.lookup o) None)))
          ++ [match Planner.projection o with
              | Some p =>
                  Planner.Project
                    (fold_left
                       (fun acc key => setProp acc (checkMixinKey key clazz) (getProp p key))
                       (map fst p) [])
              | None => Planner.Project [("%hash%", VNum 0)]
              end])%list.
  eexists. f_equal. f_equal. f_equal.
  destruct (Planner.projection o); destruct (Planner.limit o);
    try destruct (Planner.idIsString q);
    rewrite <- ?app_assoc; cbn [app]; rewrite ?app_nil_r; reflexivity.
Qed.

Lemma sortValue_Some_In (s : Planner.FindSort) (key : string) (v : Planner.SortValue) :
  Planner.sortValue s key = Some v -> In key (map fst s).
Proof.
  induction s as [| [k w] s IH]; cbn [Planner.sortValue map fst]; [discriminate |].
  destruct (String.eqb k key) eqn:E.
  - apply String.eqb_eq in E. now left.
  - intros H. right. now apply IH.
Qed.

Lemma collectSort_other (clazz : Ref) (s : Planner.FindSort) (keys : list string)
    (f : string) :
  forall acc,
    (forall key', In key' keys -> checkMixinKey key' clazz <> f) ->
    lookupProp
      (fold_left (fun acc key => setProp acc (checkMixinKey key clazz)
                                   (Planner.orderOf s key)) keys acc) f
    = lookupProp acc f.
Proof.
  induction keys as [| k keys IH]; intros acc Hk; cbn [fold_left]; [reflexivity |].
  rewrite IH by (intros key' Hin; apply Hk; now right).
  apply lookupProp_setProp_other. apply Hk. now left.
Qed.

(** C6 (as amended).  A sort key on a date attribute, given as a plain
    order, is planned in one of two ways.  When [findAll] makes a plain
    find (no lookup, and no sort key on an enumeration or with rules),
    the sort document has the sort keys only, qualified by their mixin,
    with [1] or [-1]: the date is sorted by its raw value in the
    requested direction and no derived field is sorted by.  When
    [findAll] makes an aggregation, the stage that derives the field
    "is null or missing" comes before the [$sort] stage, and the sort
    document has the derived field and, next after it, the raw value,
    both in the requested direction; so, of two documents that tie on
    the fields sorted before, the one whose value is null or missing is
    placed after the one that has a value when the direction is
    ascending, and before it when the direction is descending. *)
Theorem findAll_date_sort (clazz : Ref) (q filter : Obj) (o : Planner.FindOptions)
    (s : Planner.FindSort) (key : string) (ord : SortingOrder) :
  MongoAdapterBase.translateQuery h esc clazz q = Some filter ->
  Planner.sort o = Some s ->
  NoDup (map fst s) ->
  Planner.sortValue s key = Some (Planner.ByOrder ord) ->
  Planner.isDate h clazz key = true ->
  (Planner.lookup o = None ->
   Planner.isEnumSort h clazz (Some o) = false ->
   Planner.isRulesSort (Some o) = false ->
   exists plan sortObj,
     Planner.findAll h esc getEnum clazz q (Some o) = Some plan
     /\ plainFind plan = true
     /\ planSort plan = Some sortObj
     /\ (forall k v,
           lookupProp sortObj k = Some v ->
           (exists key', In key' (map fst s) /\ k = checkMixinKey key' clazz)
           /\ (v = VNum 1 \/ v = VNum (-1)))
     /\ ((forall key', In key' (map fst s) -> key' <> key ->
            checkMixinKey key' clazz <> checkMixinKey key clazz) ->
         lookupProp sortObj (checkMixinKey key clazz) = Some (directionOf ord)))
  /\ ((Planner.lookup o <> None
       \/ Planner.isEnumSort h clazz (Some o) = true
       \/ Planner.isRulesSort (Some o) = true) ->
      (forall k rules,
         Planner.sortValue s k = Some (Planner.ByRules rules) ->
         Planner.customBranches (translateKey k clazz) (Planner.cases rules) <> None) ->
      exists domain pipeline totalPipeline before between after sortObj,
        Planner.findAll h esc getEnum clazz q (Some o)
        = Some (Planner.Aggregate domain pipeline totalPipeline)
        /\ pipeline
           = (before ++ dateStage (translateKey key clazz)
                        :: between ++ Planner.Sort sortObj :: after)%list
        /\ (forall doc,
              derived (translateKey key clazz)
                (runAddFields
                   [AddFields ("sort_isNull_" ++ translateKey key clazz)
                      (EOr [EIsNull (translateKey key clazz);
                            EIsMissing (translateKey key clazz)])] doc))
        /\ ((forall key', In key' (map fst s) -> key' <> key ->
               apart (translateKey key clazz) (translateKey key' clazz)) ->
            exists earlier later,
              sortObj
              = (earlier
                 ++ (("sort_isNull_" ++ translateKey key clazz)%string, directionOf ord)
                    :: (translateKey key clazz, directionOf ord) :: later)%list
              /\ (forall a b v,
                    sortCompare earlier a b = Eq ->
                    derived (translateKey key clazz) a ->
                    derived (translateKey key clazz) b ->
                    lookupProp a (translateKey key clazz) = Some v ->
                    v <> VNull ->
                    (lookupProp b (translateKey key clazz) = None
                     \/ lookupProp b (translateKey key clazz) = Some VNull) ->
                    sortCompare sortObj a b
                    = match ord with
                      | Ascending => Lt
                      | Descending => Gt
                      end))).
Proof.
  intros Hq Hs Hnd Hv Hd.
  pose proof (sortValue_Some_In s key _ Hv) as Hin.
  destruct (in_split _ _ Hin) as [k1 [k2 Hkeys]].
  assert (Hothers : forall key', In key' (k1 ++ k2)%list ->
            In key' (map fst s) /\ key' <> key).
  { intros key' Hk. rewrite Hkeys in Hnd |- *.
    apply NoDup_remove_2 in Hnd. split.
    - apply in_app_or in Hk. apply in_or_app.
      destruct Hk as [Hk | Hk]; [now left | right; now right].
    - intros ->. now apply Hnd. }
  split.
  - intros Hl He Hr. unfold Planner.findAll. rewrite Hl, He, Hr, Hq. cbn [orb].
    assert (Hc : exists sortObj,
              Planner.collectSort h (Some o) clazz = Some sortObj
              /\ (forall k v,
                    lookupProp sortObj k = Some v ->
                    (exists key', In key' (map fst s) /\ k = checkMixinKey key' clazz)
                    /\ (v = VNum 1 \/ v = VNum (-1)))
              /\ ((forall key', In key' (map fst s) -> key' <> key ->
                     checkMixinKey key' clazz <> checkMixinKey key clazz) ->
                  lookupProp sortObj (checkMixinKey key clazz) = Some (directionOf ord))).
    { unfold Planner.collectSort. rewrite Hs.
      destruct s as [| kv s'] eqn:Es; [destruct Hin |]. rewrite <- Es in *.
      eexists. split; [reflexivity |]. split.
      - intros k v Hk.
        destruct (collectSort_entries h clazz s (map fst s) [] k v Hk)
          as [Hnil | H]; [discriminate | exact H].
      - intros Hck. rewrite Hkeys, fold_left_app. cbn [fold_left].
        rewrite collectSort_other.
        + rewrite lookupProp_setProp_same. f_equal. now apply orderOf_directionOf.
        + intros key' Hk. destruct (Hothers key') as [H1 H2];
            [apply in_or_app; now right |]. now apply Hck. }
    destruct Hc as [sortObj [Hc [Hentries Hdir]]].
    destruct (Planner.limit o) as [[| [p | p |] | p] |];
      try (eexists; exists sortObj; (split; [reflexivity |]); (split; [reflexivity |]);
           (split; [exact Hc |]); split; [exact Hentries | exact Hdir]).
    destruct (Planner.idIsString q);
      (eexists; exists sortObj; (split; [reflexivity |]); (split; [reflexivity |]);
       (split; [exact Hc |]); split; [exact Hentries | exact Hdir]).
  - intros Hvia Hok. unfold Planner.findAll.
    assert (Evia : match Planner.lookup o with
                   | Some _ => true
                   | None => Planner.isEnumSort h clazz (Some o)
                             || Planner.isRulesSort (Some o)
                   end = true).
    { destruct (Planner.lookup o); [reflexivity |].
      destruct Hvia as [Hvia | [-> | ->]]; [contradiction | reflexivity |].
      apply orb_true_r. }
    rewrite Evia.
    destruct (fillSortKeys_date clazz s k1 k2 key ord
                ((if Planner.isLookupQuery q || Planner.isLookupSort (Some s)
                  then map Planner.LookupStage (getLookups h clazz (Planner.lookup o) None)
                  else []) ++ [Planner.Match filter])%list Hv Hd Hok)
      as [added1 [added2 [sortObj [Hfold Hpair]]]].
    rewrite <- Hkeys in Hfold.
    destruct (findWithPipeline_sort clazz q filter o s
                (added1 ++ dateStage (translateKey key clazz) :: added2)%list sortObj
                Hq Hs)
      as [domain [after [totalPipeline Hplan]]].
    { unfold Obj in *. rewrite Hfold. now rewrite <- app_assoc. }
    rewrite Hplan.
    exists domain. eexists. exists totalPipeline.
    exists (((if Planner.isLookupQuery q || Planner.isLookupSort (Some s)
              then map Planner.LookupStage (getLookups h clazz (Planner.lookup o) None)
              else []) ++ [Planner.Match filter]) ++ added1)%list,
      added2, after, sortObj.
    split; [reflexivity |]. split.
    { rewrite <- !app_assoc. reflexivity. }
    split; [intros doc; apply runAddFields_derived |].
    intros Hapart.
    destruct Hpair as [earlier [later Hso]].
    { intros key' Hk. destruct (Hothers key' Hk) as [H1 H2]. now apply Hapart. }
    exists earlier, later. split; [exact Hso |].
    intros a b v Htie Ha Hb Hav Hne Hbn.
    rewrite Hso, sortCompare_app, Htie.
    rewrite (sortCompare_derived _ _ _ a b v Ha Hb Hav Hne Hbn).
    now destruct ord.
Qed.

End DateSortPlans.

Lemma findAll_date_sort_witness :
  exists domain pipeline totalPipeline before between after sortObj earlier later,
    Planner.findAll exampleHierarchy exampleEscape (fun _ => {| Planner.enumValues := [] |})
      "B" [("title", VStr "x")]
      (Some {| Planner.sort := Some [("due", Planner.ByOrder Descending)];
               Planner.lookup := Some []; Planner.limit := None;
               Planner.projection := None; Planner.total := false;
               Planner.domain := None |})
    = Some (Planner.Aggregate domain pipeline totalPipeline)
    /\ pipeline
       = (before ++ dateStage "due" :: between ++ Planner.Sort sortObj :: after)%list
    /\ sortObj
       = (earlier ++ ("sort_isNull_due", VNum (-1)) :: ("due", VNum (-1)) :: later)%list.
Proof.
  destruct (findAll_date_sort exampleHierarchy exampleEscape
              (fun _ => {| Planner.enumValues := [] |}) "B" [("title", VStr "x")]
              [("title", VStr "x");
               ("_class", VObj [("$in", VArr [VStr "B"; VStr "D"; VStr "M"])])]
              {| Planner.sort := Some [("due", Planner.ByOrder Descending)];
                 Planner.lookup := Some []; Planner.limit := None;
                 Planner.projection := None; Planner.total := false;
                 Planner.domain := None |}
              [("due", Planner.ByOrder Descending)] "due" Descending
              eq_refl eq_refl) as [_ Hagg].
  - repeat constructor. intros [].
  - reflexivity.
  - reflexivity.
  - destruct Hagg as [domain [pipeline [totalPipeline [before [between [after [sortObj
                       [Hplan [Hpipe Hsort]]]]]]]]].
    + left. discriminate.
    + intros k rules H. cbn [Planner.sortValue] in H.
      destruct (String.eqb "due" k); discriminate H.
    + destruct Hsort as [_ Hsort]. destruct Hsort as [earlier [later [Hso _]]].
      * intros key' [<- | []] Hne. now contradiction Hne.
      * exists domain, pipeline, totalPipeline, before, between, after, sortObj,
          earlier, later.
        split; [exact Hplan |]. split; [exact Hpipe | exact Hso].
Defined.

(** ** The translation of [$like] *)

Lemma join_cons_append (sep a x : string) (rest : list string) :
  join sep ((a ++ x) :: rest) = a ++ join sep (x :: rest).
Proof.
  destruct rest as [| y rest]; cbn [join]; [reflexivity |].
  now rewrite string_append_assoc.
Qed.

(** The body of the expression, one character of the pattern at a time. *)
Lemma likeBody_cons (c : ascii) (pattern : string) :
  join ".*" (map escapeLikeForRegexp (split "%" (String c pattern)))
  = (if Ascii.eqb c "%" then ".*"
     else if includesChar c regexpSyntax then String "\" (String c EmptyString)
     else String c EmptyString)
    ++ join ".*" (map escapeLikeForRegexp (split "%" pattern)).
Proof.
  cbn [split]. destruct (Ascii.eqb c "%") eqn:E.
  - pose proof (split_not_nil "%" pattern) as Hne.
    destruct (split "%" pattern) as [| seg segs]; [contradiction |].
    reflexivity.
  - pose proof (split_not_nil "%" pattern) as Hne.
    destruct (split "%" pattern) as [| seg segs]; [contradiction |].
    cbn [map escapeLikeForRegexp].
    destruct (includesChar c regexpSyntax).
    + apply (join_cons_append ".*" (String "\" (String c EmptyString))).
    + apply (join_cons_append ".*" (String c EmptyString)).
Qed.

Lemma regexpPieces_likeBody (pattern : string) :
  regexpPieces (join ".*" (map escapeLikeForRegexp (split "%" pattern)))
  = Some (likePieces pattern).
Proof.
  induction pattern as [| c pattern IH]; [reflexivity |].
  rewrite likeBody_cons. cbn [likePieces].
  destruct (Ascii.eqb c "%") eqn:E.
  - change (".*" ++ ?b) with (String "." (String "*" b)).
    cbn [regexpPieces]. change (Ascii.eqb "." "\") with false.
    change (Ascii.eqb "." ".") with true. change (Ascii.eqb "*" "*") with true.
    cbn iota. now rewrite IH.
  - destruct (includesChar c regexpSyntax) eqn:Es.
    + change (String "\" (String c EmptyString) ++ ?b) with (String "\" (String c b)).
      cbn [regexpPieces]. change (Ascii.eqb "\" "\") with true. cbn iota.
      rewrite Es. now rewrite IH.
    + change (String c EmptyString ++ ?b) with (String c b).
      cbn [regexpPieces].
      assert (Hb : Ascii.eqb c "\" = false).
      { destruct (Ascii.eqb c "\") eqn:Eb; [| reflexivity].
        apply Ascii.eqb_eq in Eb. subst c. discriminate Es. }
      assert (Hd : Ascii.eqb c "." = false).
      { destruct (Ascii.eqb c ".") eqn:Ed; [| reflexivity].
        apply Ascii.eqb_eq in Ed. subst c. discriminate Es. }
      rewrite Hb, Hd, Es. now rewrite IH.
Qed.

Lemma beforeDollar_append (body : string) : beforeDollar (body ++ "$") = Some body.
Proof.
  induction body as [| c body IH]; [reflexivity |].
  cbn [append beforeDollar]. rewrite IH.
  destruct body; reflexivity.
Qed.

(** The expression made of a pattern reads as the pattern. *)
Lemma anchoredPieces_likeRegex (pattern : string) :
  anchoredPieces (likeRegex escapeLikeForRegexp pattern) = Some (likePieces pattern).
Proof.
  unfold likeRegex.
  change ("^" ++ ?b) with (String "^" b).
  cbn [anchoredPieces]. change (Ascii.eqb "^" "^") with true. cbn iota.
  rewrite beforeDollar_append. apply regexpPieces_likeBody.
Qed.

Section LikeProperties.

Variable h : Hierarchy.
Variable esc : string -> string.

Abbreviation translateFields := (MongoAdapterBase.translateFields h esc).
Abbreviation restrictClass := (MongoAdapterBase.restrictClass h).
Abbreviation constrainClass := (MongoAdapterBase.constrainClass h).
Abbreviation translateKey := (MongoAdapterBase.translateKey h).

Lemma translateFields_other_keys (clazz : Ref) (query : Obj) (k : string) :
  forall acc t,
    translateFields clazz query acc = Some t ->
    (forall k' v', In (k', v') query -> translateKey k' clazz <> k) ->
    lookupProp t k = lookupProp acc k.
Proof.
  induction query as [| [k0 v0] query IH]; intros acc t; cbn [MongoAdapterBase.translateFields].
  - intros [= <-] _. reflexivity.
  - destruct (MongoAdapterBase.translateValue esc v0) as [v |]; [| discriminate].
    intros Ht Hk. rewrite (IH _ _ Ht).
    + apply lookupProp_setProp_other. apply (Hk k0 v0). now left.
    + intros k' v' Hin. apply (Hk k' v'). now right.
Qed.

(** The entry that the loop of [translateQuery] leaves for a [$like]
    predicate when no later key of the query is translated to the same
    key. *)
Lemma translateFields_like (clazz : Ref) (before after more : Obj) (key pattern : string) :
  forall acc t,
    translateFields clazz
      (before ++ (key, VObj (("$like", VStr pattern) :: more)) :: after)%list acc = Some t ->
    (forall k v, In (k, v) after -> translateKey k clazz <> translateKey key clazz) ->
    lookupProp t (translateKey key clazz) = Some (translateLikeQuery esc pattern).
Proof.
  induction before as [| [k0 v0] before IH]; intros acc t.
  - cbn [app MongoAdapterBase.translateFields MongoAdapterBase.translateValue].
    change (String.eqb "$like" "$like") with true. cbn iota.
    intros Ht Hafter.
    rewrite (translateFields_other_keys _ _ _ _ _ Ht Hafter).
    apply lookupProp_setProp_same.
  - cbn [app MongoAdapterBase.translateFields].
    destruct (MongoAdapterBase.translateValue esc v0) as [v |]; [| discriminate].
    intros Ht Hafter. apply (IH _ _ Ht Hafter).
Qed.

Lemma constrainClass_other_keys (classes : list Ref) (t : Obj) (k : string) :
  k <> "_class" -> lookupProp (constrainClass classes t) k = lookupProp t k.
Proof.
  intros Hk. unfold MongoAdapterBase.constrainClass.
  assert (Hne : "_class" <> k) by congruence.
  destruct (getProp t "_class"); try reflexivity;
    try (apply lookupProp_setProp_other; exact Hne).
  destruct (inStrings s classes); [reflexivity |].
  apply lookupProp_setProp_other; exact Hne.
Qed.

(** The class constraint rewrites [_class] and, for a mixin, the entry
    of the mixin; it leaves the other entries as they are. *)
Lemma restrictClass_other_keys (clazz : Ref) (t : Obj) (k : string) :
  k <> "_class" ->
  (k <> clazz \/ getBaseClass h clazz = clazz \/ getBaseClass h clazz = core_class_Doc) ->
  lookupProp (restrictClass clazz t) k = lookupProp t k.
Proof.
  intros Hk Hm. unfold MongoAdapterBase.restrictClass.
  rewrite collapseClass_other_keys by exact Hk.
  destruct (String.eqb (getBaseClass h clazz) core_class_Doc) eqn:Ed; cbn [negb].
  - destruct (hasProp t "_class"); [| reflexivity].
    apply lookupProp_deleteProp_other. congruence.
  - destruct (String.eqb (getBaseClass h clazz) clazz) eqn:Ec; cbn [negb].
    + now apply constrainClass_other_keys.
    + apply String.eqb_neq in Ed, Ec.
      destruct Hm as [Hm | [Hm | Hm]]; try contradiction.
      rewrite lookupProp_setProp_other by congruence.
      now apply constrainClass_other_keys.
Qed.

End LikeProperties.

(** C7 (as amended).  A predicate [{ $like: p }] with a string [p] is
    translated to an anchored, case-insensitive pattern in which every
    [%] of [p] is a wildcard for any sequence and every other character
    of [p], a regex metacharacter or not, stands for itself, the
    metacharacters being escaped before the segments are joined with the
    wildcard.  The translated filter holds this pattern under the
    translated key of the predicate, provided that key is neither
    [_class] nor the entry of a queried mixin, which the class
    constraint rewrites, and no later key of the query is translated to
    the same key. *)
Theorem translateLikeQuery_pattern (h : Hierarchy) (clazz : Ref)
    (query before after more : Obj) (key pattern : string) :
  query = (before ++ (key, VObj (("$like", VStr pattern) :: more)) :: after)%list ->
  wellTypedQuery query = true ->
  (forall k v, In (k, v) after ->
     MongoAdapterBase.translateKey h k clazz <> MongoAdapterBase.translateKey h key clazz) ->
  MongoAdapterBase.translateKey h key clazz <> "_class" ->
  (MongoAdapterBase.translateKey h key clazz <> clazz
   \/ getBaseClass h clazz = clazz
   \/ getBaseClass h clazz = core_class_Doc) ->
  exists translated regex,
    MongoAdapterBase.translateQuery h escapeLikeForRegexp clazz query = Some translated
    /\ lookupProp translated (MongoAdapterBase.translateKey h key clazz)
       = Some (VObj [("$regex", VStr regex); ("$options", VStr "i")])
    /\ regex = "^" ++ join ".*" (map escapeLikeForRegexp (split "%" pattern)) ++ "$"
    /\ anchoredPieces regex = Some (likePieces pattern).
Proof.
  intros Hquery Hwt Hafter Hclass Hmixin.
  destruct (translateFields_total h escapeLikeForRegexp clazz query [] Hwt) as [t Ef].
  unfold MongoAdapterBase.translateQuery. rewrite Ef.
  exists (MongoAdapterBase.restrictClass h clazz t), (likeRegex escapeLikeForRegexp pattern).
  split; [reflexivity |].
  split; [| split; [reflexivity | apply anchoredPieces_likeRegex]].
  rewrite (restrictClass_other_keys h clazz t _ Hclass Hmixin).
  rewrite Hquery in Ef.
  apply (translateFields_like h escapeLikeForRegexp clazz before after more key pattern
           [] t Ef Hafter).
Qed.

Lemma translateLikeQuery_pattern_witness :
  exists translated,
    MongoAdapterBase.translateQuery exampleHierarchy escapeLikeForRegexp "B"
      [("title", VObj [("$like", VStr "a.b%c$")])]
    = Some translated
    /\ lookupProp translated "title"
       = Some (VObj [("$regex", VStr "^a\.b.*c\$$"); ("$options", VStr "i")])
    /\ anchoredPieces "^a\.b.*c\$$"
       = Some [Literal "a"; Literal "."; Literal "b"; AnySequence; Literal "c";
               Literal "$"].
Proof.
  destruct (translateLikeQuery_pattern exampleHierarchy "B"
              [("title", VObj [("$like", VStr "a.b%c$")])]
              [] [] [] "title" "a.b%c$")
    as [translated [regex [Ht [Hl [Hr Hp]]]]].
  - reflexivity.
  - reflexivity.
  - intros k v [].
  - discriminate.
  - left. discriminate.
  - subst regex. exists translated. split; [exact Ht |]. split; [exact Hl | exact Hp].
Defined.

(** A [$like] on [_class] is not kept: the class constraint puts the
    descendants in its place. *)
Lemma translateLikeQuery_pattern_counterexample :
  exists clazz query,
    lookupProp query "_class" = Some (VObj [("$like", VStr "D%")])
    /\ MongoAdapterBase.translateKey exampleHierarchy "_class" clazz = "_class"
    /\ MongoAdapterBase.translateQuery exampleHierarchy escapeLikeForRegexp clazz query
       = Some [("_class", VObj [("$in", VArr [VStr "B"; VStr "D"])])].
Proof.
  exists "B", [("_class", VObj [("$like", VStr "D%")])].
  repeat split; reflexivity.
Qed.

(** * Properties of the chat triggers *)

Lemma sameValueZero_string (s : string) (l : list Value) :
  existsb (Chunter.sameValueZero (VStr s)) l = true <-> In (VStr s) l.
Proof.
  rewrite existsb_exists. split.
  - intros [v [Hin Hv]]. destruct v; try discriminate.
    apply String.eqb_eq in Hv. now subst.
  - intros Hin. exists (VStr s). split; [exact Hin |]. apply String.eqb_refl.
Qed.

Lemma NoDup_app_disjoint {A : Type} (l1 l2 : list A) :
  NoDup (l1 ++ l2) -> forall a, In a l1 -> ~ In a l2.
Proof.
  induction l1 as [| x l1 IH]; simpl; intros H a; [intros [] |].
  inversion H as [| ? ? Hnot Hnd]; subst.
  intros [<- | Hin] Hl2.
  - apply Hnot. apply in_or_app. now right.
  - now apply (IH Hnd a).
Qed.

Lemma stringsOf_app (a b : list Value) :
  stringsOf (a ++ b) = (stringsOf a ++ stringsOf b)%list.
Proof. unfold stringsOf. apply flat_map_app. Qed.

Lemma stringsOf_In (s : string) (l : list Value) : In s (stringsOf l) <-> In (VStr s) l.
Proof.
  unfold stringsOf. rewrite in_flat_map. split.
  - intros [v [Hin Hv]]. destruct v; try contradiction.
    destruct Hv as [-> | []]. exact Hin.
  - intros Hin. exists (VStr s). split; [exact Hin | now left].
Qed.

Lemma setOf_fold (l : list Value) :
  forall acc,
    let r := fold_left
               (fun acc v => if existsb (Chunter.sameValueZero v) acc then acc
                             else (acc ++ [v])%list) l acc in
    (forall v, In v r -> In v acc \/ In v l)
    /\ (forall v, In v acc -> In v r)
    /\ (forall s, In (VStr s) l -> In (VStr s) r)
    /\ (NoDup (stringsOf acc) -> NoDup (stringsOf r)).
Proof.
  induction l as [| x l IH]; intros acc; cbn [fold_left].
  - repeat split; auto. intros s [].
  - destruct (existsb (Chunter.sameValueZero x) acc) eqn:E.
    + destruct (IH acc) as [H1 [H2 [H3 H4]]]. repeat split.
      * intros v Hv. destruct (H1 v Hv); [now left | right; now right].
      * exact H2.
      * intros s [-> | Hs]; [| now apply H3].
        apply H2. now apply sameValueZero_string.
      * exact H4.
    + destruct (IH (acc ++ [x])%list) as [H1 [H2 [H3 H4]]]. repeat split.
      * intros v Hv. destruct (H1 v Hv) as [Ha | Hl]; [| right; now right].
        apply in_app_or in Ha. destruct Ha as [Ha | [<- | []]]; [now left |].
        right. now left.
      * intros v Hv. apply H2. apply in_or_app. now left.
      * intros s [-> | Hs]; [| now apply H3].
        apply H2. apply in_or_app. right. now left.
      * intros Hnd. apply H4. rewrite stringsOf_app.
        destruct x as [| | | | s | |]; cbn [stringsOf flat_map app];
          rewrite ?app_nil_r; try exact Hnd.
        apply NoDup_app; [exact Hnd | repeat constructor; intros [] |].
        intros s' Hs' [<- | []].
        apply stringsOf_In in Hs'. apply sameValueZero_string in Hs'. congruence.
Qed.

Lemma stringsOf_filter (l : list Value) :
  stringsOf (filter Chunter.notNullish l) = stringsOf l.
Proof.
  induction l as [| x l IH]; [reflexivity |].
  destruct x; cbn [filter Chunter.notNullish]; try exact IH.
  all: unfold stringsOf in *; cbn [flat_map]; now rewrite IH.
Qed.

(** X23.  [combineAttributes] returns the values that the operator adds
    or removes under the key, each once: every value it returns is among
    those the operator lists and is neither [null] nor [undefined], every
    string the operator lists is returned, and no string is returned
    twice. *)
Theorem combineAttributes_once (attributes : list Value) (key operator arrayKey : string)
    (result : list Value) :
  Chunter.combineAttributes attributes key operator arrayKey = Some result ->
  exists listed,
    Chunter.flatCombined attributes key operator arrayKey = Some listed
    /\ (forall v, In v result -> In v listed /\ Chunter.notNullish v = true)
    /\ (forall s, In (VStr s) listed -> In (VStr s) result)
    /\ NoDup (stringsOf result).
Proof.
  unfold Chunter.combineAttributes.
  destruct (Chunter.flatCombined attributes key operator arrayKey) as [listed |];
    [| discriminate].
  intros [= <-]. exists listed. split; [reflexivity |].
  destruct (setOf_fold listed []) as [H1 [_ [H3 H4]]].
  fold (Chunter.setOf listed) in H1, H3, H4.
  repeat split.
  - apply filter_In in H. destruct H as [H _].
    destruct (H1 v H) as [[] | Hl]. exact Hl.
  - apply filter_In in H. now destruct H.
  - intros s Hs. apply filter_In. split; [now apply H3 | reflexivity].
  - rewrite stringsOf_filter. apply H4. constructor.
Qed.

Lemma combineAttributes_once_witness :
  Chunter.combineAttributes
    [VObj [("$push", VObj [("members", VObj [("$each", VArr [VStr "u1"; VStr "u2";
                                                           VStr "u1"; VNull])])])]]
    "members" "$push" "$each"
  = Some [VStr "u1"; VStr "u2"]
  /\ NoDup (stringsOf [VStr "u1"; VStr "u2"]).
Proof.
  split; [reflexivity |].
  destruct (combineAttributes_once
              [VObj [("$push", VObj [("members", VObj [("$each", VArr [VStr "u1"; VStr "u2";
                                                                     VStr "u1"; VNull])])])]]
              "members" "$push" "$each" [VStr "u1"; VStr "u2"] eq_refl)
    as [listed [_ [_ [_ Hnd]]]].
  exact Hnd.
Defined.

Section TriggerProperties.

Variable notification_mixin_Collaborators : Ref.
Variable chunter_class_Channel : Ref.
Variable chunter_mixin_ChannelInfo : Ref.
Variable isDerived : Ref -> Ref -> bool.
Variable findChannel : Ref -> Ref -> list Chunter.Channel.

Abbreviation OnCollaboratorsChanged :=
  (Chunter.OnCollaboratorsChanged notification_mixin_Collaborators chunter_class_Channel
     isDerived findChannel).

Lemma joinChannel_joined (doc : Chunter.Channel) (added : list Value) :
  forall r, In r (flat_map (Chunter.joinChannel doc) added) ->
    exists user,
      In user added
      /\ r = Chunter.CreateTxUpdateDoc (Chunter.channelClass doc) (Chunter.channelSpace doc)
               (Chunter.channelId doc) [("$push", VObj [("members", user)])]
      /\ existsb (Chunter.sameValueZero user) (Chunter.members doc) = false.
Proof.
  intros r Hin. apply in_flat_map in Hin. destruct Hin as [user [Hu Hr]].
  unfold Chunter.joinChannel in Hr.
  destruct (existsb _ _) eqn:E; [contradiction |].
  destruct Hr as [<- | []]. now exists user.
Qed.

Lemma joinChannel_users (doc : Chunter.Channel) (added : list Value) :
  NoDup (stringsOf added) ->
  NoDup (stringsOf (flat_map (fun r => match joined r with
                                       | Some (_, u) => [u]
                                       | None => []
                                       end)
                      (flat_map (Chunter.joinChannel doc) added))).
Proof.
  induction added as [| u added IH]; [constructor |].
  cbn [flat_map]. rewrite flat_map_app, stringsOf_app.
  intros Hnd. change (u :: added) with ([u] ++ added)%list in Hnd.
  rewrite stringsOf_app in Hnd.
  assert (Hsub : forall s,
            In s (stringsOf (flat_map (fun r => match joined r with
                                                | Some (_, u) => [u]
                                                | None => []
                                                end) (Chunter.joinChannel doc u))) ->
            In s (stringsOf [u])).
  { intros s. unfold Chunter.joinChannel. destruct (existsb _ _); [intros [] |].
    cbn [flat_map joined app]. auto. }
  assert (Hone : NoDup (stringsOf (flat_map (fun r => match joined r with
                                                          | Some (_, u) => [u]
                                                          | None => []
                                                          end)
                                     (Chunter.joinChannel doc u)))).
  { unfold Chunter.joinChannel. destruct (existsb _ _); [constructor |].
    cbn [flat_map joined app].
    destruct u; cbn; repeat constructor; intros []. }
  apply NoDup_app; [exact Hone | apply IH; now apply NoDup_app_remove_l in Hnd |].
  intros s Hs1 Hs2. apply Hsub in Hs1.
  assert (Hs3 : In s (stringsOf added)).
  { apply stringsOf_In in Hs2. apply in_flat_map in Hs2.
    destruct Hs2 as [r [Hr Hu]].
    destruct (joinChannel_joined doc added r Hr) as [user [Huser [-> _]]].
    cbn [joined] in Hu. destruct Hu as [Hu | []]. subst user. now apply stringsOf_In. }
  now apply (NoDup_app_disjoint _ _ Hnd s).
Qed.

(** X24.  When collaborators are added to a channel, each request made
    adds one of the added collaborators to the members of that channel:
    the collaborator is among those the mixin transaction pushes, is
    neither [null] nor [undefined], and is not yet a member; no
    collaborator is added twice; and nothing is requested for a private
    channel, for a channel that is not found, for a class that is no
    channel, or for another mixin or kind of transaction. *)
Theorem OnCollaboratorsChanged_joins (tx : Tx) (res : list Chunter.TxRequest) :
  OnCollaboratorsChanged tx = Some res ->
  (forall r, In r res ->
     exists cud attributes doc rest listed user,
       tx = TxMixin cud notification_mixin_Collaborators attributes
       /\ isDerived (objectClass cud) chunter_class_Channel = true
       /\ findChannel (objectClass cud) (objectId cud) = doc :: rest
       /\ Chunter.private doc = false
       /\ Chunter.flatCombined [VObj attributes] "collaborators" "$push" "$each"
          = Some listed
       /\ In user listed
       /\ Chunter.notNullish user = true
       /\ existsb (Chunter.sameValueZero user) (Chunter.members doc) = false
       /\ joined r = Some (Chunter.channelId doc, user))
  /\ NoDup (stringsOf (flat_map (fun r => match joined r with
                                          | Some (_, u) => [u]
                                          | None => []
                                          end) res)).
Proof.
  unfold Chunter.OnCollaboratorsChanged.
  destruct tx as [| | | | cud mixin attributes | |];
    try (intros [= <-]; split; [intros r [] | constructor]).
  destruct (String.eqb mixin notification_mixin_Collaborators) eqn:Em; cbn [negb];
    [| intros [= <-]; split; [intros r [] | constructor]].
  apply String.eqb_eq in Em. subst mixin.
  destruct (isDerived (objectClass cud) chunter_class_Channel) eqn:Ed; cbn [negb];
    [| intros [= <-]; split; [intros r [] | constructor]].
  destruct (findChannel (objectClass cud) (objectId cud)) as [| doc rest] eqn:Ef;
    [intros [= <-]; split; [intros r [] | constructor] |].
  destruct (Chunter.private doc) eqn:Ep;
    [intros [= <-]; split; [intros r [] | constructor] |].
  destruct (Chunter.combineAttributes [VObj attributes] "collaborators" "$push" "$each")
    as [added |] eqn:Ec; [| discriminate].
  intros [= <-].
  destruct (combineAttributes_once _ _ _ _ _ Ec) as [listed [Hl [Hin [_ Hnd]]]].
  split.
  - intros r Hr. destruct (joinChannel_joined doc added r Hr) as [user [Hu [-> Hm]]].
    destruct (Hin user Hu) as [Hlisted Hnn].
    exists cud, attributes, doc, rest, listed, user. now repeat split.
  - now apply joinChannel_users.
Qed.

End TriggerProperties.

Section HidingProperties.

Variable chunter_mixin_ChannelInfo : Ref.
Variable hasChannelInfo : Chunter.DocNotifyContext -> bool.
Variable infoHidden : Chunter.DocNotifyContext -> bool.

Abbreviation hideOldChannels := (Chunter.hideOldChannels chunter_mixin_ChannelInfo).
Abbreviation hideOldDirects :=
  (Chunter.hideOldDirects chunter_mixin_ChannelInfo hasChannelInfo infoHidden).
Abbreviation hideOldActivityChannels :=
  (Chunter.hideOldActivityChannels chunter_mixin_ChannelInfo infoHidden).

Abbreviation visibleOf contexts :=
  (filter (fun context => negb (hasChannelInfo context) || negb (infoHidden context))
     contexts).
Abbreviation staleOf date contexts :=
  (filter (fun context => negb (Chunter.fresh date context)) contexts).

Lemma firstn_incl {A : Type} (n : nat) (l : list A) (x : A) :
  In x (firstn n l) -> In x l.
Proof.
  intros Hin. rewrite <- (firstn_skipn n l). apply in_or_app. now left.
Qed.

Lemma fresh_stale (date : Z) (context : Chunter.DocNotifyContext) :
  Chunter.fresh date context = false <-> stale date context.
Proof.
  unfold Chunter.fresh, stale. rewrite orb_false_iff, Z.gtb_ltb, !Z.ltb_ge. tauto.
Qed.

Lemma hideOldChannels_In (contexts : list Chunter.DocNotifyContext)
    (r : Chunter.TxRequest) :
  In r (hideOldChannels contexts) ->
  exists context,
    In context contexts
    /\ r = Chunter.CreateTxMixin (Chunter.contextId context) (Chunter.contextClass context)
             (Chunter.contextSpace context) chunter_mixin_ChannelInfo
             [("hidden", VBool true)].
Proof.
  unfold Chunter.hideOldChannels. intros Hin. apply in_map_iff in Hin.
  destruct Hin as [context [<- Hc]]. now exists context.
Qed.

(** X25.  The direct chats and the activity channels that are hidden are
    stale ones: every request sets [hidden] on a context of the list in
    which nothing was posted since it was last viewed and whose last post
    is seven days old or more; an activity channel that is hidden already
    is left alone.  No direct chat is hidden when at most ten are
    visible.  When more are, the stale ones are hidden if they are no
    more than the visible ones beyond ten; if they are more, the number
    hidden is the number by which they exceed it, taken from the start of
    the list. *)
Theorem hidden_channels_are_stale (contexts : list Chunter.DocNotifyContext) (date : Z) :
  (forall r, In r (hideOldDirects contexts date) ->
     exists context,
       In context contexts /\ stale date context
       /\ r = Chunter.CreateTxMixin (Chunter.contextId context)
                (Chunter.contextClass context) (Chunter.contextSpace context)
                chunter_mixin_ChannelInfo [("hidden", VBool true)])
  /\ (List.length (visibleOf contexts) <= 10 -> hideOldDirects contexts date = [])
  /\ (10 < List.length (visibleOf contexts) ->
      hideOldDirects contexts date
      = hideOldChannels
          (firstn (if Nat.leb (List.length (staleOf date contexts))
                        (List.length (visibleOf contexts) - 10)
                   then List.length (staleOf date contexts)
                   else List.length (staleOf date contexts)
                        - (List.length (visibleOf contexts) - 10))
             (staleOf date contexts)))
  /\ (forall r, In r (hideOldActivityChannels contexts date) ->
        exists context,
          In context contexts /\ stale date context /\ infoHidden context = false
          /\ r = Chunter.CreateTxMixin (Chunter.contextId context)
                   (Chunter.contextClass context) (Chunter.contextSpace context)
                   chunter_mixin_ChannelInfo [("hidden", VBool true)])
  /\ (forall context,
        In context contexts -> stale date context -> infoHidden context = false ->
        In (Chunter.CreateTxMixin (Chunter.contextId context)
              (Chunter.contextClass context) (Chunter.contextSpace context)
              chunter_mixin_ChannelInfo [("hidden", VBool true)])
           (hideOldActivityChannels contexts date)).
Proof.
  assert (Hvis : filter (fun context => if negb (hasChannelInfo context) then true
                                        else negb (infoHidden context)) contexts
                 = visibleOf contexts).
  { apply filter_ext. intros c. now destruct (hasChannelInfo c). }
  assert (Hold : forall c, In c (staleOf date contexts) -> In c contexts /\ stale date c).
  { intros c Hc. apply filter_In in Hc. destruct Hc as [Hc Hf].
    split; [exact Hc |]. apply fresh_stale. now apply negb_true_iff. }
  split; [| split; [| split; [| split]]].
  - intros r. unfold Chunter.hideOldDirects. rewrite Hvis.
    destruct (Nat.leb (List.length (visibleOf contexts)) 10); [intros [] |].
    intros Hin. apply hideOldChannels_In in Hin.
    destruct Hin as [c [Hc ->]]. exists c.
    assert (Hc' : In c (staleOf date contexts)).
    { destruct (Nat.ltb _ _); [| exact Hc]. now apply firstn_incl in Hc. }
    destruct (Hold c Hc') as [H1 H2]. split; [exact H1 |]. split; [exact H2 | reflexivity].
  - intros Hle. unfold Chunter.hideOldDirects. rewrite Hvis.
    apply Nat.leb_le in Hle. now rewrite Hle.
  - intros Hlt. unfold Chunter.hideOldDirects. rewrite Hvis.
    assert (Hleb : Nat.leb (List.length (visibleOf contexts)) 10 = false)
      by (apply Nat.leb_gt; lia).
    rewrite Hleb.
    destruct (Nat.ltb (List.length (visibleOf contexts) - 10)
                (List.length (staleOf date contexts))) eqn:E1.
    + apply Nat.ltb_lt in E1.
      assert (E2 : Nat.leb (List.length (staleOf date contexts))
                     (List.length (visibleOf contexts) - 10) = false)
        by (apply Nat.leb_gt; exact E1).
      now rewrite E2.
    + apply Nat.ltb_ge in E1. apply Nat.leb_le in E1. rewrite E1.
      now rewrite firstn_all.
  - intros r. unfold Chunter.hideOldActivityChannels.
    destruct contexts as [| c0 rest]; [intros [] |].
    intros Hin. apply hideOldChannels_In in Hin. destruct Hin as [c [Hc ->]].
    apply filter_In in Hc. destruct Hc as [Hc Hf].
    apply andb_true_iff in Hf. destruct Hf as [Hf Hh].
    exists c. split; [exact Hc |]. split; [apply fresh_stale; now apply negb_true_iff |].
    split; [now apply negb_true_iff | reflexivity].
  - intros c Hc Hs Hh. unfold Chunter.hideOldActivityChannels.
    destruct contexts as [| c0 rest]; [destruct Hc |].
    unfold Chunter.hideOldChannels.
    apply (in_map (fun context =>
             Chunter.CreateTxMixin (Chunter.contextId context)
               (Chunter.contextClass context) (Chunter.contextSpace context)
               chunter_mixin_ChannelInfo [("hidden", VBool true)])).
    apply filter_In. split; [exact Hc |].
    apply fresh_stale in Hs. now rewrite Hs, Hh.
Qed.

Variable chatUpdates : list Chunter.ChatInfo.

Abbreviation OnContextUpdate :=
  (Chunter.OnContextUpdate chunter_mixin_ChannelInfo chatUpdates).

(** X26.  When a context that some chat information hides is updated with
    a last update timestamp, the context is shown again: the first chat
    information that hides it, and only that one, is given its list of
    hidden contexts without the context and with the others in their
    order, and the context's [hidden] is set to [false].  Nothing is
    requested when the update sets no timestamp or no chat information
    hides the context. *)
Theorem OnContextUpdate_unhides (cud : TxCUD) (operations : Obj) :
  (OnContextUpdate cud operations = []
   /\ (getProp operations "lastUpdateTimestamp" = VUndefined
       \/ Forall (fun update => ~ In (objectId cud) (Chunter.hidden update)) chatUpdates))
  \/ exists before update after kept,
       chatUpdates = (before ++ update :: after)%list
       /\ Forall (fun other => ~ In (objectId cud) (Chunter.hidden other)) before
       /\ In (objectId cud) (Chunter.hidden update)
       /\ OnContextUpdate cud operations
          = [Chunter.CreateTxMixin (objectId cud) (objectClass cud) (objectSpace cud)
               chunter_mixin_ChannelInfo [("hidden", VBool false)];
             Chunter.CreateTxUpdateDoc (Chunter.infoClass update) (Chunter.infoSpace update)
               (Chunter.infoId update) [("hidden", VArr (map VStr kept))]]
       /\ ~ In (objectId cud) kept
       /\ kept = filter (fun id => negb (String.eqb id (objectId cud)))
                   (Chunter.hidden update)
       /\ (forall id, id <> objectId cud -> (In id kept <-> In id (Chunter.hidden update))).
Proof.
  unfold Chunter.OnContextUpdate.
  destruct (hasProp operations "lastUpdateTimestamp"
            && match getProp operations "lastUpdateTimestamp" with
               | VUndefined => false
               | _ => true
               end) eqn:Hup; cbn [negb].
  - assert (Hfind : forall l,
              (find (fun update => inStrings (objectId cud) (Chunter.hidden update)) l = None
               /\ Forall (fun update => ~ In (objectId cud) (Chunter.hidden update)) l)
              \/ exists before update after,
                   l = (before ++ update :: after)%list
                   /\ Forall (fun other => ~ In (objectId cud) (Chunter.hidden other)) before
                   /\ In (objectId cud) (Chunter.hidden update)
                   /\ find (fun update => inStrings (objectId cud) (Chunter.hidden update)) l
                      = Some update).
    { induction l as [| u l IH]; [left; split; [reflexivity | constructor] |].
      cbn [find]. destruct (inStrings (objectId cud) (Chunter.hidden u)) eqn:E.
      - right. exists [], u, l. split; [reflexivity |]. split; [constructor |].
        split; [now apply inStrings_In | reflexivity].
      - assert (Hu : ~ In (objectId cud) (Chunter.hidden u)).
        { intros Hin. apply inStrings_In in Hin. congruence. }
        destruct IH as [[Hn Hall] | [before [update [after [-> [Hb [Hin Hf]]]]]]].
        + left. split; [exact Hn | now constructor].
        + right. exists (u :: before), update, after.
          split; [reflexivity |]. split; [now constructor |]. now split. }
    destruct (Hfind chatUpdates) as [[Hn Hall] | [before [update [after [Hl [Hb [Hin Hf]]]]]]].
    + left. rewrite Hn. split; [reflexivity | now right].
    + right. rewrite Hf.
      exists before, update, after,
        (filter (fun id => negb (String.eqb id (objectId cud))) (Chunter.hidden update)).
      split; [exact Hl |]. split; [exact Hb |]. split; [exact Hin |].
      split; [reflexivity |]. split; [| split; [reflexivity |]].
      * intros Hk. apply filter_In in Hk. destruct Hk as [_ Hk].
        now rewrite String.eqb_refl in Hk.
      * intros id Hne. rewrite filter_In. apply String.eqb_neq in Hne.
        rewrite Hne. cbn [negb]. tauto.
  - left. split; [reflexivity |].
    apply andb_false_iff in Hup. destruct Hup as [Hup | Hup].
    + left. unfold hasProp in Hup. unfold getProp.
      now destruct (lookupProp operations "lastUpdateTimestamp").
    + left. now destruct (getProp operations "lastUpdateTimestamp").
Qed.

End HidingProperties.

Lemma OnCollaboratorsChanged_joins_witness :
  exists res,
    Chunter.OnCollaboratorsChanged "collaborators" "channel" (fun _ _ => true)
      (fun _ _ => [{| Chunter.channelId := "c1"; Chunter.channelClass := "channel";
                      Chunter.channelSpace := "s1"; Chunter.members := [VStr "u1"];
                      Chunter.private := false |}])
      (TxMixin exampleCud "collaborators"
         [("$push", VObj [("collaborators",
                           VObj [("$each", VArr [VStr "u1"; VStr "u2"; VStr "u2"])])])])
    = Some res
    /\ map joined res = [Some ("c1", VStr "u2")].
Proof.
  eexists. split; [reflexivity |].
  destruct (OnCollaboratorsChanged_joins "collaborators" "channel" (fun _ _ => true)
              (fun _ _ => [{| Chunter.channelId := "c1"; Chunter.channelClass := "channel";
                              Chunter.channelSpace := "s1"; Chunter.members := [VStr "u1"];
                              Chunter.private := false |}])
              (TxMixin exampleCud "collaborators"
                 [("$push", VObj [("collaborators",
                                   VObj [("$each", VArr [VStr "u1"; VStr "u2"; VStr "u2"])])])])
              _ eq_refl) as [_ _].
  reflexivity.
Defined.
